(** * Asset returns analysis: a shallow embedding of [asset_analysis-app.py]

    The program is a Streamlit script: it reads a comma separated list of
    tickers, downloads daily bars, trims them to a common window, computes
    per-ticker statistics, ranks the tickers, and shows a correlation matrix
    and a chart.

    Modelling choices, shared by the whole development.
    - A pandas [Timestamp] is an integer day number ([Z]); [NaT] is [None].
    - A float is an exact rational ([Q]): binary64 rounding, infinities and
      overflow are not modelled.  Prices are meant to be finite and non-zero,
      as market quotes are.  [NaN] is written out where the code can produce
      it ([None] in a raw cell, in a percentage change, in a correlation).
    - The correlation coefficient needs a square root, so the correlation
      matrix holds real numbers ([R]).
    - A Python [dict] is an association list in insertion order: the order of
      the keys decides the ranking of ties and the layout of the tables.
    - [st.error], [st.dataframe], ... append to a log of UI events; a Python
      exception is the [Raise] outcome of a computation. *)

From Stdlib Require Import List ZArith QArith Qminmax Qround Qabs String Ascii Bool Lia Lqa.
From Stdlib Require Import Reals Qreals Lra.
From Stdlib Require Import Permutation Sorted.
Import ListNotations.

Local Open Scope string_scope.
Local Open Scope list_scope.
Local Open Scope Z_scope.

(** ** Python values the script handles *)

Definition date := Z.

Inductive exn : Type :=
| KeyError (key : string)
| IndexError
| ValueError (msg : string)
| ZeroDivisionError
| OtherError (msg : string).

(** [str(e)] of an exception, as the f-strings of the script print it. *)
Definition exn_str (e : exn) : string :=
  match e with
  | KeyError k => "'" ++ k ++ "'"
  | IndexError => "single positional indexer is out-of-bounds"
  | ValueError m => m
  | ZeroDivisionError => "float division by zero"
  | OtherError m => m
  end.

(** A field of a statistics dictionary. *)
Inductive value : Type :=
| VDate (d : date)
| VNum (q : Q).

Definition StatsRecord := list (string * value).

(** A cell of the correlation matrix: [None] is [NaN]. *)
Definition cell := option R.

Record Matrix : Type := mkMatrix {
  row_labels : list string;
  col_labels : list string;
  entries : list (list cell)
}.

(** ** Data frames

    A frame has column names and rows; a row is an index date and one cell
    per column.  [RawFrame] is what the download returns (cells may be NaN);
    [DataFrame] is a frame after [dropna()]. *)

Record RawFrame : Type := mkRaw {
  raw_columns : list string;
  raw_rows : list (date * list (option Q))
}.

Record DataFrame : Type := mkDF {
  columns : list string;
  rows : list (date * list Q)
}.

Definition TickerDataset := list (string * DataFrame).

(** ** The UI log and the computation monad *)

Inductive event : Type :=
| StError (msg : string)
| StSubheader (title : string)
| StStatsTable (order : list string) (stats : list (string * StatsRecord))
| StCorrTable (m : Matrix)
| StPlotlyChart (tickformat : string) (traces : list (string * value * list (date * Q)))
| StMarkdown (ticker description : string).

Inductive result (A : Type) : Type :=
| Ok (a : A)
| Raise (e : exn).
Arguments Ok {A} a.
Arguments Raise {A} e.

Definition M (A : Type) : Type := list event -> result A * list event.

Definition ret {A} (a : A) : M A := fun log => (Ok a, log).
Definition raise {A} (e : exn) : M A := fun log => (Raise e, log).
Definition bind {A B} (m : M A) (k : A -> M B) : M B :=
  fun log =>
    match m log with
    | (Ok a, log') => k a log'
    | (Raise e, log') => (Raise e, log')
    end.
(** [try: m except ...: h]; the handler decides which exceptions it takes
    and re-raises the others. *)
Definition try_except {A} (m : M A) (h : exn -> M A) : M A :=
  fun log =>
    match m log with
    | (Ok a, log') => (Ok a, log')
    | (Raise e, log') => h e log'
    end.
Definition emit (e : event) : M unit := fun log => (Ok tt, log ++ [e]).
Definition st_error (msg : string) : M unit := emit (StError msg).
Definition lift_opt {A} (o : option A) (e : exn) : M A :=
  match o with Some a => ret a | None => raise e end.
Definition run {A} (m : M A) : result A * list event := m [].

Declare Scope py_scope.
Delimit Scope py_scope with py.
Notation "x <- m ;; k" := (bind m (fun x => k))
  (at level 61, m at next level, right associativity) : py_scope.
Notation "m ;;; k" := (bind m (fun _ => k))
  (at level 61, right associativity) : py_scope.
Local Open Scope py_scope.

(** [for x in xs: body x], threading the loop state. *)
Fixpoint for_each {A S} (xs : list A) (body : A -> S -> M S) (s : S) : M S :=
  match xs with
  | [] => ret s
  | x :: xs' => s' <- body x s ;; for_each xs' body s'
  end.

(** [[f x for x in xs]] where [f] may raise. *)
Fixpoint map_m {A B} (f : A -> M B) (xs : list A) : M (list B) :=
  match xs with
  | [] => ret []
  | x :: xs' => y <- f x ;; ys <- map_m f xs' ;; ret (y :: ys)
  end.

(** ** Dictionaries (insertion ordered) *)

Fixpoint dict_get {V} (k : string) (d : list (string * V)) : option V :=
  match d with
  | [] => None
  | (k', v) :: d' => if String.eqb k k' then Some v else dict_get k d'
  end.

(** [d[k] = v]: overwrite in place, or append a new key. *)
Fixpoint dict_set {V} (k : string) (v : V) (d : list (string * V)) : list (string * V) :=
  match d with
  | [] => [(k, v)]
  | (k', v') :: d' =>
      if String.eqb k k' then (k', v) :: d' else (k', v') :: dict_set k v d'
  end.

Definition keys {V} (d : list (string * V)) : list string := map fst d.

(** [d[k]], raising [KeyError]. *)
Definition dict_item {V} (k : string) (d : list (string * V)) : M V :=
  lift_opt (dict_get k d) (KeyError k).

Fixpoint mem (s : string) (l : list string) : bool :=
  match l with
  | [] => false
  | x :: l' => String.eqb s x || mem s l'
  end.

(** ** Ticker input (lines 164-165) *)

(** [str.isspace] on one character of the ASCII range. *)
Definition isspace (c : ascii) : bool :=
  let n := nat_of_ascii c in
  ((9 <=? n)%nat && (n <=? 13)%nat) || ((28 <=? n)%nat && (n <=? 32)%nat).

Definition upper_char (c : ascii) : ascii :=
  let n := nat_of_ascii c in
  if ((97 <=? n)%nat && (n <=? 122)%nat)%bool then ascii_of_nat (n - 32) else c.

Fixpoint upper (s : string) : string :=
  match s with
  | EmptyString => EmptyString
  | String c s' => String (upper_char c) (upper s')
  end.

Fixpoint lstrip (s : string) : string :=
  match s with
  | EmptyString => EmptyString
  | String c s' => if isspace c then lstrip s' else s
  end.

Fixpoint rstrip (s : string) : string :=
  match s with
  | EmptyString => EmptyString
  | String c s' =>
      match rstrip s' with
      | EmptyString => if isspace c then EmptyString else String c EmptyString
      | r => String c r
      end
  end.

Definition strip (s : string) : string := rstrip (lstrip s).

(** [s.split(',')]: never empty, [''.split(',') = ['']]. *)
Fixpoint split (sep : ascii) (s : string) : list string :=
  match s with
  | EmptyString => [EmptyString]
  | String c s' =>
      if Ascii.eqb c sep then EmptyString :: split sep s'
      else match split sep s' with
           | [] => [String c EmptyString]
           | w :: ws => String c w :: ws
           end
  end.

(** Truth value of a string: non-empty. *)
Definition truthy (s : string) : bool :=
  match s with EmptyString => false | _ => true end.

(** [tickers = [t.strip().upper() for t in text.split(',') if t.strip()]]. *)
Definition tickers (text : string) : list string :=
  map (fun t => upper (strip t)) (filter (fun t => truthy (strip t)) (split "," text)).

(** The characters the string model is faithful on: 7-bit ASCII. *)
Fixpoint is_ascii7 (s : string) : bool :=
  match s with
  | EmptyString => true
  | String c s' => (nat_of_ascii c <? 128)%nat && is_ascii7 s'
  end.

(** ** Data acquisition (lines 31-45) *)

Definition PRICE_COLUMNS : list string := ["Adj Close"; "Close"].

(** What [yf.download(tickers, group_by='ticker', ...)] can hand back: an
    exception, a frame with one level of columns, or a frame whose columns
    are grouped by ticker (a [MultiIndex]); the groups share one index. *)
Inductive Download : Type :=
| DlRaises (e : exn)
| DlFlat (data : RawFrame)
| DlGrouped (groups : list (string * RawFrame)).

(** The two collaborators of the script at Yahoo Finance. *)
Class Yahoo : Type := {
  yf_download : list string -> Download;
  yf_info : string -> result (option string)
}.

(** [data.empty]: some axis has length 0. *)
Definition raw_empty (f : RawFrame) : bool :=
  match raw_rows f, raw_columns f with
  | [], _ | _, [] => true
  | _, _ => false
  end.

Definition download_empty (groups : list (string * RawFrame)) : bool :=
  forallb (fun g => raw_empty (snd g)) groups.

Definition all_some {A} (l : list (option A)) : bool :=
  forallb (fun c => match c with Some _ => true | None => false end) l.

Fixpoint somes {A} (l : list (option A)) : list A :=
  match l with
  | [] => []
  | Some a :: l' => a :: somes l'
  | None :: l' => somes l'
  end.

(** [frame.dropna()]: the rows without a NaN. *)
Definition dropna (f : RawFrame) : DataFrame :=
  mkDF (raw_columns f)
       (map (fun r => (fst r, somes (snd r)))
            (filter (fun r => all_some (snd r)) (raw_rows f))).

Definition join (sep : string) (l : list string) : string := String.concat sep l.

(** [str(tickers)] of a list of strings. *)
Definition list_repr (l : list string) : string :=
  ("[" ++ join ", " (map (fun t => "'" ++ t ++ "'")%string l) ++ "]")%string.

Definition fetch_stock_data `{Yahoo} (tickers : list string) : M (option TickerDataset) :=
  try_except
    (match yf_download tickers with
     | DlRaises e => raise e
     | DlFlat data =>
         if raw_empty data then
           st_error ("No data found for tickers: " ++ join ", " tickers)%string ;;; ret None
         else
           t0 <- lift_opt (hd_error tickers) IndexError ;;
           ret (Some [(t0, dropna data)])
     | DlGrouped groups =>
         if download_empty groups then
           st_error ("No data found for tickers: " ++ join ", " tickers)%string ;;; ret None
         else
           d <- for_each tickers
                  (fun ticker acc =>
                     sub <- dict_item ticker groups ;;
                     ret (dict_set ticker (dropna sub) acc)) [] ;;
           ret (Some d)
     end)
    (fun e =>
       st_error ("Error fetching data for tickers: " ++ list_repr tickers ++ ": " ++ exn_str e)%string ;;;
       ret None).

(** ** Frame operations used by the script *)

Definition index (data : DataFrame) : list date := map fst (rows data).

(** [len(data)]. *)
Definition df_len (data : DataFrame) : nat := List.length (rows data).

(** [data.empty]. *)
Definition df_empty (data : DataFrame) : bool :=
  match rows data, columns data with
  | [], _ | _, [] => true
  | _, _ => false
  end.

(** [data[mask]] for a mask computed from the index. *)
Definition select_rows (mask : date -> bool) (data : DataFrame) : DataFrame :=
  mkDF (columns data) (filter (fun r => mask (fst r)) (rows data)).

(** [index.min()] and [index.max()]; [None] is [NaT], the answer on an
    empty index. *)
Definition index_min (data : DataFrame) : option date :=
  match index data with
  | [] => None
  | d :: ds => Some (fold_left Z.min ds d)
  end.

Definition index_max (data : DataFrame) : option date :=
  match index data with
  | [] => None
  | d :: ds => Some (fold_left Z.max ds d)
  end.

(** Comparisons of timestamps: any comparison with [NaT] is [False]. *)
Definition ts_gt (a b : option date) : bool :=
  match a, b with Some x, Some y => y <? x | _, _ => false end.
Definition ts_lt (a b : option date) : bool := ts_gt b a.
Definition ts_ge (a b : option date) : bool :=
  match a, b with Some x, Some y => y <=? x | _, _ => false end.
Definition ts_le (a b : option date) : bool := ts_ge b a.

(** The builtin [max] and [min] on timestamps: keep the first item, replace
    it by a later one only when that one compares strictly beyond it;
    [ValueError] on an empty sequence. *)
Fixpoint max_from (cur : option date) (l : list (option date)) : option date :=
  match l with
  | [] => cur
  | x :: l' => max_from (if ts_gt x cur then x else cur) l'
  end.

Fixpoint min_from (cur : option date) (l : list (option date)) : option date :=
  match l with
  | [] => cur
  | x :: l' => min_from (if ts_lt x cur then x else cur) l'
  end.

Definition py_max (l : list (option date)) : M (option date) :=
  match l with
  | [] => raise (ValueError "max() arg is an empty sequence")
  | x :: l' => ret (max_from x l')
  end.

Definition py_min (l : list (option date)) : M (option date) :=
  match l with
  | [] => raise (ValueError "min() arg is an empty sequence")
  | x :: l' => ret (min_from x l')
  end.

(** ** Alignment (lines 47-64) *)

Definition ALL_AVAILABLE := "Analyze all data available".
Definition EARLIEST_COMMON := "Analyze from the earliest common date in the dataset".
Definition CUSTOM_DATE := "Analyze since a custom date".

Definition is_some {A} (o : option A) : bool :=
  match o with Some _ => true | None => false end.

(** The rows of a series that alignment keeps under an option: the window. *)
Definition common_mask (common_start_date : option date) (d : date) : bool :=
  ts_ge (Some d) common_start_date.

Definition custom_mask (custom_start_date custom_end_date : option date) (d : date) : bool :=
  ts_ge (Some d) custom_start_date && ts_le (Some d) custom_end_date.

Definition drop_empty (data_dict : TickerDataset) : TickerDataset :=
  filter (fun item => negb (df_empty (snd item))) data_dict.

(** Line 51: [max(data.index.min() for data in data_dict.values())]. *)
Definition common_start_date (data_dict : TickerDataset) : M (Datatypes.option date) :=
  py_max (map (fun item => index_min (snd item)) data_dict).

(** Lines 50-57: the trimming of every series, before the empty ones are
    dropped. *)
Definition trim_stock_data (data_dict : TickerDataset) (option : string)
    (custom_start_date custom_end_date : Datatypes.option date) : M TickerDataset :=
  if String.eqb option EARLIEST_COMMON then
    common_start_date <- common_start_date data_dict ;;
    ret (map (fun item => (fst item, select_rows (common_mask common_start_date) (snd item)))
             data_dict)
  else if String.eqb option CUSTOM_DATE
          && is_some custom_start_date && is_some custom_end_date then
    ret (map (fun item =>
                (fst item,
                 select_rows (custom_mask custom_start_date custom_end_date) (snd item)))
             data_dict)
  else ret data_dict.

Definition align_stock_data (data_dict : TickerDataset) (option : string)
    (custom_start_date custom_end_date : Datatypes.option date) : M TickerDataset :=
  try_except
    (data_dict1 <- trim_stock_data data_dict option custom_start_date custom_end_date ;;
     let data_dict2 := drop_empty data_dict1 in
     match data_dict2 with
     | [] => raise (ValueError "All datasets are empty after alignment.")
     | _ => ret data_dict2
     end)
    (fun e =>
       match e with
       | ValueError ve => st_error ("Alignment error: " ++ ve)%string ;;; ret []
       | _ => raise e
       end).

(** ** Columns and series *)

(** A pandas [Series]: values with their index. *)
Definition Series := list (date * Q).

Fixpoint position (name : string) (cols : list string) : Datatypes.option nat :=
  match cols with
  | [] => None
  | c :: cols' =>
      if String.eqb name c then Some O
      else match position name cols' with Some i => Some (S i) | None => None end
  end.

(** [data[name]]; [None] stands for the [KeyError] of a missing column. *)
Definition column (name : string) (data : DataFrame) : Datatypes.option Series :=
  match position name (columns data) with
  | None => None
  | Some i => Some (map (fun r => (fst r, nth i (snd r) 0%Q)) (rows data))
  end.

Definition values (s : Series) : list Q := map snd s.

Fixpoint replace_nth {A} (i : nat) (a : A) (l : list A) : list A :=
  match l, i with
  | [], _ => []
  | _ :: l', O => a :: l'
  | x :: l', S i' => x :: replace_nth i' a l'
  end.

(** [data[name] = vals]: overwrite the column or add it as the last one. *)
Definition set_column (name : string) (vals : list Q) (data : DataFrame) : DataFrame :=
  match position name (columns data) with
  | Some i =>
      mkDF (columns data)
           (map (fun rv => (fst (fst rv), replace_nth i (snd rv) (snd (fst rv))))
                (combine (rows data) vals))
  | None =>
      mkDF (columns data ++ [name])
           (map (fun rv => (fst (fst rv), snd (fst rv) ++ [snd rv]))
                (combine (rows data) vals))
  end.

(** [series.cummax()]. *)
Fixpoint cummax_from (m : Q) (l : list Q) : list Q :=
  match l with
  | [] => []
  | p :: l' => let m' := Qmax m p in m' :: cummax_from m' l'
  end.

Definition cummax (l : list Q) : list Q :=
  match l with
  | [] => []
  | p :: l' => p :: cummax_from p l'
  end.

(** [series.min()]; pandas answers NaN on an empty series, which the first
    guard of [calculate_statistics] excludes: the model answers 0 there. *)
Definition series_min (l : list Q) : Q :=
  match l with
  | [] => 0%Q
  | x :: l' => fold_left Qmin l' x
  end.

(** [(prices - rolling_max) / rolling_max], element by element. *)
Definition drawdowns (prices : list Q) : list Q :=
  map (fun pm => ((fst pm - snd pm) / snd pm)%Q) (combine prices (cummax prices)).

Definition max_drawdown (prices : list Q) : Q := series_min (drawdowns prices).

(** [series.pct_change()]: NaN for the first row and for 0/0.  (A non-zero
    price after a zero price gives an infinity in the code; the model keeps
    an entry there too, so the number of returns is the same, but its value
    is not meaningful: prices are meant to be non-zero.) *)
Fixpoint pct_change_from (prev : Q) (s : Series) : list (date * Datatypes.option Q) :=
  match s with
  | [] => []
  | (d, p) :: s' =>
      (d, if Qeq_bool prev 0 && Qeq_bool p 0 then None else Some (p / prev - 1)%Q)
        :: pct_change_from p s'
  end.

Definition pct_change (s : Series) : list (date * Datatypes.option Q) :=
  match s with
  | [] => []
  | (d, p) :: s' => (d, None) :: pct_change_from p s'
  end.

(** [series.dropna()]. *)
Fixpoint dropna_series (l : list (date * Datatypes.option Q)) : Series :=
  match l with
  | [] => []
  | (d, Some v) :: l' => (d, v) :: dropna_series l'
  | (_, None) :: l' => dropna_series l'
  end.

(** [round(x, 4)]: to the nearest multiple of 1/10000, ties to even. *)
Definition round_half_even (x : Q) : Z :=
  let f := Qfloor x in
  match (x - inject_Z f ?= 1 # 2)%Q with
  | Lt => f
  | Gt => f + 1
  | Eq => if Z.even f then f else f + 1
  end.

Definition round4 (x : Q) : Q := (inject_Z (round_half_even (x * 10000)) / 10000)%Q.

(** ** Statistics (lines 66-99)

    The power operator on floats and the moments of scipy and pandas are
    library code: the script only passes their results on. *)
Class NumLib : Type := {
  fpow : Q -> Q -> Q;
  skew : list Q -> Q;
  kurtosis : list Q -> Q;
  std : list Q -> Q;
  sqrt252 : Q
}.

Definition DAYS_PER_YEAR : Q := 1461 # 4.

(** The [try] block of [calculate_statistics] (lines 69-96). *)
Definition statistics_body `{NumLib} (data : DataFrame) (price_column : string)
  : M StatsRecord :=
     if (df_len data <? 2)%nat then ret []
     else
       start_date <- lift_opt (index_min data) (OtherError "NaT") ;;
       end_date <- lift_opt (index_max data) (OtherError "NaT") ;;
       let years := (inject_Z (end_date - start_date) / DAYS_PER_YEAR)%Q in
       cumulative <- lift_opt (column "Cumulative Return" data) (KeyError "Cumulative Return") ;;
       final_value <- lift_opt (hd_error (rev (values cumulative))) IndexError ;;
       inv_years <- (if Qeq_bool years 0 then raise ZeroDivisionError else ret (1 / years)%Q) ;;
       let cagr := (fpow (final_value + 1) inv_years - 1)%Q in
       prices <- lift_opt (column price_column data) (KeyError price_column) ;;
       let max_drawdown := max_drawdown (values prices) in
       let daily_returns := dropna_series (pct_change prices) in
       if (List.length daily_returns <? 2)%nat then ret []
       else
         let skewness := skew (values daily_returns) in
         let excess_kurtosis := kurtosis (values daily_returns) in
         let volatility := (std (values daily_returns) * sqrt252)%Q in
         ret [ ("Start Date", VDate start_date);
               ("End Date", VDate end_date);
               ("Years", VNum (round4 years));
               ("CAGR (%)", VNum (round4 (cagr * 100)));
               ("Max Drawdown (%)", VNum (round4 (max_drawdown * 100)));
               ("Volatility (%)", VNum (round4 (volatility * 100)));
               ("Skewness", VNum (round4 skewness));
               ("Excess Kurtosis", VNum (round4 excess_kurtosis));
               ("Cumulative Return (%)", VNum (round4 (final_value * 100))) ].

Definition calculate_statistics `{NumLib} (data : DataFrame) (price_column : string)
  : M StatsRecord :=
  try_except
    (statistics_body data price_column)
    (fun e => st_error ("Error calculating statistics: " ++ exn_str e)%string ;;; ret []).

(** ** Ranking (lines 208-213) *)

(** Insertion into a list sorted by descending key; an item goes before the
    first item whose key is not larger, so equal keys keep their order. *)
Fixpoint insert_desc (x : string * Q) (l : list (string * Q)) : list (string * Q) :=
  match l with
  | [] => [x]
  | y :: l' => if Qle_bool (snd y) (snd x) then x :: l else y :: insert_desc x l'
  end.

(** [sorted(items, key=snd, reverse=True)]: stable, descending. *)
Fixpoint sort_desc (l : list (string * Q)) : list (string * Q) :=
  match l with
  | [] => []
  | x :: l' => insert_desc x (sort_desc l')
  end.

Definition as_number (v : value) : M Q :=
  match v with
  | VNum q => ret q
  | VDate _ => raise (OtherError "TypeError")
  end.

(** [sorted(stats_dict.keys(), key=lambda x: stats_dict[x]["Cumulative Return (%)"],
    reverse=True)]: the key function runs on every ticker before any
    comparison. *)
Definition sorted_by_return (stats_dict : list (string * StatsRecord)) : M (list string) :=
  keyed <- map_m (fun x =>
                    record <- dict_item x stats_dict ;;
                    v <- dict_item "Cumulative Return (%)" record ;;
                    q <- as_number v ;;
                    ret (x, q))
                 (keys stats_dict) ;;
  ret (map fst (sort_desc keyed)).

(** ** Correlation (lines 101-120) *)

(** The index of [pd.DataFrame({ticker: series, ...})]: the sorted union of
    the indexes of the series. *)
Fixpoint insert_date (d : date) (l : list date) : list date :=
  match l with
  | [] => [d]
  | x :: l' =>
      if d <? x then d :: l
      else if d =? x then l
      else x :: insert_date d l'
  end.

Definition union_index (cols : list (string * Series)) : list date :=
  fold_left (fun acc col => fold_left (fun a r => insert_date (fst r) a) (snd col) acc) cols [].

(** The cell of a column at a row of the joint frame; [None] is NaN. *)
Fixpoint series_at (s : Series) (d : date) : Datatypes.option Q :=
  match s with
  | [] => None
  | (d', v) :: s' => if d =? d' then Some v else series_at s' d
  end.

(** The rows on which both columns hold a number. *)
Fixpoint complete_pairs (idx : list date) (x y : Series) : list (Q * Q) :=
  match idx with
  | [] => []
  | d :: idx' =>
      match series_at x d, series_at y d with
      | Some a, Some b => (a, b) :: complete_pairs idx' x y
      | _, _ => complete_pairs idx' x y
      end
  end.

Definition Rsum (l : list R) : R := fold_right Rplus 0%R l.

Definition mean (l : list R) : R := (Rsum l / INR (List.length l))%R.

(** Sum of the products of the deviations from the means. *)
Definition codeviation (xs ys : list R) : R :=
  Rsum (map (fun p => ((fst p - mean xs) * (snd p - mean ys))%R) (combine xs ys)).

(** Pearson's coefficient as [DataFrame.corr()] computes it on the complete
    pairs of two columns (with [min_periods = 1]): NaN when there is no
    pair or when the divisor is 0. *)
Definition pearson (ps : list (Q * Q)) : cell :=
  match ps with
  | [] => None
  | _ =>
      let xs := map (fun p => Q2R (fst p)) ps in
      let ys := map (fun p => Q2R (snd p)) ps in
      let divisor := sqrt (codeviation xs xs * codeviation ys ys) in
      if Req_dec_T divisor 0 then None
      else Some (codeviation xs ys / divisor)%R
  end.

(** [frame.corr()] of a frame given by its columns. *)
Definition corr (cols : list (string * Series)) : Matrix :=
  let idx := union_index cols in
  mkMatrix (keys cols) (keys cols)
           (map (fun x => map (fun y => pearson (complete_pairs idx (snd x) (snd y))) cols) cols).

(** [m.loc[rows, cols]] with lists of labels: [KeyError] when the axis
    lacks one of them.  pandas puts the missing labels in the message of
    the exception; the model keeps the first of them as the payload. *)
Definition loc (m : Matrix) (rws cls : list string) : M Matrix :=
  ri <- map_m (fun r => lift_opt (position r (row_labels m)) (KeyError r)) rws ;;
  ci <- map_m (fun c => lift_opt (position c (col_labels m)) (KeyError c)) cls ;;
  ret (mkMatrix rws cls
         (map (fun i => map (fun j => nth j (nth i (entries m) []) None) ci) ri)).

(** [round(x, 4)] on a real number. *)
Definition Rround_half_even (x : R) : Z :=
  let f := Zfloor x in
  if Rlt_dec (x - IZR f) (1 / 2) then f
  else if Rlt_dec (1 / 2) (x - IZR f) then f + 1
  else if Z.even f then f else f + 1.

Definition Rround4 (x : R) : R := (IZR (Rround_half_even (x * 10000)) / 10000)%R.

Definition matrix_round (m : Matrix) : Matrix :=
  mkMatrix (row_labels m) (col_labels m)
           (map (map (option_map Rround4)) (entries m)).

(** The daily returns of the tickers that have an ['Adj Close'] column. *)
Definition daily_returns_frame (data_dict : TickerDataset) : list (string * Series) :=
  flat_map (fun item =>
              match column "Adj Close" (snd item) with
              | Some prices => [(fst item, dropna_series (pct_change prices))]
              | None => []
              end) data_dict.

Definition calculate_correlation_table (data_dict : TickerDataset)
    (sorted_tickers : list string) : M Matrix :=
  let daily_returns := daily_returns_frame data_dict in
  let correlation_matrix := corr daily_returns in
  correlation_matrix <- loc correlation_matrix sorted_tickers sorted_tickers ;;
  ret (matrix_round correlation_matrix).

(** The entry of a matrix at two labels. *)
Definition entry (m : Matrix) (r c : string) : Datatypes.option cell :=
  match position r (row_labels m), position c (col_labels m) with
  | Some i, Some j => nth_error (nth i (entries m) []) j
  | _, _ => None
  end.

(** ** Chart and descriptions (lines 122-161) *)

Definition ts_days (hi lo : Datatypes.option date) : Datatypes.option Z :=
  match hi, lo with
  | Some h, Some l => Some (h - l)
  | _, _ => None
  end.

Definition plot_cumulative_returns (data_dict : TickerDataset)
    (stats_dict : list (string * StatsRecord)) (sorted_tickers : list string) : M unit :=
  hi <- py_max (map (fun item => index_max (snd item)) data_dict) ;;
  lo <- py_min (map (fun item => index_min (snd item)) data_dict) ;;
  let time_horizon_days := ts_days hi lo in
  let tickformat :=
    match time_horizon_days with
    | Some n => if n <? 30 then ".2%" else ".0%"
    | None => ".0%"
    end in
  traces <- map_m (fun ticker =>
                     data <- dict_item ticker data_dict ;;
                     y <- lift_opt (column "Cumulative Return" data)
                                   (KeyError "Cumulative Return") ;;
                     record <- dict_item ticker stats_dict ;;
                     total <- dict_item "Cumulative Return (%)" record ;;
                     ret (ticker, total, y))
                  sorted_tickers ;;
  emit (StPlotlyChart tickformat traces).

Definition fetch_ticker_info `{Yahoo} (tickers : list string) : list (string * string) :=
  fold_left (fun info ticker =>
               dict_set ticker
                 match yf_info ticker with
                 | Ok (Some long_name) => long_name
                 | Ok None => "No description available"
                 | Raise e => ("Error fetching data: " ++ exn_str e)%string
                 end info)
            tickers [].

(** ** The script (lines 163-241) *)

(** The loop of lines 202-206.  [data] is the object held by [data_dict],
    so the new column shows in [data_dict] too: the loop state carries the
    frames already visited together with [stats_dict]. *)
Definition annotate_and_measure `{NumLib} (item : string * DataFrame)
    (st : TickerDataset * list (string * StatsRecord))
  : M (TickerDataset * list (string * StatsRecord)) :=
  let (ticker, data) := item in
  let (visited, stats_dict) := st in
  match find (fun col => mem col (columns data)) PRICE_COLUMNS with
  | None => ret (visited ++ [(ticker, data)], stats_dict)
  | Some price_col =>
      prices <- lift_opt (column price_col data) (KeyError price_col) ;;
      first <- lift_opt (hd_error (values prices)) IndexError ;;
      let data' :=
        set_column "Cumulative Return" (map (fun p => (p / first - 1)%Q) (values prices)) data in
      record <- calculate_statistics data' price_col ;;
      ret (visited ++ [(ticker, data')], dict_set ticker record stats_dict)
  end.

(** Everything under [if data_dict:] at line 200. *)
Definition analyze `{Yahoo} `{NumLib} (data_dict : TickerDataset) : M unit :=
  st <- for_each data_dict annotate_and_measure ([], []) ;;
  let (data_dict, stats_dict) := st in
  sorted_tickers <- sorted_by_return stats_dict ;;
  emit (StSubheader "Statistics Summary") ;;;
  emit (StStatsTable sorted_tickers stats_dict) ;;;
  (if (1 <? List.length data_dict)%nat then
     emit (StSubheader "Correlation Matrix") ;;;
     correlation_matrix <- calculate_correlation_table data_dict sorted_tickers ;;
     emit (StCorrTable (matrix_round correlation_matrix))
   else ret tt) ;;;
  emit (StSubheader "Cumulative Returns") ;;;
  plot_cumulative_returns data_dict stats_dict sorted_tickers ;;;
  emit (StSubheader "Ticker Descriptions") ;;;
  let ticker_info := fetch_ticker_info sorted_tickers in
  for_each sorted_tickers
    (fun ticker _ =>
       emit (StMarkdown ticker
               match dict_get ticker ticker_info with
               | Some description => description
               | None => "No description available"
               end)) tt.

(** The whole run, from the text box to the last widget. *)
Definition app `{Yahoo} `{NumLib} (text : string) (align_option : string)
    (custom_start_date custom_end_date : date) : M unit :=
  let tickers := tickers text in
  match tickers with
  | [] => ret tt
  | _ =>
      fetched <- fetch_stock_data tickers ;;
      match fetched with
      | None | Some [] => ret tt
      | Some data_dict =>
          data_dict <-
            (if String.eqb align_option CUSTOM_DATE then
               align_stock_data data_dict align_option
                                (Some custom_start_date) (Some custom_end_date)
             else if negb (String.eqb align_option ALL_AVAILABLE) then
               align_stock_data data_dict align_option None None
             else ret data_dict) ;;
          match data_dict with
          | [] => ret tt
          | _ => analyze data_dict
          end
      end
  end.

(** ** Vocabulary of the statements *)

Definition is_corr_table (e : event) : bool :=
  match e with StCorrTable _ => true | _ => false end.
Definition is_chart (e : event) : bool :=
  match e with StPlotlyChart _ _ => true | _ => false end.


(** The nine fields of a populated statistics record, in order. *)
Definition STAT_FIELDS : list string :=
  ["Start Date"; "End Date"; "Years"; "CAGR (%)"; "Max Drawdown (%)"; "Volatility (%)";
   "Skewness"; "Excess Kurtosis"; "Cumulative Return (%)"].

(** [m] is the earliest date of a series. *)
Definition is_min_date (m : date) (data : DataFrame) : Prop :=
  In m (index data) /\ forall d, In d (index data) -> m <= d.

(** [c] is the latest of the earliest dates of the series of a dataset. *)
Definition is_latest_start (c : date) (data_dict : TickerDataset) : Prop :=
  (exists ticker data, In (ticker, data) data_dict /\ is_min_date c data) /\
  (forall ticker data m, In (ticker, data) data_dict -> is_min_date m data -> m <= c).

(** The latest start over the series that have one. *)
Definition latest_start (data_dict : TickerDataset) : Datatypes.option date :=
  match somes (map (fun item => index_min (snd item)) data_dict) with
  | [] => None
  | m :: ms => Some (fold_left Z.max ms m)
  end.

(** The window of an alignment option, in the words of the specification:
    from the latest start on; between the two custom dates; everything. *)
Definition policy_window (data_dict : TickerDataset) (option : string)
    (custom_start_date custom_end_date : Datatypes.option date) (d : date) : bool :=
  if String.eqb option EARLIEST_COMMON then
    match latest_start data_dict with
    | Some c => c <=? d
    | None => false
    end
  else if String.eqb option CUSTOM_DATE then
    match custom_start_date, custom_end_date with
    | Some s, Some e => (s <=? d) && (d <=? e)
    | _, _ => true
    end
  else true.

(** A price series that never falls. *)
Fixpoint non_decreasing (prices : list Q) : Prop :=
  match prices with
  | [] => True
  | p :: rest =>
      match rest with
      | [] => True
      | q :: _ => (p <= q)%Q /\ non_decreasing rest
      end
  end.

(** ** Statements of the specification

    The claims that the code does not meet as they are worded, written as
    predicates on the code: each is refuted on an input, and proved where
    it holds. *)

Definition ALIGNMENT_EMPTY : string :=
  "Alignment error: All datasets are empty after alignment.".

(** A run that stops at the alignment: the only thing shown is the
    alignment error, and neither statistics nor a correlation matrix nor a
    chart is computed.  [option] is the choice of the radio button and the
    dataset is the one the acquisition returned. *)
Definition halts_on_empty_alignment `{Yahoo} `{NumLib} (text option : string)
    (custom_start_date custom_end_date : date) : Prop :=
  forall data_dict log0,
    tickers text <> [] ->
    run (fetch_stock_data (tickers text)) = (Ok (Some data_dict), log0) ->
    data_dict <> [] ->
    Forall (fun item =>
              df_empty (select_rows
                          (policy_window data_dict option
                             (Some custom_start_date) (Some custom_end_date))
                          (snd item)) = true) data_dict ->
    run (app text option custom_start_date custom_end_date)
    = (Ok tt, [StError ALIGNMENT_EMPTY]).


(** A ticker in normal form: not empty, without blanks at either end, and
    without lower-case letters. *)
Definition normalized (t : string) : Prop :=
  t <> "" /\ strip t = t /\ upper t = t.

(** The ticker list as the specification describes it. *)
Definition normalized_and_deduplicated (text : string) : Prop :=
  Forall normalized (tickers text) /\ NoDup (tickers text).

(** The diagonal of the correlation matrix as the specification states it:
    exactly 1 for a ticker with at least 2 return observations. *)
Definition unit_diagonal (data_dict : TickerDataset) (sorted_tickers : list string) : Prop :=
  forall m log log' ticker returns,
    calculate_correlation_table data_dict sorted_tickers log = (Ok m, log') ->
    In ticker sorted_tickers ->
    dict_get ticker (daily_returns_frame data_dict) = Some returns ->
    (2 <= List.length returns)%nat ->
    entry m ticker ticker = Some (Some 1%R).

(** ** Auxiliary definitions of the proofs *)

(** The drawdowns of the prices that follow a running maximum [m]. *)
Definition drawdowns_from (m : Q) (l : list Q) : list Q :=
  map (fun pm => ((fst pm - snd pm) / snd pm)%Q) (combine l (cummax_from m l)).

(** A string without a leading blank. *)
Definition starts_clean (s : string) : Prop :=
  match s with
  | EmptyString => True
  | String c _ => isspace c = false
  end.

(** The cell that [calculate_correlation_table] puts at two labels. *)
Definition correlation_cell (cols : list (string * Series)) (sr sc : Series) : cell :=
  option_map Rround4 (pearson (complete_pairs (union_index cols) sr sc)).

(** Sums over a list of pairs of deviations. *)
Definition sum_xy (l : list (R * R)) : R := Rsum (map (fun p => (fst p * snd p)%R) l).
Definition sum_xx (l : list (R * R)) : R := Rsum (map (fun p => (fst p * fst p)%R) l).
Definition sum_yy (l : list (R * R)) : R := Rsum (map (fun p => (snd p * snd p)%R) l).

(** The deviations of the two coordinates of the pairs from their means. *)
Definition deviations (ps : list (Q * Q)) : list (R * R) :=
  map (fun p => ((Q2R (fst p) - mean (map (fun p => Q2R (fst p)) ps))%R,
                 (Q2R (snd p) - mean (map (fun p => Q2R (snd p)) ps))%R)) ps.

Definition swap {A B} (p : A * B) : B * A := (snd p, fst p).

(** ** Sample inputs *)

(** A numeric library to run the script on examples; the statements that
    use it do not depend on the numbers it returns. *)
Definition sample_numlib : NumLib :=
  {| fpow := fun x _ => x; skew := fun _ => 0%Q; kurtosis := fun _ => 0%Q;
     std := fun _ => 0%Q; sqrt252 := (127 # 8)%Q |}.

(** A download of one ticker whose only row has a missing price. *)
Definition yahoo_nan_row : Yahoo :=
  {| yf_download := fun _ => DlFlat (mkRaw ["Adj Close"] [(1, [None])]);
     yf_info := fun _ => Ok None |}.

(** Collaborators that are not reached by the run under study. *)
Definition yahoo_silent : Yahoo :=
  {| yf_download := fun _ => DlGrouped []; yf_info := fun _ => Ok None |}.

(** A download of two tickers, as recent yfinance releases return it: the
    prices are adjusted and there is no ['Adj Close'] column. *)
Definition yahoo_close_only : Yahoo :=
  {| yf_download := fun _ =>
       DlGrouped
         [("AAPL", mkRaw ["Close"] [(1, [Some 10%Q]); (2, [Some 11%Q]); (3, [Some 12%Q])]);
          ("MSFT", mkRaw ["Close"] [(1, [Some 20%Q]); (2, [Some 19%Q]); (3, [Some 21%Q])])];
     yf_info := fun _ => Ok None |}.

(** Three daily bars of one ticker and a single bar of another. *)
Definition three_bars : DataFrame :=
  mkDF ["Adj Close"] [(1, [10%Q]); (2, [11%Q]); (3, [12%Q])].
Definition one_bar : DataFrame := mkDF ["Adj Close"] [(3, [50%Q])].

(** A ticker whose price does not move, next to one that rises. *)
Definition flat_and_rising : TickerDataset :=
  [("FLAT", mkDF ["Adj Close"] [(1, [5%Q]); (2, [5%Q]); (3, [5%Q])]);
   ("UP", mkDF ["Adj Close"] [(1, [1%Q]); (2, [2%Q]); (3, [3%Q])])].

(** A dataset whose first ticker has no row left after [dropna()]. *)
Definition empty_then_dated : TickerDataset :=
  [("ZZZZ", mkDF ["Close"] []);
   ("AAPL", mkDF ["Close"] [(1, [10%Q]); (2, [11%Q]); (3, [12%Q])])].

(** ** Vocabulary of the further properties *)

(** The distinct items of a list, in the order of their first occurrence:
    the keys of a dict filled by a loop over the list. *)
Definition first_occurrences (l : list string) : list string :=
  fold_left (fun acc t => if mem t acc then acc else acc ++ [t]) l [].

(** The message of [fetch_stock_data] for an exception. *)
Definition fetch_error (tickers : list string) (e : exn) : string :=
  ("Error fetching data for tickers: " ++ list_repr tickers ++ ": " ++ exn_str e)%string.

(** The message of [fetch_stock_data] for an empty download. *)
Definition no_data_error (tickers : list string) : string :=
  ("No data found for tickers: " ++ join ", " tickers)%string.

(** Collaborators whose download fails. *)
Definition yahoo_offline : Yahoo :=
  {| yf_download := fun _ => DlRaises (OtherError "connection timed out");
     yf_info := fun _ => Raise (OtherError "connection timed out") |}.

Definition RETURN_FIELD : string := "Cumulative Return (%)".

(** The ranking key of a ticker: the number that its record holds under
    ["Cumulative Return (%)"]. *)
Definition return_key (stats_dict : list (string * StatsRecord)) (t : string)
  : Datatypes.option Q :=
  match dict_get t stats_dict with
  | Some record =>
      match dict_get RETURN_FIELD record with
      | Some (VNum q) => Some q
      | _ => None
      end
  | None => None
  end.

(** The tickers whose key equals [q]. *)
Definition has_return (stats_dict : list (string * StatsRecord)) (q : Q) (t : string) : bool :=
  match return_key stats_dict t with
  | Some q' => Qeq_bool q' q
  | None => false
  end.

(** [a] is ranked before [b]: the key of [b] is not larger. *)
Definition ranks_before (stats_dict : list (string * StatsRecord)) (a b : string) : Prop :=
  exists qa qb,
    return_key stats_dict a = Some qa /\ return_key stats_dict b = Some qb /\ (qb <= qa)%Q.

(** Three records with the cumulative returns 5, 20 and 5. *)
Definition sample_stats : list (string * StatsRecord) :=
  [("A", [(RETURN_FIELD, VNum 5)]); ("B", [(RETURN_FIELD, VNum 20)]);
   ("C", [(RETURN_FIELD, VNum 5)])].

(** A series that the correlation can use: its frame has ['Adj Close']. *)
Definition has_adj_close (data_dict : TickerDataset) (ticker : string) : Prop :=
  exists data, In (ticker, data) data_dict /\ mem "Adj Close" (columns data) = true.

(** The description that [fetch_ticker_info] stores for a ticker. *)
Definition description `{Yahoo} (ticker : string) : string :=
  match yf_info ticker with
  | Ok (Some long_name) => long_name
  | Ok None => "No description available"
  | Raise e => ("Error fetching data: " ++ exn_str e)%string
  end.

(** All the dates of a dataset. *)
Definition all_dates (data_dict : TickerDataset) : list date :=
  flat_map (fun item => index (snd item)) data_dict.

(** [lo] and [hi] are the earliest and the latest date of a dataset. *)
Definition spans (data_dict : TickerDataset) (lo hi : date) : Prop :=
  In lo (all_dates data_dict) /\ In hi (all_dates data_dict) /\
  forall d, In d (all_dates data_dict) -> lo <= d <= hi.

(** What the chart needs of a ranked ticker: its frame with the cumulative
    returns and its record with the total. *)
Definition chartable (data_dict : TickerDataset) (stats_dict : list (string * StatsRecord))
    (ticker : string) : Prop :=
  exists data y record total,
    dict_get ticker data_dict = Some data /\
    column "Cumulative Return" data = Some y /\
    dict_get ticker stats_dict = Some record /\
    dict_get RETURN_FIELD record = Some total.

(** The trace of a ranked ticker: its name, its total and its series. *)
Definition is_trace (data_dict : TickerDataset) (stats_dict : list (string * StatsRecord))
    (ticker : string) (trace : string * value * Series) : Prop :=
  exists data record,
    dict_get ticker data_dict = Some data /\
    dict_get ticker stats_dict = Some record /\
    fst (fst trace) = ticker /\
    dict_get RETURN_FIELD record = Some (snd (fst trace)) /\
    column "Cumulative Return" data = Some (snd trace).

(** Every row of the frame has one cell per column. *)
Definition wf_frame (data : DataFrame) : Prop :=
  Forall (fun r => List.length (snd r) = List.length (columns data)) (rows data).

(** A series on which every step of the analysis is defined: rectangular,
    with an ['Adj Close'] column without a zero, at least 3 rows, and a
    first date that is not the last. *)
Definition analyzable (data : DataFrame) : Prop :=
  wf_frame data /\
  (3 <= df_len data)%nat /\
  index_min data <> index_max data /\
  exists prices,
    column "Adj Close" data = Some prices /\
    Forall (fun p => ~ (p == 0)%Q) (values prices).

(** A record with its nine fields and a numeric cumulative return. *)
Definition populated (record : StatsRecord) : Prop :=
  keys record = STAT_FIELDS /\ exists q, dict_get RETURN_FIELD record = Some (VNum q).

(** A frame after the statistics loop went over it. *)
Definition annotated (data : DataFrame) : Prop :=
  rows data <> [] /\
  column "Cumulative Return" data <> None /\
  mem "Adj Close" (columns data) = true.

Definition two_risers : TickerDataset :=
  [("UP", mkDF ["Adj Close"] [(1, [10%Q]); (2, [11%Q]); (3, [13%Q])]);
   ("DOWN", mkDF ["Adj Close"] [(1, [20%Q]); (2, [19%Q]); (3, [21%Q])])].

(** ** A symbol that does not exist, and the growth rate *)

(** A download of two symbols of which one does not exist: the grouped
    frame has its column, filled with NaN on every date of the index. *)
Definition yahoo_dead_ticker : Yahoo :=
  {| yf_download := fun _ =>
       DlGrouped
         [("DEAD", mkRaw ["Adj Close"] [(1, [None]); (2, [None]); (3, [None])]);
          ("AAPL", mkRaw ["Adj Close"] [(1, [Some 10%Q]); (2, [Some 11%Q]); (3, [Some 12%Q])])];
     yf_info := fun _ => Ok None |}.

(** The frame that [dropna] leaves of the dead symbol. *)
Definition no_bars : DataFrame := mkDF ["Adj Close"] [].

(** Line 74: the span of a series in years. *)
Definition span_years (start_date end_date : date) : Q :=
  (inject_Z (end_date - start_date) / DAYS_PER_YEAR)%Q.

(** The library power is within [delta] of the real power at one point. *)
Definition pow_within `{NumLib} (delta : R) (base exponent : Q) : Prop :=
  (Rpower (Q2R base) (Q2R exponent) - delta
   <= Q2R (fpow base exponent)
   <= Rpower (Q2R base) (Q2R exponent) + delta)%R.

(** The round trip of the growth rate as the specification states it
    before the rounding: the ["CAGR (%)"] field of a record is the
    4-decimal rounding of a computed rate, a machine number, that taken to
    the power of the years gives back the final value plus 1 exactly. *)
Definition cagr_round_trips_exactly `{NumLib} (data : DataFrame) (price_column : string)
  : Prop :=
  forall record log log' start_date end_date cumulative final_value,
    calculate_statistics data price_column log = (Ok record, log') ->
    record <> [] ->
    index_min data = Some start_date ->
    index_max data = Some end_date ->
    column "Cumulative Return" data = Some cumulative ->
    hd_error (rev (values cumulative)) = Some final_value ->
    (-1 < final_value)%Q ->
    exists computed : Q,
      dict_get "CAGR (%)" record = Some (VNum (round4 (computed * 100))) /\
      Rpower (1 + Q2R computed) (Q2R (span_years start_date end_date))
      = (Q2R final_value + 1)%R.

(** A price that doubles in four years (1461 days). *)
Definition doubles_in_four_years : DataFrame :=
  mkDF ["Adj Close"; "Cumulative Return"]
       [(0, [1%Q; 0%Q]); (730, [(3 # 2)%Q; (1 # 2)%Q]); (1461, [2%Q; 1%Q])].

(** A library whose power gives the fourth root of 2 to nine decimals, the
    one value that the doubling series asks for. *)
Definition nine_digit_numlib : NumLib :=
  {| fpow := fun base _ => if Qeq_bool base 2 then (1189207115 # 1000000000)%Q else base;
     skew := fun _ => 0%Q; kurtosis := fun _ => 0%Q;
     std := fun _ => 0%Q; sqrt252 := (127 # 8)%Q |}.

(** * Properties *)

(** Linear arithmetic over the rationals and over the reals. *)
Ltac qlra := Lqa.lra.
Ltac rlra := Lra.lra.

(** The dates of a concrete series are pairwise distinct. *)
Ltac distinct_dates :=
  repeat constructor; simpl; intuition discriminate.

(** ** Dates *)

Lemma fold_left_min_spec (l : list Z) (a : Z) :
  In (fold_left Z.min l a) (a :: l) /\ forall x, In x (a :: l) -> fold_left Z.min l a <= x.
Proof.
  revert a; induction l as [|y l IH]; intros a; simpl.
  - split; [now left | intros x [<- | []]; lia].
  - destruct (IH (Z.min a y)) as [Hin Hle]. split.
    + destruct Hin as [Heq | Hin]; [| now right; right].
      rewrite <- Heq. destruct (Z.min_spec a y) as [[_ ->] | [_ ->]]; [now left | now right; left].
    + intros x Hx.
      assert (Hm : fold_left Z.min l (Z.min a y) <= Z.min a y) by (apply Hle; now left).
      destruct Hx as [<- | [<- | Hx]]; [lia | lia |].
      apply Hle. now right.
Qed.

Lemma fold_left_max_spec (l : list Z) (a : Z) :
  In (fold_left Z.max l a) (a :: l) /\ forall x, In x (a :: l) -> x <= fold_left Z.max l a.
Proof.
  revert a; induction l as [|y l IH]; intros a; simpl.
  - split; [now left | intros x [<- | []]; lia].
  - destruct (IH (Z.max a y)) as [Hin Hle]. split.
    + destruct Hin as [Heq | Hin]; [| now right; right].
      rewrite <- Heq. destruct (Z.max_spec a y) as [[_ ->] | [_ ->]]; [now right; left | now left].
    + intros x Hx.
      assert (Hm : Z.max a y <= fold_left Z.max l (Z.max a y)) by (apply Hle; now left).
      destruct Hx as [<- | [<- | Hx]]; [lia | lia |].
      apply Hle. now right.
Qed.

Lemma index_min_is_min (data : DataFrame) :
  rows data <> [] -> exists m, index_min data = Some m /\ is_min_date m data.
Proof.
  intros Hne. unfold index_min, is_min_date, index.
  destruct (rows data) as [|r rs]; [congruence |]. simpl.
  eexists; split; [reflexivity |].
  exact (fold_left_min_spec (map fst rs) (fst r)).
Qed.

Lemma index_min_some (data : DataFrame) (m : date) :
  index_min data = Some m -> is_min_date m data.
Proof.
  unfold index_min, is_min_date. destruct (index data) as [|d ds]; [discriminate |].
  intros [= <-]. apply fold_left_min_spec.
Qed.

Lemma is_min_date_unique (data : DataFrame) (m m' : date) :
  is_min_date m data -> is_min_date m' data -> m = m'.
Proof.
  intros [Hin Hle] [Hin' Hle']. specialize (Hle _ Hin'). specialize (Hle' _ Hin). lia.
Qed.

(** The builtin [max] computes the largest of the timestamps that are not
    NaT, as soon as its first item is a timestamp. *)
Lemma max_from_somes (l : list (Datatypes.option date)) (c : date) :
  max_from (Some c) l = Some (fold_left Z.max (somes l) c).
Proof.
  revert c; induction l as [|[y|] l IH]; intros c; simpl; [reflexivity | | apply IH].
  destruct (Z.ltb_spec c y).
  - rewrite IH. now rewrite Z.max_r by lia.
  - rewrite IH. now rewrite Z.max_l by lia.
Qed.

Lemma max_from_nat (l : list (Datatypes.option date)) : max_from None l = None.
Proof.
  induction l as [|x l IH]; simpl; [reflexivity |].
  now destruct x.
Qed.

Lemma run_common_start_date (data_dict : TickerDataset) (log : list event) :
  data_dict <> [] ->
  exists c, common_start_date data_dict log = (Ok c, log) /\
            (c = None \/ c = latest_start data_dict).
Proof.
  intros Hne. destruct data_dict as [|item rest]; [congruence |].
  unfold common_start_date, latest_start, py_max, ret. simpl.
  destruct (index_min (snd item)) as [m|].
  - eexists; split; [reflexivity |]. right. simpl. apply max_from_somes.
  - eexists; split; [reflexivity |]. left. apply max_from_nat.
Qed.

(** ** Alignment *)

Lemma select_rows_all (data : DataFrame) : select_rows (fun _ => true) data = data.
Proof.
  destruct data as [cols rws]. unfold select_rows. simpl. f_equal.
  induction rws as [|r rws IH]; simpl; [reflexivity | now rewrite IH].
Qed.

Lemma select_rows_ext (f g : date -> bool) (data : DataFrame) :
  (forall x, f x = g x) -> select_rows f data = select_rows g data.
Proof.
  intros Hfg. unfold select_rows. f_equal. apply filter_ext. intros r. apply Hfg.
Qed.

Lemma map_select_all (d : TickerDataset) :
  map (fun item => (fst item, select_rows (fun _ => true) (snd item))) d = d.
Proof.
  induction d as [|[t data] d IH]; simpl; [reflexivity |].
  now rewrite select_rows_all, IH.
Qed.

Lemma drop_empty_none (d : TickerDataset) (mask : date -> bool) :
  (forall x, mask x = false) ->
  drop_empty (map (fun item => (fst item, select_rows mask (snd item))) d) = [].
Proof.
  intros Hm. induction d as [|[t data] d IH]; simpl; [reflexivity |].
  unfold df_empty at 1. simpl.
  replace (filter (fun r => mask (fst r)) (rows data)) with (@nil (date * list Q)).
  - simpl. exact IH.
  - symmetry. induction (rows data) as [|r rs IHr]; simpl; [reflexivity |].
    now rewrite Hm.
Qed.

(** What the trimming of lines 50-57 does: it fails only on the empty
    dictionary under the earliest-common-date option; otherwise it filters
    the rows of every series by one mask on dates, which is the window of
    the option, or rejects every date when the common start is NaT. *)
Lemma trim_stock_data_spec (d : TickerDataset) (option : string)
    (cs ce : Datatypes.option date) (log : list event) :
  (d = [] /\ option = EARLIEST_COMMON /\
   trim_stock_data d option cs ce log
   = (Raise (ValueError "max() arg is an empty sequence"), log)) \/
  (exists mask,
      trim_stock_data d option cs ce log
      = (Ok (map (fun item => (fst item, select_rows mask (snd item))) d), log) /\
      ((forall x, mask x = false) \/ (forall x, mask x = policy_window d option cs ce x))).
Proof.
  unfold trim_stock_data, policy_window.
  destruct (String.eqb_spec option EARLIEST_COMMON) as [He | He].
  - destruct d as [|item rest].
    + left. now repeat split.
    + right. destruct (run_common_start_date (item :: rest) log) as [c [Hc Hcase]]; [discriminate |].
      exists (common_mask c). unfold bind. rewrite Hc. split; [reflexivity |].
      destruct Hcase as [-> | ->]; [now left |].
      right. intros x. unfold common_mask, ts_ge.
      now destruct (latest_start (item :: rest)).
  - right. destruct (String.eqb_spec option CUSTOM_DATE) as [Hc | Hc].
    + destruct cs as [s|], ce as [e|]; simpl.
      * exists (custom_mask (Some s) (Some e)). split; [reflexivity |]. now right.
      * exists (fun _ => true). rewrite map_select_all. split; [reflexivity | now right].
      * exists (fun _ => true). rewrite map_select_all. split; [reflexivity | now right].
      * exists (fun _ => true). rewrite map_select_all. split; [reflexivity | now right].
    + simpl. exists (fun _ => true). rewrite map_select_all. split; [reflexivity | now right].
Qed.

(** [align_stock_data] never raises: a [ValueError] becomes a message and
    the empty dictionary. *)
Lemma align_stock_data_spec (d : TickerDataset) (option : string)
    (cs ce : Datatypes.option date) (log : list event) :
  (exists msg, align_stock_data d option cs ce log = (Ok [], log ++ [StError msg])) \/
  (exists mask,
      drop_empty (map (fun item => (fst item, select_rows mask (snd item))) d) <> [] /\
      align_stock_data d option cs ce log
      = (Ok (drop_empty (map (fun item => (fst item, select_rows mask (snd item))) d)), log) /\
      (forall x, mask x = policy_window d option cs ce x)).
Proof.
  unfold align_stock_data, try_except, bind.
  destruct (trim_stock_data_spec d option cs ce log)
    as [[_ [_ ->]] | [mask [-> Hmask]]].
  - left. eexists. reflexivity.
  - destruct Hmask as [Hnone | Hwin].
    + left. rewrite (drop_empty_none d mask Hnone). eexists. reflexivity.
    + destruct (drop_empty (map (fun item => (fst item, select_rows mask (snd item))) d))
        as [|item rest] eqn:Hd.
      * left. eexists. reflexivity.
      * right. exists mask. rewrite Hd. repeat split; [discriminate | exact Hwin].
Qed.

Lemma in_drop_empty_trim (d : TickerDataset) (mask : date -> bool) (t : string)
    (data' : DataFrame) :
  In (t, data') (drop_empty (map (fun item => (fst item, select_rows mask (snd item))) d)) <->
  exists data, In (t, data) d /\ data' = select_rows mask data /\ df_empty data' = false.
Proof.
  unfold drop_empty. rewrite filter_In, in_map_iff. simpl. split.
  - intros [[[t0 data] [Heq Hin]] Hne]. simpl in Heq. injection Heq as <- <-.
    exists data. repeat split; [exact Hin |]. now apply negb_true_iff.
  - intros [data [Hin [-> Hne]]]. split.
    + exists (t, data). now split.
    + now apply negb_true_iff.
Qed.

(** C10.  Frame property of the alignment: for every option and dataset the
    call returns normally, the tickers of the result are tickers of the
    input, and every series of the result has the columns of the input
    series of that ticker and exactly those of its rows, in their order,
    whose date lies in the window of the option. *)
Theorem alignment_frame (data_dict : TickerDataset) (option : string)
    (custom_start_date custom_end_date : Datatypes.option date) (log : list event) :
  exists out log',
    align_stock_data data_dict option custom_start_date custom_end_date log = (Ok out, log') /\
    incl (keys out) (keys data_dict) /\
    forall ticker data',
      In (ticker, data') out ->
      exists data,
        In (ticker, data) data_dict /\
        columns data' = columns data /\
        rows data' =
          filter (fun r => policy_window data_dict option custom_start_date custom_end_date (fst r))
                 (rows data).
Proof.
  destruct (align_stock_data_spec data_dict option custom_start_date custom_end_date log)
    as [[msg ->] | [mask [_ [-> Hwin]]]].
  - exists [], (log ++ [StError msg]). split; [reflexivity |]. split.
    + intros x [].
    + intros ticker data' [].
  - eexists; eexists. split; [reflexivity |]. split.
    + intros k Hk. unfold keys in *. apply in_map_iff in Hk as [[t data'] [<- Hin]].
      apply in_drop_empty_trim in Hin as [data [Hin _]].
      apply in_map_iff. now exists (t, data).
    + intros ticker data' Hin.
      apply in_drop_empty_trim in Hin as [data [Hin [-> _]]].
      exists data. repeat split; [exact Hin |]. simpl.
      apply filter_ext. intros r. apply Hwin.
Qed.

Lemma in_somes {A} (x : A) (l : list (Datatypes.option A)) :
  In x (somes l) <-> In (Some x) l.
Proof.
  induction l as [|[y|] l IH]; simpl.
  - tauto.
  - rewrite IH. split; intros [Hy | Hin]; auto; left; congruence.
  - rewrite IH. split; [auto | intros [Hy | Hin]; [discriminate | exact Hin]].
Qed.

Lemma df_empty_false_rows (data : DataFrame) : df_empty data = false -> rows data <> [].
Proof. unfold df_empty. destruct (rows data); [discriminate | discriminate]. Qed.

Lemma latest_start_is_latest (d : TickerDataset) :
  d <> [] ->
  Forall (fun item => df_empty (snd item) = false) d ->
  exists c, latest_start d = Some c /\ is_latest_start c d.
Proof.
  intros Hne Hall. rewrite Forall_forall in Hall.
  assert (Hmin : forall t data, In (t, data) d ->
                                exists m, index_min data = Some m /\ is_min_date m data).
  { intros t data Hin. apply index_min_is_min, df_empty_false_rows.
    exact (Hall (t, data) Hin). }
  unfold latest_start.
  destruct (somes (map (fun item => index_min (snd item)) d)) as [|m ms] eqn:Hs.
  - destruct d as [|[t data] rest]; [congruence |].
    destruct (Hmin t data (or_introl eq_refl)) as [m [Hm _]].
    simpl in Hs. rewrite Hm in Hs. discriminate.
  - exists (fold_left Z.max ms m). split; [reflexivity |].
    pose proof (fold_left_max_spec ms m) as Hspec. unfold date in *. rewrite <- Hs in Hspec.
    destruct Hspec as [Hmax Hub]. split.
    + apply in_somes, in_map_iff in Hmax as [[t data] [Heq Hin]].
      exists t, data. split; [exact Hin |]. now apply index_min_some.
    + intros t data m' Hin Hm'.
      destruct (Hmin t data Hin) as [m'' [Hm'' Hmin'']].
      rewrite (is_min_date_unique data m' m'' Hm' Hmin'').
      apply Hub, in_somes, in_map_iff. now exists (t, data).
Qed.

(** Earliest-common-date alignment when every series has a row: the
    common start the code computes is the latest of the earliest dates of
    the series; the call returns normally and silently;
    a series of the result has exactly the rows of the input series of its
    ticker that are dated at or after the common start, and no date of the
    result is earlier than the common start. *)
Theorem earliest_common_alignment (data_dict : TickerDataset)
    (custom_start_date custom_end_date : Datatypes.option date) (log : list event) :
  data_dict <> [] ->
  Forall (fun item => df_empty (snd item) = false) data_dict ->
  exists c out,
    common_start_date data_dict log = (Ok (Some c), log) /\
    is_latest_start c data_dict /\
    align_stock_data data_dict EARLIEST_COMMON custom_start_date custom_end_date log
    = (Ok out, log) /\
    out <> [] /\
    (forall ticker data',
        In (ticker, data') out ->
        exists data,
          In (ticker, data) data_dict /\
          columns data' = columns data /\
          rows data' = filter (fun r => c <=? fst r) (rows data)) /\
    (forall ticker data' d, In (ticker, data') out -> In d (index data') -> c <= d).
Proof.
  intros Hne Hall.
  destruct (latest_start_is_latest data_dict Hne Hall) as [c [Hc Hlatest]].
  assert (Hstart : common_start_date data_dict log = (Ok (Some c), log)).
  { destruct data_dict as [|[t data] rest]; [congruence |].
    inversion Hall as [|? ? Hhd _]; subst. simpl in Hhd.
    destruct (index_min_is_min data (df_empty_false_rows data Hhd)) as [m [Hm _]].
    unfold common_start_date, py_max, ret. simpl. rewrite Hm, max_from_somes.
    unfold latest_start in Hc. simpl in Hc. rewrite Hm in Hc. simpl in Hc.
    now rewrite <- Hc. }
  set (out := drop_empty
                (map (fun item => (fst item, select_rows (common_mask (Some c)) (snd item)))
                     data_dict)).
  assert (Hout : out <> []).
  { destruct Hlatest as [[t [data [Hin [Hc_in _]]]] _].
    assert (Hsurv : In (t, select_rows (common_mask (Some c)) data) out).
    { apply in_drop_empty_trim. exists data. repeat split; [exact Hin |].
      rewrite Forall_forall in Hall. specialize (Hall (t, data) Hin). simpl in Hall.
      unfold index in Hc_in. apply in_map_iff in Hc_in as [r [Hr Hrin]].
      assert (Hkeep : In r (filter (fun r => common_mask (Some c) (fst r)) (rows data))).
      { apply filter_In. split; [exact Hrin |]. rewrite Hr.
        unfold common_mask, ts_ge. apply Z.leb_refl. }
      unfold df_empty in *. simpl.
      destruct (filter (fun r => common_mask (Some c) (fst r)) (rows data)); [destruct Hkeep |].
      destruct (rows data); [destruct Hrin |]. exact Hall. }
    intros Heq. rewrite Heq in Hsurv. destruct Hsurv. }
  exists c, out. split; [exact Hstart |]. split; [exact Hlatest |]. split.
  - unfold align_stock_data, trim_stock_data, try_except, bind.
    rewrite String.eqb_refl, Hstart. unfold ret. fold out. destruct out; [congruence | reflexivity].
  - split; [exact Hout |]. split.
    + intros ticker data' Hin. apply in_drop_empty_trim in Hin as [data [Hin [-> _]]].
      exists data. repeat split. exact Hin.
    + intros ticker data' d Hin Hd. apply in_drop_empty_trim in Hin as [data [_ [-> _]]].
      unfold index, select_rows in Hd. simpl in Hd.
      apply in_map_iff in Hd as [r [<- Hr]]. apply filter_In in Hr as [_ Hr].
      unfold common_mask, ts_ge in Hr. now apply Z.leb_le.
Qed.

Lemma earliest_common_alignment_witness :
  exists c out,
    common_start_date
      [("A", mkDF ["Close"] [(1, [10%Q]); (2, [11%Q]); (3, [12%Q])]);
       ("B", mkDF ["Close"] [(2, [5%Q]); (3, [6%Q])])] [] = (Ok (Some c), []) /\
    c = 2 /\
    align_stock_data
      [("A", mkDF ["Close"] [(1, [10%Q]); (2, [11%Q]); (3, [12%Q])]);
       ("B", mkDF ["Close"] [(2, [5%Q]); (3, [6%Q])])] EARLIEST_COMMON None None []
    = (Ok out, []) /\
    out = [("A", mkDF ["Close"] [(2, [11%Q]); (3, [12%Q])]);
           ("B", mkDF ["Close"] [(2, [5%Q]); (3, [6%Q])])].
Proof.
  destruct (earliest_common_alignment
              [("A", mkDF ["Close"] [(1, [10%Q]); (2, [11%Q]); (3, [12%Q])]);
               ("B", mkDF ["Close"] [(2, [5%Q]); (3, [6%Q])])] None None [])
    as [c [out [Hc [_ [Hout _]]]]].
  - discriminate.
  - repeat constructor.
  - exists c, out. split; [exact Hc |].
    vm_compute in Hc. injection Hc as <-.
    split; [reflexivity |]. split; [exact Hout |].
    vm_compute in Hout. now injection Hout as <-.
Defined.

(** A ticker without any row has no earliest date.  When it comes first,
    the builtin [max] keeps its NaT, every row of every series fails the
    comparison with NaT, and the alignment reports that all datasets are
    empty. *)
Example common_start_nat_first :
  run (common_start_date empty_then_dated) = (Ok None, []) /\
  run (align_stock_data empty_then_dated EARLIEST_COMMON None None)
  = (Ok [], [StError ALIGNMENT_EMPTY]).
Proof. split; reflexivity. Qed.

(** ** The common start and the order of the tickers *)

(** When the first series has no row, the builtin [max] of line 51 keeps
    its NaT, the mask of line 52 is false on every date, and the alignment
    reports that all datasets are empty, whatever the other series hold. *)
Lemma nat_first_drops_every_series (ticker : string) (data : DataFrame)
    (rest : TickerDataset) (custom_start_date custom_end_date : Datatypes.option date)
    (log : list event) :
  rows data = [] ->
  common_start_date ((ticker, data) :: rest) log = (Ok None, log) /\
  align_stock_data ((ticker, data) :: rest) EARLIEST_COMMON custom_start_date custom_end_date log
  = (Ok [], log ++ [StError ALIGNMENT_EMPTY]).
Proof.
  intros Hrows.
  assert (Hmin : index_min data = None) by (unfold index_min, index; now rewrite Hrows).
  assert (Hmax : forall l, max_from None l = None).
  { induction l as [|x l IH]; simpl; [reflexivity |]. now destruct x. }
  assert (Hstart : common_start_date ((ticker, data) :: rest) log = (Ok None, log)).
  { unfold common_start_date. simpl. rewrite Hmin. unfold ret. now rewrite Hmax. }
  split; [exact Hstart |].
  unfold align_stock_data, try_except, trim_stock_data.
  rewrite String.eqb_refl. unfold bind at 1. unfold bind at 1. rewrite Hstart.
  unfold ret at 1. rewrite (drop_empty_none _ (common_mask None)); [reflexivity |].
  intros x. reflexivity.
Qed.

(** C2.  The code computes the common start with the builtin [max] over
    [data.index.min()], and the minimum of a series without rows is NaT,
    with which every comparison is false.  A symbol that does not exist
    comes out of the download as such a series.  Typed first, it makes the
    common start NaT and the alignment drops every series; typed last, the
    same code finds the common start of the claim and keeps the rows of
    the other ticker. *)
Theorem dead_ticker_first_empties_alignment (numlib : NumLib) :
  run (@fetch_stock_data yahoo_dead_ticker ["DEAD"; "AAPL"])
  = (Ok (Some [("DEAD", no_bars); ("AAPL", three_bars)]), []) /\
  run (common_start_date [("DEAD", no_bars); ("AAPL", three_bars)]) = (Ok None, []) /\
  run (align_stock_data [("DEAD", no_bars); ("AAPL", three_bars)] EARLIEST_COMMON None None)
  = (Ok [], [StError ALIGNMENT_EMPTY]) /\
  run (@app yahoo_dead_ticker numlib "dead, aapl" EARLIEST_COMMON 0 0)
  = (Ok tt, [StError ALIGNMENT_EMPTY]) /\
  run (common_start_date [("AAPL", three_bars); ("DEAD", no_bars)]) = (Ok (Some 1), []) /\
  run (align_stock_data [("AAPL", three_bars); ("DEAD", no_bars)] EARLIEST_COMMON None None)
  = (Ok [("AAPL", three_bars)], []).
Proof. repeat split; vm_compute; reflexivity. Qed.

Lemma drop_empty_all_empty (d : TickerDataset) :
  Forall (fun item => df_empty (snd item) = true) d -> drop_empty d = [].
Proof.
  induction 1 as [|item d Hitem _ IH]; simpl; [reflexivity |].
  now rewrite Hitem.
Qed.

(** When the window of the option leaves no series with a row, the call
    reports that all datasets are empty and returns the empty dictionary. *)
Lemma align_stock_data_all_empty (d : TickerDataset) (option : string)
    (cs ce : Datatypes.option date) (log : list event) :
  d <> [] ->
  Forall (fun item => df_empty (select_rows (policy_window d option cs ce) (snd item)) = true) d ->
  align_stock_data d option cs ce log = (Ok [], log ++ [StError ALIGNMENT_EMPTY]).
Proof.
  intros Hne Hall. unfold align_stock_data, try_except, bind.
  destruct (trim_stock_data_spec d option cs ce log)
    as [[Hd _] | [mask [-> Hmask]]]; [congruence |].
  destruct Hmask as [Hnone | Hwin].
  - now rewrite (drop_empty_none d mask Hnone).
  - rewrite drop_empty_all_empty; [reflexivity |].
    apply Forall_map. simpl. eapply Forall_impl; [| exact Hall].
    intros item Hitem. simpl in *.
    now rewrite (select_rows_ext mask (policy_window d option cs ce) (snd item) Hwin).
Qed.

Lemma fetch_stock_data_silent `{Yahoo} (tickers : list string) (d : TickerDataset)
    (log log' : list event) :
  fetch_stock_data tickers log = (Ok (Some d), log') -> log' = log.
Proof.
  unfold fetch_stock_data, try_except, bind, st_error, emit, ret, raise.
  destruct (yf_download tickers) as [e | data | groups].
  - discriminate.
  - destruct (raw_empty data); [discriminate |].
    unfold lift_opt. destruct (hd_error tickers); simpl; [| discriminate].
    now intros [= _ <-].
  - destruct (download_empty groups); [discriminate |].
    assert (Hloop : forall ts acc l,
               snd (for_each ts
                      (fun ticker acc0 =>
                         bind (dict_item ticker groups)
                              (fun sub => fun l0 => (Ok (dict_set ticker (dropna sub) acc0), l0)))
                      acc l) = l).
    { induction ts as [|t ts IH]; intros acc l; simpl; [reflexivity |].
      unfold bind at 1. unfold bind at 1. unfold dict_item, lift_opt.
      destruct (dict_get t groups); simpl; [apply IH | reflexivity]. }
    specialize (Hloop tickers [] log).
    destruct (for_each tickers _ [] log) as [[acc | e] l]; simpl in Hloop; subst l.
    + now intros [= _ <-].
    + discriminate.
Qed.

(** C3, as amended.  Whenever the chosen option is not "Analyze all data
    available" and the window of the option leaves no series of the
    downloaded dataset with a row, the run shows the alignment error and
    nothing else, and ends normally: no statistics, no correlation matrix
    and no chart are computed. *)
Theorem alignment_failure_halts `{Yahoo} `{NumLib} (text option : string)
    (custom_start_date custom_end_date : date) :
  option <> ALL_AVAILABLE ->
  halts_on_empty_alignment text option custom_start_date custom_end_date.
Proof.
  intros Hopt data_dict log0 Htick Hfetch Hne Hall.
  unfold run in *. pose proof (fetch_stock_data_silent _ _ _ _ Hfetch) as ->.
  unfold app. destruct (tickers text) as [|t ts] eqn:Ht; [congruence |].
  unfold bind at 1. rewrite Hfetch.
  destruct data_dict as [|item rest]; [congruence |].
  unfold bind at 1.
  destruct (String.eqb_spec option CUSTOM_DATE) as [Hc | Hc].
  - rewrite (align_stock_data_all_empty (item :: rest) option _ _ [] Hne Hall).
    reflexivity.
  - destruct (String.eqb_spec option ALL_AVAILABLE) as [Ha | Ha]; [congruence |].
    cbn [negb].
    rewrite (align_stock_data_all_empty (item :: rest) option None None [] Hne).
    + reflexivity.
    + eapply Forall_impl; [| exact Hall]. intros it Hit.
      rewrite <- Hit. f_equal. apply select_rows_ext. intros x.
      unfold policy_window. destruct (String.eqb option EARLIEST_COMMON); [reflexivity |].
      destruct (String.eqb_spec option CUSTOM_DATE); [congruence | reflexivity].
Qed.

Lemma alignment_failure_halts_witness :
  run (@app yahoo_close_only sample_numlib "aapl, msft" CUSTOM_DATE 7 9)
  = (Ok tt, [StError ALIGNMENT_EMPTY]).
Proof.
  refine (@alignment_failure_halts yahoo_close_only sample_numlib "aapl, msft" CUSTOM_DATE 7 9
            _ [("AAPL", mkDF ["Close"] [(1, [10%Q]); (2, [11%Q]); (3, [12%Q])]);
               ("MSFT", mkDF ["Close"] [(1, [20%Q]); (2, [19%Q]); (3, [21%Q])])] [] _ _ _ _).
  - discriminate.
  - discriminate.
  - reflexivity.
  - discriminate.
  - repeat constructor.
Defined.

(** C3 as stated fails for the option "Analyze all data available": the
    script does not call the alignment then.  On a download whose only row
    has a missing price the dataset holds one empty series; no alignment
    error is shown and the run goes on into the statistics loop, where it
    ends with an uncaught [IndexError]. *)
Lemma all_available_skips_alignment :
  ~ @halts_on_empty_alignment yahoo_nan_row sample_numlib "A" ALL_AVAILABLE 0 0.
Proof.
  intros Hclaim.
  specialize (Hclaim [("A", mkDF ["Adj Close"] [])] []).
  assert (Hrun : run (@app yahoo_nan_row sample_numlib "A" ALL_AVAILABLE 0 0)
                 = (Raise IndexError, [])) by reflexivity.
  rewrite Hrun in Hclaim.
  assert (Habs : (@Raise unit IndexError, @nil event) = (Ok tt, [StError ALIGNMENT_EMPTY])).
  { apply Hclaim.
    - discriminate.
    - reflexivity.
    - discriminate.
    - repeat constructor. }
  discriminate Habs.
Qed.

(** ** Maximum drawdown *)

Lemma fold_left_Qmin_le (l : list Q) (a : Q) :
  (fold_left Qmin l a <= a)%Q /\ Forall (fun x => (fold_left Qmin l a <= x)%Q) l.
Proof.
  revert a; induction l as [|y l IH]; intros a; simpl.
  - split; [apply Qle_refl | constructor].
  - destruct (IH (Qmin a y)) as [Hle Hall]. split.
    + eapply Qle_trans; [exact Hle | apply Q.le_min_l].
    + constructor; [| exact Hall].
      eapply Qle_trans; [exact Hle | apply Q.le_min_r].
Qed.

Lemma fold_left_Qmin_attained (l : list Q) (a : Q) :
  (fold_left Qmin l a == a)%Q \/ Exists (fun x => (fold_left Qmin l a == x)%Q) l.
Proof.
  revert a; induction l as [|y l IH]; intros a; simpl.
  - left. reflexivity.
  - destruct (IH (Qmin a y)) as [Heq | Hex].
    + destruct (Q.min_spec a y) as [[_ Hm] | [_ Hm]].
      * left. now rewrite Heq.
      * right. constructor. now rewrite Heq.
    + right. now constructor 2.
Qed.

Lemma drawdowns_from_cons (m p : Q) (l : list Q) :
  drawdowns_from m (p :: l) = ((p - Qmax m p) / Qmax m p)%Q :: drawdowns_from (Qmax m p) l.
Proof. reflexivity. Qed.

Lemma drawdown_nonpos (p m : Q) : (0 < m)%Q -> (p <= m)%Q -> ((p - m) / m <= 0)%Q.
Proof.
  intros Hm Hp. apply Qle_shift_div_r; [exact Hm |]. qlra.
Qed.

Lemma drawdown_zero_iff (p m : Q) : (0 < m)%Q -> ((p - m) / m == 0)%Q <-> (p == m)%Q.
Proof.
  intros Hm. split; intros H.
  - assert (Hne : ~ (m == 0)%Q) by qlra.
    pose proof (Qmult_div_r (p - m) m Hne) as Hmul.
    rewrite H in Hmul. qlra.
  - rewrite H. unfold Qdiv. qlra.
Qed.

Lemma drawdowns_from_nonpos (l : list Q) (m : Q) :
  (0 < m)%Q -> Forall (fun x => (x <= 0)%Q) (drawdowns_from m l).
Proof.
  revert m; induction l as [|p l IH]; intros m Hm; [constructor |].
  rewrite drawdowns_from_cons.
  assert (HM : (0 < Qmax m p)%Q) by (eapply Qlt_le_trans; [exact Hm | apply Q.le_max_l]).
  constructor; [| now apply IH].
  apply drawdown_nonpos; [exact HM | apply Q.le_max_r].
Qed.

Lemma non_decreasing_cons (m p : Q) (l : list Q) :
  non_decreasing (m :: p :: l) <-> (m <= p)%Q /\ non_decreasing (p :: l).
Proof. reflexivity. Qed.

Lemma non_decreasing_head (m m' : Q) (l : list Q) :
  (m == m')%Q -> non_decreasing (m :: l) <-> non_decreasing (m' :: l).
Proof.
  intros Heq. destruct l as [|p l]; [reflexivity |].
  rewrite !non_decreasing_cons. now rewrite Heq.
Qed.

Lemma drawdowns_from_zero_iff (l : list Q) (m : Q) :
  (0 < m)%Q ->
  Forall (fun x => (x == 0)%Q) (drawdowns_from m l) <-> non_decreasing (m :: l).
Proof.
  revert m; induction l as [|p l IH]; intros m Hm.
  - split; [intros _; exact I | constructor].
  - rewrite drawdowns_from_cons, non_decreasing_cons.
    assert (HM : (0 < Qmax m p)%Q) by (eapply Qlt_le_trans; [exact Hm | apply Q.le_max_l]).
    split.
    + intros Hall. inversion Hall as [|? ? Hhd Htl]; subst.
      apply (drawdown_zero_iff p (Qmax m p) HM) in Hhd.
      assert (Hmp : (m <= p)%Q) by (rewrite Hhd; apply Q.le_max_l).
      split; [exact Hmp |].
      apply (IH _ HM) in Htl.
      apply (non_decreasing_head (Qmax m p) p l); [now symmetry | exact Htl].
    + intros [Hmp Hnd].
      assert (Hmax : (Qmax m p == p)%Q) by now apply Q.max_r.
      constructor.
      * apply drawdown_zero_iff; [exact HM | now symmetry].
      * apply (IH _ HM). now apply (non_decreasing_head (Qmax m p) p l).
Qed.

(** C6.  For a price series of at least 2 strictly positive observations
    the maximum drawdown, the least of (price - running maximum) / running
    maximum, is at most 0, and it is 0 exactly when the series never falls. *)
Theorem max_drawdown_postcondition (prices : list Q) :
  (2 <= List.length prices)%nat ->
  Forall (fun p => (0 < p)%Q) prices ->
  (max_drawdown prices <= 0)%Q /\
  ((max_drawdown prices == 0)%Q <-> non_decreasing prices).
Proof.
  intros Hlen Hpos. destruct prices as [|p l]; [simpl in Hlen; lia |].
  inversion Hpos as [|? ? Hp Hl]; subst.
  unfold max_drawdown, drawdowns, cummax. simpl combine. simpl map.
  fold (drawdowns_from p l). unfold series_min.
  set (d0 := ((p - p) / p)%Q).
  assert (Hd0 : (d0 == 0)%Q) by (apply drawdown_zero_iff; [exact Hp | reflexivity]).
  destruct (fold_left_Qmin_le (drawdowns_from p l) d0) as [Hle0 Hleall].
  split; [now rewrite <- Hd0 |].
  rewrite <- (drawdowns_from_zero_iff l p Hp).
  pose proof (drawdowns_from_nonpos l p Hp) as Hnonpos.
  split.
  - intros Hmin. rewrite Forall_forall in *. intros x Hx.
    specialize (Hleall x Hx). specialize (Hnonpos x Hx). simpl in *.
    rewrite Hmin in Hleall. now apply Qle_antisym.
  - intros Hzero.
    destruct (fold_left_Qmin_attained (drawdowns_from p l) d0) as [Heq | Hex].
    + now rewrite Heq.
    + apply Exists_exists in Hex as [x [Hx Heq]].
      rewrite Forall_forall in Hzero. rewrite Heq. now apply Hzero.
Qed.

Lemma max_drawdown_postcondition_witness :
  (max_drawdown [100; 120; 90; 130] <= 0)%Q /\
  ((max_drawdown [100; 120; 90; 130] == 0)%Q <-> non_decreasing [100; 120; 90; 130]%Q).
Proof.
  apply (max_drawdown_postcondition [100; 120; 90; 130]%Q).
  - simpl. lia.
  - repeat constructor.
Defined.

(** ** Statistics of one ticker *)

(** The [try] block keeps the log as it is; when it returns a record that
    is not empty, both guards were passed and the nine fields are there. *)
Lemma statistics_body_cases `{NumLib} (data : DataFrame) (price_column : string)
    (log : list event) :
  snd (statistics_body data price_column log) = log /\
  forall record,
    fst (statistics_body data price_column log) = Ok record ->
    record = [] \/
    (keys record = STAT_FIELDS /\
     (2 <= df_len data)%nat /\
     exists prices,
       column price_column data = Some prices /\
       (2 <= List.length (dropna_series (pct_change prices)))%nat).
Proof.
  unfold statistics_body.
  destruct (Nat.ltb_spec (df_len data) 2) as [Hlen | Hlen].
  { split; [reflexivity |]. intros record [= <-]. now left. }
  unfold bind, lift_opt, ret, raise.
  destruct (index_min data) as [start_date|]; [| split; [reflexivity | discriminate]].
  destruct (index_max data) as [end_date|]; [| split; [reflexivity | discriminate]].
  destruct (column "Cumulative Return" data) as [cumulative|];
    [| split; [reflexivity | discriminate]].
  destruct (hd_error (rev (values cumulative))) as [final_value|];
    [| split; [reflexivity | discriminate]].
  destruct (Qeq_bool (inject_Z (end_date - start_date) / DAYS_PER_YEAR) 0);
    [split; [reflexivity | discriminate] |].
  destruct (column price_column data) as [prices|] eqn:Hprices;
    [| split; [reflexivity | discriminate]].
  destruct (Nat.ltb_spec (List.length (dropna_series (pct_change prices))) 2) as [Hret | Hret].
  { split; [reflexivity |]. intros record [= <-]. now left. }
  split; [reflexivity |]. intros record [= <-]. right.
  split; [reflexivity |]. split; [exact Hlen |].
  exists prices. now split.
Qed.

Lemma calculate_statistics_run `{NumLib} (data : DataFrame) (price_column : string)
    (log : list event) :
  calculate_statistics data price_column log =
  match statistics_body data price_column log with
  | (Ok record, log') => (Ok record, log')
  | (Raise e, log') =>
      (Ok [], log' ++ [StError ("Error calculating statistics: " ++ exn_str e)%string])
  end.
Proof.
  unfold calculate_statistics, try_except.
  destruct (statistics_body data price_column log) as [[record | e] log']; reflexivity.
Qed.

(** C8.  The statistics calculator always returns, with the empty record
    or with a record of the nine fields.  A record that is not empty is
    returned only for a series of at least 2 observations whose price
    column yields at least 2 daily returns; with fewer observations (a
    single one included) or fewer daily returns the record is empty. *)
Theorem statistics_presence_guard `{NumLib} (data : DataFrame) (price_column : string)
    (log : list event) :
  exists record log',
    calculate_statistics data price_column log = (Ok record, log') /\
    (record = [] \/ keys record = STAT_FIELDS) /\
    (record <> [] ->
     (2 <= df_len data)%nat /\
     exists prices,
       column price_column data = Some prices /\
       (2 <= List.length (dropna_series (pct_change prices)))%nat) /\
    ((df_len data < 2)%nat -> record = [] /\ log' = log) /\
    (forall prices,
        column price_column data = Some prices ->
        (List.length (dropna_series (pct_change prices)) < 2)%nat -> record = []).
Proof.
  rewrite calculate_statistics_run.
  destruct (statistics_body_cases data price_column log) as [Hlog Hcases].
  destruct (statistics_body data price_column log) as [[record | e] log'] eqn:Hbody;
    simpl in Hlog; subst log'.
  - exists record, log. specialize (Hcases record eq_refl). split; [reflexivity |].
    destruct Hcases as [-> | [Hkeys [Hlen [prices [Hcol Hret]]]]].
    + split; [now left |]. split; [congruence |]. split; [now split |]. reflexivity.
    + split; [now right |]. split.
      * intros _. split; [exact Hlen |]. now exists prices.
      * split; [lia |]. intros prices' Hcol'. rewrite Hcol in Hcol'.
        injection Hcol' as <-. lia.
  - eexists; eexists. split; [reflexivity |]. split; [now left |].
    split; [congruence |]. split; [| reflexivity].
    intros Hlen. exfalso. unfold statistics_body in Hbody.
    destruct (Nat.ltb_spec (df_len data) 2); [discriminate | lia].
Qed.

(** A single observation: the empty record, silently. *)
Example statistics_single_observation `{NumLib} :
  run (calculate_statistics (mkDF ["Close"; "Cumulative Return"] [(1, [50%Q; 0%Q])]) "Close")
  = (Ok [], []).
Proof. reflexivity. Qed.

(** ** The statistics loop *)

Lemma dict_get_set_same {V} (k : string) (v : V) (d : list (string * V)) :
  dict_get k (dict_set k v d) = Some v.
Proof.
  induction d as [|[k' v'] d IH]; simpl.
  - now rewrite String.eqb_refl.
  - destruct (String.eqb k k') eqn:Hk; simpl; rewrite Hk; [reflexivity | exact IH].
Qed.


Lemma mem_position (c : string) (cols : list string) :
  mem c cols = true -> exists i, position c cols = Some i.
Proof.
  induction cols as [|x cols IH]; simpl; [discriminate |].
  destruct (String.eqb c x); simpl; [now eexists |].
  intros Hmem. destruct (IH Hmem) as [i ->]. now eexists.
Qed.





(** The same run, spelled out: it raises at the ranking with an empty log. *)
Example empty_record_key_error :
  run (@analyze yahoo_silent sample_numlib [("A", three_bars); ("C", one_bar)])
  = (Raise (KeyError "Cumulative Return (%)"), []).
Proof. vm_compute. reflexivity. Qed.

(** ** Ticker input *)

Lemma isspace_upper_char (c : ascii) : isspace (upper_char c) = isspace c.
Proof. destruct c as [[] [] [] [] [] [] [] []]; reflexivity. Qed.

Lemma upper_char_idem (c : ascii) : upper_char (upper_char c) = upper_char c.
Proof. destruct c as [[] [] [] [] [] [] [] []]; reflexivity. Qed.

Lemma upper_idem (s : string) : upper (upper s) = upper s.
Proof.
  induction s as [|c s IH]; simpl; [reflexivity |].
  now rewrite upper_char_idem, IH.
Qed.

Lemma lstrip_upper (s : string) : lstrip (upper s) = upper (lstrip s).
Proof.
  induction s as [|c s IH]; simpl; [reflexivity |].
  rewrite isspace_upper_char. now destruct (isspace c).
Qed.

Lemma rstrip_upper (s : string) : rstrip (upper s) = upper (rstrip s).
Proof.
  induction s as [|c s IH]; simpl; [reflexivity |].
  rewrite IH. destruct (rstrip s) as [|a r]; simpl; [| reflexivity].
  rewrite isspace_upper_char. now destruct (isspace c).
Qed.

Lemma strip_upper (s : string) : strip (upper s) = upper (strip s).
Proof. unfold strip. now rewrite lstrip_upper, rstrip_upper. Qed.

Lemma rstrip_idem (s : string) : rstrip (rstrip s) = rstrip s.
Proof.
  induction s as [|c s IH]; simpl; [reflexivity |].
  destruct (rstrip s) as [|a r] eqn:Hr.
  - destruct (isspace c) eqn:Hc; simpl; [reflexivity | now rewrite Hc].
  - change (rstrip (String c (String a r))) with
      (match rstrip (String a r) with
       | EmptyString => if isspace c then EmptyString else String c EmptyString
       | String b r' => String c (String b r')
       end).
    now rewrite IH.
Qed.

Lemma lstrip_starts_clean (s : string) : starts_clean (lstrip s).
Proof.
  induction s as [|c s IH]; simpl; [exact I |].
  destruct (isspace c) eqn:Hc; [exact IH | exact Hc].
Qed.

Lemma lstrip_clean (s : string) : starts_clean s -> lstrip s = s.
Proof. destruct s as [|c s]; simpl; [reflexivity | now intros ->]. Qed.

Lemma rstrip_starts_clean (s : string) : starts_clean s -> starts_clean (rstrip s).
Proof.
  destruct s as [|c s]; simpl; [intros _; exact I |].
  intros Hc. destruct (rstrip s); [now rewrite Hc | exact Hc].
Qed.

Lemma strip_idem (s : string) : strip (strip s) = strip s.
Proof.
  unfold strip.
  rewrite (lstrip_clean (rstrip (lstrip s)));
    [apply rstrip_idem | apply rstrip_starts_clean, lstrip_starts_clean].
Qed.

Lemma upper_empty (s : string) : upper s = "" -> s = "".
Proof. destruct s; [reflexivity | discriminate]. Qed.

Lemma tickers_normalized (text : string) : Forall normalized (tickers text).
Proof.
  unfold tickers. apply Forall_map, Forall_forall. intros t Ht.
  apply filter_In in Ht as [_ Ht]. unfold normalized. split; [| split].
  - intros He. apply upper_empty in He. now rewrite He in Ht.
  - now rewrite strip_upper, strip_idem.
  - apply upper_idem.
Qed.

Lemma keys_dict_set {V} (k : string) (v : V) (d : list (string * V)) :
  keys (dict_set k v d) = if mem k (keys d) then keys d else keys d ++ [k].
Proof.
  induction d as [|[k' v'] d IH]; simpl; [reflexivity |].
  destruct (String.eqb k k'); simpl; [reflexivity |].
  rewrite IH. now destruct (mem k (keys d)).
Qed.

Lemma mem_In (s : string) (l : list string) : mem s l = true <-> In s l.
Proof.
  induction l as [|x l IH]; simpl; [split; [discriminate | tauto] |].
  rewrite orb_true_iff, IH. destruct (String.eqb_spec s x); intuition congruence.
Qed.

Lemma dict_set_NoDup {V} (k : string) (v : V) (d : list (string * V)) :
  NoDup (keys d) -> NoDup (keys (dict_set k v d)).
Proof.
  intros Hnd. rewrite keys_dict_set. destruct (mem k (keys d)) eqn:Hmem; [exact Hnd |].
  apply NoDup_app; [exact Hnd | repeat constructor; intros [] |].
  intros x Hx [<- | []]. apply mem_In in Hx. congruence.
Qed.

Lemma fetch_loop_keys (groups : list (string * RawFrame)) (universe : list string)
    (ts : list string) :
  incl ts universe ->
  forall acc log acc' log',
    for_each ts
      (fun ticker acc0 =>
         sub <- dict_item ticker groups ;; ret (dict_set ticker (dropna sub) acc0)) acc log
    = (Ok acc', log') ->
    NoDup (keys acc) -> incl (keys acc) universe ->
    NoDup (keys acc') /\ incl (keys acc') universe.
Proof.
  induction ts as [|t ts IH]; intros Hincl acc log acc' log' Hrun Hnd Hsub.
  - injection Hrun as <- _. now split.
  - cbn [for_each] in Hrun. unfold bind at 1 in Hrun. unfold bind at 1 in Hrun.
    unfold dict_item, lift_opt in Hrun.
    destruct (dict_get t groups) as [sub|]; [| discriminate]. unfold ret at 1 in Hrun.
    unfold ret at 1 in Hrun.
    apply (IH (fun x Hx => Hincl x (or_intror Hx)) _ _ _ _ Hrun).
    + now apply dict_set_NoDup.
    + rewrite keys_dict_set. destruct (mem t (keys acc)); [exact Hsub |].
      apply incl_app; [exact Hsub |]. intros x [<- | []]. apply Hincl. now left.
Qed.

Lemma fetch_stock_data_keys `{Yahoo} (ts : list string) (d : TickerDataset)
    (log log' : list event) :
  fetch_stock_data ts log = (Ok (Some d), log') -> NoDup (keys d) /\ incl (keys d) ts.
Proof.
  unfold fetch_stock_data, try_except.
  destruct (yf_download ts) as [e | data | groups].
  - discriminate.
  - destruct (raw_empty data); [discriminate |].
    unfold bind, lift_opt. destruct ts as [|t0 ts']; simpl; [discriminate |].
    intros [= <- _]. simpl. split; [repeat constructor; intros [] |].
    intros x [<- | []]. now left.
  - destruct (download_empty groups); [discriminate |].
    unfold bind at 1.
    destruct (for_each ts _ [] log) as [[acc | e] l] eqn:Hloop; [| discriminate].
    intros [= <- _].
    apply (fetch_loop_keys groups ts ts (incl_refl ts) [] log acc l Hloop).
    + constructor.
    + intros x [].
Qed.

(** C9, as amended.  For every comma separated input (of ASCII
    characters) each ticker handed to the acquisition is not empty, has no
    blank at either end and no lower-case letter; repeated symbols stay in
    the list.  The dataset that the acquisition builds from it holds each
    symbol at most once, and only symbols of the list. *)
Theorem ticker_normalization `{Yahoo} (text : string) :
  is_ascii7 text = true ->
  Forall normalized (tickers text) /\
  forall data_dict log log',
    fetch_stock_data (tickers text) log = (Ok (Some data_dict), log') ->
    NoDup (keys data_dict) /\ incl (keys data_dict) (tickers text).
Proof.
  intros _. split; [apply tickers_normalized |].
  intros data_dict log log'. apply fetch_stock_data_keys.
Qed.

Lemma ticker_normalization_witness :
  tickers " aapl, msft ,,AAPL" = ["AAPL"; "MSFT"; "AAPL"] /\
  Forall normalized (tickers " aapl, msft ,,AAPL") /\
  run (@fetch_stock_data yahoo_close_only (tickers " aapl, msft ,,AAPL"))
  = (Ok (Some [("AAPL", mkDF ["Close"] [(1, [10%Q]); (2, [11%Q]); (3, [12%Q])]);
               ("MSFT", mkDF ["Close"] [(1, [20%Q]); (2, [19%Q]); (3, [21%Q])])]), []) /\
  NoDup ["AAPL"; "MSFT"].
Proof.
  destruct (@ticker_normalization yahoo_close_only " aapl, msft ,,AAPL" eq_refl)
    as [Hnorm Hkeys].
  split; [reflexivity |]. split; [exact Hnorm |]. split; [reflexivity |].
  exact (proj1 (Hkeys _ [] [] eq_refl)).
Defined.

(** C9 as stated fails: the script never removes repeated symbols from the
    list it hands to the acquisition. *)
Lemma repeated_ticker_is_kept : ~ normalized_and_deduplicated "aapl, AAPL".
Proof.
  intros [_ Hnd]. change (tickers "aapl, AAPL") with ["AAPL"; "AAPL"] in Hnd.
  inversion Hnd as [|x l Hnotin _]; subst. apply Hnotin. now left.
Qed.

(** ** Rounding to four decimals, over the reals *)

Section RealRounding.
Local Open Scope R_scope.

Lemma Rround_half_even_close (x : R) : - (1 / 2) <= IZR (Rround_half_even x) - x <= 1 / 2.
Proof.
  unfold Rround_half_even. pose proof (Zfloor_bound x) as [Hlo Hhi].
  destruct (Rlt_dec (x - IZR (Zfloor x)) (1 / 2)) as [Hl | Hl].
  - rlra.
  - destruct (Rlt_dec (1 / 2) (x - IZR (Zfloor x))) as [Hg | Hg].
    + rewrite plus_IZR. rlra.
    + destruct (Z.even (Zfloor x)); [| rewrite plus_IZR]; rlra.
Qed.

Lemma Rround4_close (x : R) : - (1 / 20000) <= Rround4 x - x <= 1 / 20000.
Proof.
  unfold Rround4. pose proof (Rround_half_even_close (x * 10000)) as H. rlra.
Qed.

Lemma Zfloor_IZR (z : Z) : Zfloor (IZR z) = z.
Proof.
  pose proof (Zfloor_bound (IZR z)) as [Hlo Hhi].
  rewrite <- plus_IZR in Hhi. apply le_IZR in Hlo. apply lt_IZR in Hhi. lia.
Qed.

Lemma Rround_half_even_IZR (z : Z) : Rround_half_even (IZR z) = z.
Proof.
  unfold Rround_half_even. rewrite Zfloor_IZR.
  destruct (Rlt_dec (IZR z - IZR z) (1 / 2)) as [_ | Hn]; [reflexivity |].
  exfalso. apply Hn. rlra.
Qed.

Lemma Rround_half_even_mono_bounds (x : R) (lo hi : Z) :
  IZR lo <= x <= IZR hi -> (lo <= Rround_half_even x <= hi)%Z.
Proof.
  intros [Hlo Hhi]. pose proof (Zfloor_bound x) as [Hf1 Hf2].
  assert (Hfl : (lo <= Zfloor x)%Z).
  { apply Z.lt_succ_r. apply lt_IZR. rewrite succ_IZR. rlra. }
  assert (Hfh : (Zfloor x <= hi)%Z) by (apply le_IZR; rlra).
  unfold Rround_half_even.
  destruct (Rlt_dec (x - IZR (Zfloor x)) (1 / 2)) as [Hl | Hl]; [lia |].
  assert (Hlt : (Zfloor x < hi)%Z).
  { apply lt_IZR. rlra. }
  destruct (Rlt_dec (1 / 2) (x - IZR (Zfloor x))); [lia |].
  destruct (Z.even (Zfloor x)); lia.
Qed.

Lemma Rround4_unit_interval (x : R) : -1 <= x <= 1 -> -1 <= Rround4 x <= 1.
Proof.
  intros Hx. unfold Rround4.
  destruct (Rround_half_even_mono_bounds (x * 10000) (-10000) 10000) as [Hlo Hhi]; [rlra |].
  apply IZR_le in Hlo, Hhi. rlra.
Qed.

Lemma Rround4_one : Rround4 1 = 1.
Proof.
  unfold Rround4. replace (1 * 10000) with (IZR 10000) by rlra.
  rewrite Rround_half_even_IZR. rlra.
Qed.

End RealRounding.

(** ** Shape of the correlation table *)

Lemma In_position (r : string) (l : list string) :
  In r l -> exists p, position r l = Some p.
Proof. intros Hin. apply mem_position, mem_In, Hin. Qed.

Lemma position_nth_error (r : string) (l : list string) (p : nat) :
  position r l = Some p -> nth_error l p = Some r.
Proof.
  revert p; induction l as [|x l IH]; intros p; simpl; [discriminate |].
  destruct (String.eqb_spec r x) as [-> | _].
  - now intros [= <-].
  - destruct (position r l) as [i|]; [| discriminate].
    intros [= <-]. simpl. now apply IH.
Qed.

Lemma position_keys_dict_get {V} (r : string) (cols : list (string * V)) (i : nat) :
  position r (keys cols) = Some i ->
  exists s, nth_error cols i = Some (r, s) /\ dict_get r cols = Some s.
Proof.
  revert i; induction cols as [|[k v] cols IH]; intros i; simpl; [discriminate |].
  destruct (String.eqb_spec r k) as [-> | _].
  - intros [= <-]. now exists v.
  - destruct (position r (keys cols)) as [i'|]; [| discriminate].
    intros [= <-]. simpl. now apply IH.
Qed.

Lemma dict_get_position {V} (r : string) (cols : list (string * V)) (s : V) :
  dict_get r cols = Some s -> exists i, position r (keys cols) = Some i.
Proof.
  induction cols as [|[k v] cols IH]; simpl; [discriminate |].
  destruct (String.eqb r k); [now eexists |].
  intros Hget. destruct (IH Hget) as [i ->]. now eexists.
Qed.

Lemma dict_get_In {V} (r : string) (cols : list (string * V)) (s : V) :
  dict_get r cols = Some s -> In (r, s) cols.
Proof.
  induction cols as [|[k v] cols IH]; simpl; [discriminate |].
  destruct (String.eqb_spec r k) as [-> | _]; [intros [= <-]; now left |].
  intros Hget. right. now apply IH.
Qed.

Lemma map_m_cons_run {A B} (f : A -> M B) (x : A) (xs : list A) (log : list event) :
  map_m f (x :: xs) log =
  match f x log with
  | (Ok y, log1) =>
      match map_m f xs log1 with
      | (Ok ys, log2) => (Ok (y :: ys), log2)
      | (Raise e, log2) => (Raise e, log2)
      end
  | (Raise e, log1) => (Raise e, log1)
  end.
Proof.
  cbn [map_m]. unfold bind, ret.
  destruct (f x log) as [[y | e] log1]; [| reflexivity].
  destruct (map_m f xs log1) as [[ys | e] log2]; reflexivity.
Qed.

(** Looking up a list of labels either finds every one of them or raises
    the [KeyError] of one that is missing; the log is not touched. *)
Lemma map_m_positions (labels rws : list string) (log : list event) :
  (exists ri,
      map_m (fun r => lift_opt (position r labels) (KeyError r)) rws log = (Ok ri, log) /\
      Forall2 (fun r i => position r labels = Some i) rws ri) \/
  (exists r,
      In r rws /\ position r labels = None /\
      map_m (fun r => lift_opt (position r labels) (KeyError r)) rws log
      = (Raise (KeyError r), log)).
Proof.
  induction rws as [|r rws IH].
  - left. exists []. split; [reflexivity | constructor].
  - rewrite map_m_cons_run. unfold lift_opt at 1 3.
    destruct (position r labels) as [i|] eqn:Hpos.
    + unfold ret at 1 2.
      destruct IH as [[ri [-> Hall]] | [r' [Hin [Hnone ->]]]].
      * left. exists (i :: ri). split; [reflexivity | now constructor].
      * right. exists r'. split; [now right |]. split; [exact Hnone | reflexivity].
    + right. exists r. split; [now left |]. split; [exact Hpos | reflexivity].
Qed.

Lemma Forall2_nth_error {A B} (P : A -> B -> Prop) (l1 : list A) (l2 : list B)
    (p : nat) (a : A) :
  Forall2 P l1 l2 -> nth_error l1 p = Some a -> exists b, nth_error l2 p = Some b /\ P a b.
Proof.
  intros Hall. revert p. induction Hall as [|x y l1 l2 Hxy _ IH]; intros p.
  - destruct p; discriminate.
  - destruct p as [|p]; simpl; [intros [= <-]; now exists y | apply IH].
Qed.

Lemma nth_map_nth_error {A B} (f : A -> B) (l : list A) (p : nat) (a : A) (d : B) :
  nth_error l p = Some a -> nth p (map f l) d = f a.
Proof.
  revert p; induction l as [|x l IH]; intros p; destruct p; simpl; try discriminate.
  - now intros [= <-].
  - apply IH.
Qed.

Lemma nth_error_map_some {A B} (f : A -> B) (l : list A) (p : nat) (a : A) :
  nth_error l p = Some a -> nth_error (map f l) p = Some (f a).
Proof. intros Hp. now rewrite nth_error_map, Hp. Qed.

(** The table comes back exactly when every ranked ticker is a column of
    the frame of daily returns; its axes are the ranked tickers and its
    cells are the rounded coefficients of the two return series. *)
Lemma calculate_correlation_table_spec (data_dict : TickerDataset)
    (sorted_tickers : list string) (log : list event) :
  (exists m,
      calculate_correlation_table data_dict sorted_tickers log = (Ok m, log) /\
      row_labels m = sorted_tickers /\ col_labels m = sorted_tickers /\
      List.length (entries m) = List.length sorted_tickers /\
      Forall (fun row => List.length row = List.length sorted_tickers) (entries m) /\
      forall r c,
        In r sorted_tickers -> In c sorted_tickers ->
        exists sr sc,
          dict_get r (daily_returns_frame data_dict) = Some sr /\
          dict_get c (daily_returns_frame data_dict) = Some sc /\
          entry m r c = Some (correlation_cell (daily_returns_frame data_dict) sr sc)) \/
  (exists r,
      In r sorted_tickers /\
      dict_get r (daily_returns_frame data_dict) = None /\
      calculate_correlation_table data_dict sorted_tickers log = (Raise (KeyError r), log)).
Proof.
  remember (calculate_correlation_table data_dict sorted_tickers log) as res eqn:Hres.
  unfold calculate_correlation_table, loc in Hres. revert Hres.
  set (cols := daily_returns_frame data_dict).
  assert (Hnone : forall r, position r (keys cols) = None -> dict_get r cols = None).
  { intros r Hpos. destruct (dict_get r cols) as [s|] eqn:Hget; [| reflexivity].
    destruct (dict_get_position r cols s Hget) as [i Hi]. congruence. }
  unfold bind. simpl row_labels. simpl col_labels.
  destruct (map_m_positions (keys cols) sorted_tickers log)
    as [[ri [-> Hri]] | [r [Hin [Hpos ->]]]].
  2:{ intros ->. right. exists r. split; [exact Hin |]. split; [now apply Hnone | reflexivity]. }
  destruct (map_m_positions (keys cols) sorted_tickers log)
    as [[ci [-> Hci]] | [r [Hin [Hpos ->]]]].
  2:{ intros ->. right. exists r. split; [exact Hin |]. split; [now apply Hnone | reflexivity]. }
  unfold ret. intros ->.
  left. eexists. split; [reflexivity |]. unfold matrix_round. simpl.
  split; [reflexivity |]. split; [reflexivity |].
  split; [rewrite !length_map; symmetry; eapply Forall2_length; exact Hri |].
  split.
  { apply Forall_map, Forall_map, Forall_forall. intros i _.
    rewrite !length_map. symmetry. eapply Forall2_length. exact Hci. }
  intros r c Hr Hc. unfold entry. simpl.
  destruct (In_position r sorted_tickers Hr) as [p Hp].
  destruct (In_position c sorted_tickers Hc) as [q Hq].
  rewrite Hp, Hq.
  apply position_nth_error in Hp, Hq.
  destruct (Forall2_nth_error _ _ _ _ _ Hri Hp) as [i [Hi Hposi]].
  destruct (Forall2_nth_error _ _ _ _ _ Hci Hq) as [j [Hj Hposj]].
  destruct (position_keys_dict_get r cols i Hposi) as [sr [Hnthr Hgetr]].
  destruct (position_keys_dict_get c cols j Hposj) as [sc [Hnthc Hgetc]].
  exists sr, sc. split; [exact Hgetr |]. split; [exact Hgetc |].
  rewrite map_map.
  rewrite (nth_map_nth_error _ ri p i [] Hi).
  rewrite map_map.
  rewrite (nth_error_map_some _ ci q j Hj). f_equal.
  unfold correlation_cell. f_equal.
  rewrite (nth_map_nth_error _ cols i (r, sr) [] Hnthr). cbv beta.
  exact (nth_map_nth_error
           (fun y : string * Series =>
              pearson (complete_pairs (union_index cols) sr (snd y)))
           cols j (c, sc) None Hnthc).
Qed.

(** ** Pearson's coefficient *)

Section Pearson.
Local Open Scope R_scope.

Lemma combine_map_same {A B C} (f : A -> B) (g : A -> C) (l : list A) :
  combine (map f l) (map g l) = map (fun a => (f a, g a)) l.
Proof. induction l as [|a l IH]; simpl; [reflexivity | now rewrite IH]. Qed.

Lemma codeviation_deviations (ps : list (Q * Q)) :
  codeviation (map (fun p => Q2R (fst p)) ps) (map (fun p => Q2R (snd p)) ps)
  = sum_xy (deviations ps) /\
  codeviation (map (fun p => Q2R (fst p)) ps) (map (fun p => Q2R (fst p)) ps)
  = sum_xx (deviations ps) /\
  codeviation (map (fun p => Q2R (snd p)) ps) (map (fun p => Q2R (snd p)) ps)
  = sum_yy (deviations ps).
Proof.
  unfold codeviation, sum_xy, sum_xx, sum_yy, deviations.
  rewrite !combine_map_same, !map_map. repeat split.
Qed.

Lemma sum_xx_nonneg (l : list (R * R)) : 0 <= sum_xx l.
Proof.
  unfold sum_xx. induction l as [|p l IH]; simpl; [rlra |].
  pose proof (Rle_0_sqr (fst p)) as Hsq. unfold Rsqr in Hsq. rlra.
Qed.

Lemma sum_yy_nonneg (l : list (R * R)) : 0 <= sum_yy l.
Proof.
  unfold sum_yy. induction l as [|p l IH]; simpl; [rlra |].
  pose proof (Rle_0_sqr (snd p)) as Hsq. unfold Rsqr in Hsq. rlra.
Qed.

(** The quadratic [sum (x t + y)^2] in [t] is never negative. *)
Lemma quadratic_nonneg (l : list (R * R)) (t : R) :
  0 <= sum_xx l * (t * t) + 2 * sum_xy l * t + sum_yy l.
Proof.
  unfold sum_xx, sum_xy, sum_yy. induction l as [|[x y] l IH]; simpl; [rlra |].
  pose proof (Rle_0_sqr (x * t + y)) as Hsq. unfold Rsqr in Hsq.
  replace ((x * x + Rsum (map (fun p => fst p * fst p) l)) * (t * t)
           + 2 * (x * y + Rsum (map (fun p => fst p * snd p) l)) * t
           + (y * y + Rsum (map (fun p => snd p * snd p) l)))
    with ((x * t + y) * (x * t + y)
          + (Rsum (map (fun p => fst p * fst p) l) * (t * t)
             + 2 * Rsum (map (fun p => fst p * snd p) l) * t
             + Rsum (map (fun p => snd p * snd p) l))) by ring.
  rlra.
Qed.

Lemma sum_xx_zero (l : list (R * R)) :
  sum_xx l = 0 -> Forall (fun p => fst p = 0) l.
Proof.
  induction l as [|p l IH]; intros Hz; [constructor |].
  unfold sum_xx in Hz. simpl in Hz. fold (sum_xx l) in Hz.
  pose proof (sum_xx_nonneg l) as Hl.
  pose proof (Rle_0_sqr (fst p)) as Hsq. unfold Rsqr in Hsq.
  assert (Hp : fst p * fst p = 0) by rlra.
  assert (Hl0 : sum_xx l = 0) by rlra.
  constructor; [| now apply IH].
  apply Rmult_integral in Hp. tauto.
Qed.

Lemma sum_xy_zero (l : list (R * R)) :
  Forall (fun p => fst p = 0) l -> sum_xy l = 0.
Proof.
  unfold sum_xy. induction 1 as [|p l Hp _ IH]; simpl; [reflexivity |].
  rewrite Hp, IH. ring.
Qed.

(** Cauchy-Schwarz. *)
Lemma cauchy_schwarz (l : list (R * R)) :
  sum_xy l * sum_xy l <= sum_xx l * sum_yy l.
Proof.
  pose proof (sum_xx_nonneg l) as Hxx.
  destruct (Req_dec (sum_xx l) 0) as [Hz | Hnz].
  - rewrite (sum_xy_zero l (sum_xx_zero l Hz)), Hz. rlra.
  - assert (Hpos : 0 < sum_xx l) by rlra.
    pose proof (quadratic_nonneg l (- sum_xy l / sum_xx l)) as Hq.
    assert (Heq : sum_xx l * (- sum_xy l / sum_xx l * (- sum_xy l / sum_xx l))
                  + 2 * sum_xy l * (- sum_xy l / sum_xx l) + sum_yy l
                  = (sum_xx l * sum_yy l - sum_xy l * sum_xy l) / sum_xx l)
      by (field; rlra).
    rewrite Heq in Hq.
    assert (Hnum : 0 <= (sum_xx l * sum_yy l - sum_xy l * sum_xy l) / sum_xx l * sum_xx l)
      by (apply Rmult_le_pos; rlra).
    replace ((sum_xx l * sum_yy l - sum_xy l * sum_xy l) / sum_xx l * sum_xx l)
      with (sum_xx l * sum_yy l - sum_xy l * sum_xy l) in Hnum by (field; rlra).
    rlra.
Qed.

(** The coefficient, when it is a number, lies between -1 and 1. *)
Lemma pearson_range (ps : list (Q * Q)) (x : R) :
  pearson ps = Some x -> -1 <= x <= 1.
Proof.
  unfold pearson. destruct ps as [|p ps']; [discriminate |].
  set (ps := p :: ps').
  destruct (codeviation_deviations ps) as [-> [-> ->]].
  set (l := deviations ps).
  destruct (Req_dec_T (sqrt (sum_xx l * sum_yy l)) 0) as [_ | Hdiv]; [discriminate |].
  intros [= <-].
  pose proof (sqrt_pos (sum_xx l * sum_yy l)) as Hs.
  assert (Hpos : 0 < sqrt (sum_xx l * sum_yy l)) by rlra.
  assert (Hprod : 0 <= sum_xx l * sum_yy l)
    by (apply Rmult_le_pos; [apply sum_xx_nonneg | apply sum_yy_nonneg]).
  assert (Habs : Rabs (sum_xy l) <= sqrt (sum_xx l * sum_yy l)).
  { rewrite <- sqrt_Rsqr_abs. apply sqrt_le_1_alt. unfold Rsqr. apply cauchy_schwarz. }
  assert (Hle : - sqrt (sum_xx l * sum_yy l) <= sum_xy l <= sqrt (sum_xx l * sum_yy l)).
  { unfold Rabs in Habs. destruct (Rcase_abs (sum_xy l)); rlra. }
  split.
  - apply Rmult_le_reg_r with (sqrt (sum_xx l * sum_yy l)); [exact Hpos |].
    unfold Rdiv. rewrite Rmult_assoc, Rinv_l by rlra. rlra.
  - apply Rmult_le_reg_r with (sqrt (sum_xx l * sum_yy l)); [exact Hpos |].
    unfold Rdiv. rewrite Rmult_assoc, Rinv_l by rlra. rlra.
Qed.

(** Symmetry. *)
Lemma sum_swap (l : list (R * R)) :
  sum_xy (map swap l) = sum_xy l /\ sum_xx (map swap l) = sum_yy l /\
  sum_yy (map swap l) = sum_xx l.
Proof.
  unfold sum_xy, sum_xx, sum_yy. rewrite !map_map. simpl. repeat split.
  f_equal. apply map_ext. intros p. apply Rmult_comm.
Qed.

Lemma deviations_swap (ps : list (Q * Q)) :
  deviations (map swap ps) = map swap (deviations ps).
Proof.
  unfold deviations. rewrite !map_map. simpl. reflexivity.
Qed.

Lemma pearson_swap (ps : list (Q * Q)) : pearson (map swap ps) = pearson ps.
Proof.
  unfold pearson. destruct ps as [|p ps']; [reflexivity |].
  change (map swap (p :: ps')) with (swap p :: map swap ps') at 1.
  cbv beta iota. change (swap p :: map swap ps') with (map swap (p :: ps')).
  set (ps := p :: ps').
  destruct (codeviation_deviations ps) as [-> [-> ->]].
  destruct (codeviation_deviations (map swap ps)) as [-> [-> ->]].
  rewrite deviations_swap.
  destruct (sum_swap (deviations ps)) as [-> [-> ->]].
  rewrite (Rmult_comm (sum_yy (deviations ps))). reflexivity.
Qed.

Lemma complete_pairs_swap (idx : list date) (x y : Series) :
  complete_pairs idx y x = map swap (complete_pairs idx x y).
Proof.
  induction idx as [|d idx IH]; simpl; [reflexivity |].
  destruct (series_at x d), (series_at y d); simpl; now rewrite IH.
Qed.

End Pearson.

(** ** The diagonal of the correlation table *)

Section Diagonal.
Local Open Scope R_scope.

Lemma Rsum_constant (xs : list R) (v : R) :
  Forall (fun x => x = v) xs -> Rsum xs = INR (List.length xs) * v.
Proof.
  induction 1 as [|x xs Hx _ IH]; [simpl; ring |].
  change (Rsum (x :: xs)) with (x + Rsum xs).
  change (List.length (x :: xs)) with (S (List.length xs)).
  rewrite S_INR, IH, Hx. ring.
Qed.

Lemma mean_constant (xs : list R) (v : R) :
  xs <> [] -> Forall (fun x => x = v) xs -> mean xs = v.
Proof.
  intros Hne Hall. unfold mean. rewrite (Rsum_constant xs v Hall).
  assert (Hlen : INR (List.length xs) <> 0).
  { destruct xs; [congruence |]. apply not_0_INR. discriminate. }
  field. exact Hlen.
Qed.

Lemma sum_xx_of_zero (l : list (R * R)) : Forall (fun p => fst p = 0) l -> sum_xx l = 0.
Proof.
  unfold sum_xx. induction 1 as [|p l Hp _ IH]; simpl; [reflexivity |].
  rewrite Hp, IH. ring.
Qed.

Lemma sums_diag (l : list (R * R)) :
  Forall (fun p => fst p = snd p) l -> sum_xy l = sum_xx l /\ sum_yy l = sum_xx l.
Proof.
  unfold sum_xy, sum_xx, sum_yy. induction 1 as [|p l Hp _ [IH1 IH2]]; simpl; [now split |].
  rewrite IH1, IH2, <- Hp. now split.
Qed.

Lemma maps_diag (ps : list (Q * Q)) :
  Forall (fun p => fst p = snd p) ps ->
  map (fun p => Q2R (snd p)) ps = map (fun p => Q2R (fst p)) ps.
Proof.
  induction 1 as [|p ps Hp _ IH]; simpl; [reflexivity |]. now rewrite IH, Hp.
Qed.

Lemma deviations_diag (ps : list (Q * Q)) :
  Forall (fun p => fst p = snd p) ps -> Forall (fun p => fst p = snd p) (deviations ps).
Proof.
  intros Hd. unfold deviations. rewrite (maps_diag ps Hd).
  apply Forall_map. eapply Forall_impl; [| exact Hd].
  intros p Hp. simpl. now rewrite Hp.
Qed.

(** On pairs of equal coordinates the coefficient is NaN or 1. *)
Lemma pearson_diag (ps : list (Q * Q)) :
  Forall (fun p => fst p = snd p) ps ->
  (sum_xx (deviations ps) = 0 -> pearson ps = None) /\
  (sum_xx (deviations ps) <> 0 -> pearson ps = Some 1).
Proof.
  intros Hd. unfold pearson. destruct ps as [|p ps']; [split; [reflexivity | ] |].
  { intros Hne. exfalso. apply Hne. reflexivity. }
  set (ps := p :: ps') in *.
  destruct (codeviation_deviations ps) as [-> [-> ->]].
  destruct (sums_diag (deviations ps) (deviations_diag ps Hd)) as [-> ->].
  rewrite sqrt_square by apply sum_xx_nonneg.
  destruct (Req_dec_T (sum_xx (deviations ps)) 0) as [Hz | Hnz]; split; intros H;
    try reflexivity; try contradiction.
  f_equal. field. exact Hnz.
Qed.

Lemma deviations_all_equal (ps : list (Q * Q)) :
  (forall p q, In p ps -> In q ps -> (fst p == fst q)%Q) -> sum_xx (deviations ps) = 0.
Proof.
  intros Heq. destruct ps as [|p0 ps']; [reflexivity |].
  set (ps := p0 :: ps') in *.
  assert (Hmean : mean (map (fun p => Q2R (fst p)) ps) = Q2R (fst p0)).
  { apply mean_constant; [discriminate |].
    apply Forall_map, Forall_forall. intros p Hp.
    apply Qeq_eqR, Heq; [exact Hp | now left]. }
  apply sum_xx_of_zero. unfold deviations. apply Forall_map, Forall_forall.
  intros p Hp. cbn [fst]. rewrite Hmean.
  rewrite (Qeq_eqR _ _ (Heq p p0 Hp (or_introl eq_refl))). ring.
Qed.

Lemma deviations_not_all_equal (ps : list (Q * Q)) (p q : Q * Q) :
  In p ps -> In q ps -> ~ (fst p == fst q)%Q -> sum_xx (deviations ps) <> 0.
Proof.
  intros Hp Hq Hne Hz. apply Hne, eqR_Qeq.
  pose proof (sum_xx_zero _ Hz) as Hall. unfold deviations in Hall.
  rewrite Forall_map, Forall_forall in Hall.
  pose proof (Hall p Hp) as H1. pose proof (Hall q Hq) as H2. cbn [fst] in H1, H2. rlra.
Qed.

End Diagonal.

Lemma series_at_In (s : Series) (d : date) (v : Q) :
  series_at s d = Some v -> In v (values s).
Proof.
  induction s as [|[d' v'] s IH]; simpl; [discriminate |].
  destruct (d =? d'); [intros [= <-]; now left | intros H; right; now apply IH].
Qed.

Lemma series_at_NoDup (s : Series) (d : date) (v : Q) :
  NoDup (map fst s) -> In (d, v) s -> series_at s d = Some v.
Proof.
  induction s as [|[d' v'] s IH]; simpl; [intros _ [] |].
  intros Hnd [Heq | Hin].
  - injection Heq as -> ->. now rewrite Z.eqb_refl.
  - inversion Hnd as [|? ? Hnotin Hnd']; subst.
    destruct (Z.eqb_spec d d') as [-> | _]; [| now apply IH].
    exfalso. apply Hnotin. apply in_map_iff. now exists (d', v).
Qed.

Lemma complete_pairs_diag (idx : list date) (s : Series) :
  Forall (fun p => fst p = snd p /\ In (fst p) (values s)) (complete_pairs idx s s).
Proof.
  induction idx as [|d idx IH]; simpl; [constructor |].
  destruct (series_at s d) as [v|] eqn:Hv; [| exact IH].
  constructor; [| exact IH]. split; [reflexivity |]. simpl. now apply (series_at_In s d).
Qed.

Lemma complete_pairs_complete (idx : list date) (s : Series) (d : date) (v : Q) :
  In d idx -> series_at s d = Some v -> In (v, v) (complete_pairs idx s s).
Proof.
  intros Hin Hv. induction idx as [|d' idx IH]; [destruct Hin |].
  simpl. destruct Hin as [-> | Hin].
  - rewrite Hv. now left.
  - destruct (series_at s d'); [right |]; now apply IH.
Qed.

Lemma insert_date_In (d x : date) (l : list date) :
  In x (insert_date d l) <-> x = d \/ In x l.
Proof.
  induction l as [|y l IH]; simpl; [intuition |].
  destruct (Z.ltb_spec d y); simpl; [intuition |].
  destruct (Z.eqb_spec d y) as [-> | _]; simpl; [intuition |].
  rewrite IH. intuition.
Qed.

Lemma fold_insert_date_In (s : Series) (acc : list date) (x : date) :
  In x (fold_left (fun a r => insert_date (fst r) a) s acc) <->
  In x acc \/ In x (map fst s).
Proof.
  revert acc; induction s as [|r s IH]; intros acc; simpl; [intuition |].
  rewrite IH, insert_date_In. intuition.
Qed.

Lemma union_index_In (cols : list (string * Series)) (x : date) :
  In x (union_index cols) <-> exists col, In col cols /\ In x (map fst (snd col)).
Proof.
  unfold union_index.
  assert (Hgen : forall acc,
             In x (fold_left
                     (fun acc col => fold_left (fun a r => insert_date (fst r) a) (snd col) acc)
                     cols acc) <->
             In x acc \/ exists col, In col cols /\ In x (map fst (snd col))).
  { induction cols as [|c cols IH]; intros acc; simpl.
    - split; [now left | intros [H | [col [[] _]]]; exact H].
    - rewrite IH, fold_insert_date_In. split.
      + intros [[H | H] | [col [Hc Hx]]]; [now left | right; exists c; now split; [left |] |].
        right. exists col. split; [now right | exact Hx].
      + intros [H | [col [[<- | Hc] Hx]]]; [now left; left | now left; right |].
        right. now exists col. }
  rewrite Hgen. split; [intros [[] | H]; exact H | now right].
Qed.

(** ** The frame of daily returns *)

Lemma column_dates (name : string) (data : DataFrame) (prices : Series) :
  column name data = Some prices -> map fst prices = index data.
Proof.
  unfold column, index. destruct (position name (columns data)); [| discriminate].
  intros [= <-]. rewrite map_map. reflexivity.
Qed.

Lemma returns_dates_from (prev : Q) (s : Series) (x : date) :
  In x (map fst (dropna_series (pct_change_from prev s))) -> In x (map fst s).
Proof.
  revert prev; induction s as [|[d p] s IH]; intros prev; simpl; [tauto |].
  destruct (Qeq_bool prev 0 && Qeq_bool p 0); simpl.
  - intros H. right. now apply (IH p).
  - intros [H | H]; [now left | right; now apply (IH p)].
Qed.

Lemma returns_dates_NoDup_from (prev : Q) (s : Series) :
  NoDup (map fst s) -> NoDup (map fst (dropna_series (pct_change_from prev s))).
Proof.
  revert prev; induction s as [|[d p] s IH]; intros prev; simpl; [constructor |].
  intros Hnd. inversion Hnd as [|? ? Hnotin Hnd']; subst.
  destruct (Qeq_bool prev 0 && Qeq_bool p 0); simpl; [now apply IH |].
  constructor; [| now apply IH].
  intros Hin. apply Hnotin. now apply (returns_dates_from p).
Qed.

Lemma returns_dates_NoDup (s : Series) :
  NoDup (map fst s) -> NoDup (map fst (dropna_series (pct_change s))).
Proof.
  destruct s as [|[d p] s]; simpl; [constructor |].
  intros Hnd. inversion Hnd; subst. now apply returns_dates_NoDup_from.
Qed.

Lemma daily_returns_frame_In (data_dict : TickerDataset) (t : string) (s : Series) :
  In (t, s) (daily_returns_frame data_dict) ->
  exists data prices,
    In (t, data) data_dict /\ column "Adj Close" data = Some prices /\
    s = dropna_series (pct_change prices).
Proof.
  unfold daily_returns_frame. rewrite in_flat_map. intros [[t' data] [Hin Hs]]. simpl in Hs.
  destruct (column "Adj Close" data) as [prices|] eqn:Hcol; [| destruct Hs].
  destruct Hs as [[= <- <-] | []]. now exists data, prices.
Qed.

Lemma daily_returns_NoDup (data_dict : TickerDataset) (t : string) (s : Series) :
  Forall (fun item => NoDup (index (snd item))) data_dict ->
  In (t, s) (daily_returns_frame data_dict) -> NoDup (map fst s).
Proof.
  intros Hall Hin.
  destruct (daily_returns_frame_In data_dict t s Hin) as [data [prices [Hd [Hcol ->]]]].
  apply returns_dates_NoDup. rewrite (column_dates _ _ _ Hcol).
  rewrite Forall_forall in Hall. exact (Hall (t, data) Hd).
Qed.

(** The diagonal cell of a ticker: NaN when its returns are all equal, 1
    when two of them differ. *)
Lemma diagonal_cell (cols : list (string * Series)) (t : string) (s : Series) :
  In (t, s) cols -> NoDup (map fst s) ->
  ((forall a b, In a (values s) -> In b (values s) -> (a == b)%Q) ->
   correlation_cell cols s s = None) /\
  ((exists a b, In a (values s) /\ In b (values s) /\ ~ (a == b)%Q) ->
   correlation_cell cols s s = Some 1%R).
Proof.
  intros Hin Hnd. unfold correlation_cell.
  pose proof (complete_pairs_diag (union_index cols) s) as Hdiag.
  assert (Hd : Forall (fun p => fst p = snd p) (complete_pairs (union_index cols) s s)).
  { eapply Forall_impl; [| exact Hdiag]. now intros p [Hp _]. }
  destruct (pearson_diag _ Hd) as [Hnan Hone]. rewrite Forall_forall in Hdiag. split.
  - intros Heq. rewrite Hnan; [reflexivity |].
    apply deviations_all_equal. intros p q Hp Hq.
    apply Heq; [apply (Hdiag p Hp) | apply (Hdiag q Hq)].
  - intros [a [b [Ha [Hb Hne]]]]. rewrite Hone; [simpl; now rewrite Rround4_one |].
    assert (Hpair : forall v, In v (values s) ->
                              In (v, v) (complete_pairs (union_index cols) s s)).
    { intros v Hv. unfold values in Hv. apply in_map_iff in Hv as [[d v'] [Hv Hdv]].
      simpl in Hv. subst v'.
      apply (complete_pairs_complete _ s d v); [| now apply series_at_NoDup].
      apply union_index_In. exists (t, s). split; [exact Hin |].
      apply in_map_iff. now exists (d, v). }
    apply (deviations_not_all_equal _ (a, a) (b, b)); [now apply Hpair | now apply Hpair |].
    exact Hne.
Qed.

(** C5, as amended.  Whenever the correlation table is produced, it is
    square with the supplied ranked tickers, in their order, on both axes;
    it is symmetric; every entry is NaN or lies between -1 and 1; and the
    diagonal entry of a ticker is 1 when two of its daily returns differ
    and NaN when they are all equal. *)
Theorem correlation_matrix_invariant (data_dict : TickerDataset)
    (sorted_tickers : list string) (m : Matrix) (log log' : list event) :
  Forall (fun item => NoDup (index (snd item))) data_dict ->
  calculate_correlation_table data_dict sorted_tickers log = (Ok m, log') ->
  row_labels m = sorted_tickers /\ col_labels m = sorted_tickers /\
  List.length (entries m) = List.length sorted_tickers /\
  Forall (fun row => List.length row = List.length sorted_tickers) (entries m) /\
  (forall r c,
      In r sorted_tickers -> In c sorted_tickers ->
      exists v,
        entry m r c = Some v /\ entry m c r = Some v /\
        (v = None \/ exists x, v = Some x /\ (-1 <= x <= 1)%R)) /\
  (forall ticker,
      In ticker sorted_tickers ->
      exists returns,
        dict_get ticker (daily_returns_frame data_dict) = Some returns /\
        ((forall a b, In a (values returns) -> In b (values returns) -> (a == b)%Q) ->
         entry m ticker ticker = Some None) /\
        ((exists a b, In a (values returns) /\ In b (values returns) /\ ~ (a == b)%Q) ->
         entry m ticker ticker = Some (Some 1%R))).
Proof.
  intros Hnd Hrun.
  destruct (calculate_correlation_table_spec data_dict sorted_tickers log)
    as [[m0 [Hrun0 [Hrows [Hcols [Hlen [Hwidth Hentry]]]]]] | [r [_ [_ Hraise]]]];
    [| rewrite Hraise in Hrun; discriminate].
  rewrite Hrun0 in Hrun. injection Hrun as <- _.
  split; [exact Hrows |]. split; [exact Hcols |]. split; [exact Hlen |].
  split; [exact Hwidth |]. split.
  - intros r c Hr Hc.
    destruct (Hentry r c Hr Hc) as [sr [sc [Hgr [Hgc Hrc]]]].
    destruct (Hentry c r Hc Hr) as [sc' [sr' [Hgc' [Hgr' Hcr]]]].
    rewrite Hgc in Hgc'. rewrite Hgr in Hgr'. injection Hgc' as <-. injection Hgr' as <-.
    exists (correlation_cell (daily_returns_frame data_dict) sr sc).
    split; [exact Hrc |]. split.
    + rewrite Hcr. unfold correlation_cell. now rewrite complete_pairs_swap, pearson_swap.
    + unfold correlation_cell.
      destruct (pearson (complete_pairs (union_index (daily_returns_frame data_dict)) sr sc))
        as [x|] eqn:Hp; [right | now left].
      exists (Rround4 x). split; [reflexivity |].
      apply Rround4_unit_interval. now apply (pearson_range _ x Hp).
  - intros ticker Ht.
    destruct (Hentry ticker ticker Ht Ht) as [s [s' [Hg [Hg' Htt]]]].
    rewrite Hg in Hg'. injection Hg' as <-.
    exists s. split; [exact Hg |]. rewrite Htt.
    pose proof (dict_get_In _ _ _ Hg) as Hin.
    destruct (diagonal_cell (daily_returns_frame data_dict) ticker s Hin
                (daily_returns_NoDup data_dict ticker s Hnd Hin)) as [Hnan Hone].
    split; intros H; f_equal; auto.
Qed.

Lemma correlation_matrix_invariant_witness :
  exists m,
    calculate_correlation_table flat_and_rising ["UP"; "FLAT"] [] = (Ok m, []) /\
    row_labels m = ["UP"; "FLAT"] /\ col_labels m = ["UP"; "FLAT"] /\
    entry m "UP" "UP" = Some (Some 1%R) /\
    entry m "FLAT" "FLAT" = Some None.
Proof.
  destruct (calculate_correlation_table_spec flat_and_rising ["UP"; "FLAT"] [])
    as [[m [Hrun _]] | [r [Hin [Hnone _]]]].
  - exists m. split; [exact Hrun |].
    destruct (correlation_matrix_invariant flat_and_rising ["UP"; "FLAT"] m [] [])
      as [Hrows [Hcols [_ [_ [_ Hdiag]]]]]; [distinct_dates | exact Hrun |].
    split; [exact Hrows |]. split; [exact Hcols |]. split.
    + destruct (Hdiag "UP") as [returns [Hget [_ Hone]]]; [now left |].
      vm_compute in Hget. injection Hget as <-.
      apply Hone. exists 1%Q, (1 # 2)%Q.
      split; [now left |]. split; [right; now left | discriminate].
    + destruct (Hdiag "FLAT") as [returns [Hget [Hnan _]]]; [right; now left |].
      vm_compute in Hget. injection Hget as <-.
      apply Hnan. intros a b [<- | [<- | []]] [<- | [<- | []]]; reflexivity.
  - exfalso. destruct Hin as [<- | [<- | []]]; vm_compute in Hnone; discriminate.
Defined.

(** C5 as stated fails: a ticker whose price does not move has daily
    returns that are all 0, the divisor of its coefficient is 0, and its
    diagonal entry is NaN although it has 2 return observations. *)
Lemma flat_ticker_diagonal_nan : ~ unit_diagonal flat_and_rising ["UP"; "FLAT"].
Proof.
  intros Hclaim.
  destruct (calculate_correlation_table_spec flat_and_rising ["UP"; "FLAT"] [])
    as [[m [Hrun [_ [_ [_ [_ Hentry]]]]]] | [r [Hin [Hnone _]]]].
  - destruct (Hentry "FLAT" "FLAT") as [s [s' [Hg [Hg' Hcell]]]];
      [right; now left | right; now left |].
    rewrite Hg in Hg'. injection Hg' as <-.
    pose proof (dict_get_In _ _ _ Hg) as Hin.
    assert (Hs : s = [(2, (0 # 5)%Q); (3, (0 # 5)%Q)]) by (vm_compute in Hg; now injection Hg as <-).
    assert (Hone : entry m "FLAT" "FLAT" = Some (Some 1%R)).
    { apply (Hclaim m [] [] "FLAT" s Hrun); [right; now left | exact Hg |].
      rewrite Hs. simpl. lia. }
    destruct (diagonal_cell (daily_returns_frame flat_and_rising) "FLAT" s Hin) as [Hnan _].
    { rewrite Hs. distinct_dates. }
    rewrite Hcell, Hnan in Hone; [discriminate |].
    rewrite Hs. intros a b [<- | [<- | []]] [<- | [<- | []]]; reflexivity.
  - destruct Hin as [<- | [<- | []]]; vm_compute in Hnone; discriminate.
Qed.

(** ** The price column of the correlation *)

(** C4.  The statistics take ['Adj Close'] or, failing that, ['Close'];
    the correlation takes ['Adj Close'] only.  On a download of two
    tickers that carry ['Close'] alone both tickers are ranked and shown
    in the statistics table, then the lookup of the ranked tickers in the
    correlation matrix raises [KeyError]: no matrix and no chart. *)
Theorem correlation_ignores_close_fallback (numlib : NumLib) :
  let outcome := run (@app yahoo_close_only numlib "aapl, msft" ALL_AVAILABLE 0 0) in
  fst outcome = Raise (KeyError "AAPL") /\
  (exists stats, In (StStatsTable ["AAPL"; "MSFT"] stats) (snd outcome)) /\
  existsb is_corr_table (snd outcome) = false /\
  existsb is_chart (snd outcome) = false.
Proof.
  vm_compute. split; [reflexivity |]. split; [| split; reflexivity].
  eexists. right. left. reflexivity.
Qed.

(** * Further properties of the script *)

(** ** Acquisition *)

Lemma fetch_loop_run (groups : list (string * RawFrame)) (ts : list string)
    (acc : TickerDataset) (log : list event) :
  (exists acc',
      for_each ts
        (fun ticker acc0 =>
           sub <- dict_item ticker groups ;; ret (dict_set ticker (dropna sub) acc0)) acc log
      = (Ok acc', log) /\
      Forall (fun t => dict_get t groups <> None) ts /\
      acc' = fold_left (fun a t =>
                          match dict_get t groups with
                          | Some g => dict_set t (dropna g) a
                          | None => a
                          end) ts acc) \/
  (exists t,
      In t ts /\ dict_get t groups = None /\
      for_each ts
        (fun ticker acc0 =>
           sub <- dict_item ticker groups ;; ret (dict_set ticker (dropna sub) acc0)) acc log
      = (Raise (KeyError t), log)).
Proof.
  revert acc; induction ts as [|t ts IH]; intros acc.
  - left. exists acc. repeat split. constructor.
  - cbn [for_each]. unfold bind at 1 3. unfold bind at 1 2.
    unfold dict_item, lift_opt.
    destruct (dict_get t groups) as [g|] eqn:Hg.
    + unfold ret at 1 2 3 4.
      destruct (IH (dict_set t (dropna g) acc)) as [[acc' [Hrun [Hall Hacc]]] | [t' [Hin [Hnone Hrun]]]].
      * left. exists acc'. split; [exact Hrun |]. split.
        -- constructor; [congruence | exact Hall].
        -- simpl. now rewrite Hg.
      * right. exists t'. split; [now right |]. now split.
    + right. exists t. split; [now left |]. now split.
Qed.

Lemma fold_dict_set_keys (groups : list (string * RawFrame)) (ts : list string) :
  Forall (fun t => dict_get t groups <> None) ts ->
  forall acc : TickerDataset,
    keys (fold_left (fun a t =>
                       match dict_get t groups with
                       | Some g => dict_set t (dropna g) a
                       | None => a
                       end) ts acc)
    = fold_left (fun a t => if mem t a then a else a ++ [t]) ts (keys acc).
Proof.
  induction 1 as [|t ts Ht _ IH]; intros acc; simpl; [reflexivity |].
  destruct (dict_get t groups) as [g|]; [| congruence].
  now rewrite IH, keys_dict_set.
Qed.

Lemma dict_get_set_other {V} (k k' : string) (v : V) (d : list (string * V)) :
  k <> k' -> dict_get k (dict_set k' v d) = dict_get k d.
Proof.
  intros Hne. induction d as [|[k0 v0] d IH]; simpl.
  - destruct (String.eqb_spec k k'); [congruence | reflexivity].
  - destruct (String.eqb_spec k' k0) as [-> | _]; simpl.
    + destruct (String.eqb_spec k k0); [congruence | reflexivity].
    + destruct (String.eqb k k0); [reflexivity | exact IH].
Qed.

Lemma fold_dict_set_get (groups : list (string * RawFrame)) (ts : list string)
    (t : string) (g : RawFrame) :
  dict_get t groups = Some g ->
  forall acc : TickerDataset,
    In t ts \/ dict_get t acc = Some (dropna g) ->
    dict_get t (fold_left (fun a t =>
                             match dict_get t groups with
                             | Some g => dict_set t (dropna g) a
                             | None => a
                             end) ts acc)
    = Some (dropna g).
Proof.
  intros Hg. induction ts as [|t0 ts IH]; intros acc Hcase; simpl.
  - destruct Hcase as [[] | Hacc]. exact Hacc.
  - apply IH. destruct (String.eqb_spec t t0) as [<- | Hne].
    + right. rewrite Hg. apply dict_get_set_same.
    + destruct Hcase as [[Heq | Hin] | Hacc]; [congruence | now left |].
      right. destruct (dict_get t0 groups); [| exact Hacc].
      now rewrite dict_get_set_other.
Qed.

(** The outcomes of [fetch_stock_data], branch by branch. *)
Lemma fetch_stock_data_run `{Yahoo} (tickers : list string) (log : list event) :
  fetch_stock_data tickers log =
  match yf_download tickers with
  | DlRaises e => (Ok None, log ++ [StError (fetch_error tickers e)])
  | DlFlat data =>
      if raw_empty data then (Ok None, log ++ [StError (no_data_error tickers)])
      else match tickers with
           | [] => (Ok None, log ++ [StError (fetch_error tickers IndexError)])
           | t0 :: _ => (Ok (Some [(t0, dropna data)]), log)
           end
  | DlGrouped groups =>
      if download_empty groups then (Ok None, log ++ [StError (no_data_error tickers)])
      else match for_each tickers
                   (fun ticker acc0 =>
                      sub <- dict_item ticker groups ;;
                      ret (dict_set ticker (dropna sub) acc0)) [] log with
           | (Ok d, log') => (Ok (Some d), log')
           | (Raise e, log') => (Ok None, log' ++ [StError (fetch_error tickers e)])
           end
  end.
Proof.
  unfold fetch_stock_data, try_except, fetch_error, no_data_error.
  destruct (yf_download tickers) as [e | data | groups].
  - reflexivity.
  - destruct (raw_empty data); [reflexivity |]. destruct tickers; reflexivity.
  - destruct (download_empty groups); [reflexivity |]. unfold bind at 1.
    destruct (for_each tickers _ [] log) as [[d | e] log']; reflexivity.
Qed.

(** X1.  [fetch_stock_data] never lets an exception out.  It returns a
    dataset without showing anything, or it returns [None] after showing
    exactly one error message. *)
Theorem fetch_stock_data_outcome `{Yahoo} (tickers : list string) (log : list event) :
  (exists data_dict, fetch_stock_data tickers log = (Ok (Some data_dict), log)) \/
  (exists msg, fetch_stock_data tickers log = (Ok None, log ++ [StError msg])).
Proof.
  rewrite fetch_stock_data_run.
  destruct (yf_download tickers) as [e | data | groups].
  - right. eexists. reflexivity.
  - destruct (raw_empty data); [right; eexists; reflexivity |].
    destruct tickers as [|t0 ts]; [right | left]; eexists; reflexivity.
  - destruct (download_empty groups); [right; eexists; reflexivity |].
    destruct (fetch_loop_run groups tickers [] log)
      as [[acc [-> _]] | [t [_ [_ ->]]]]; [left | right]; eexists; reflexivity.
Qed.

(** X2.  When the download is grouped by ticker, is not empty and has a
    group for every requested ticker, the dataset is returned silently;
    each requested ticker maps to the rows of its group that have no NaN,
    and the keys are the requested tickers without repetitions, in the
    order of their first occurrence. *)
Theorem fetch_grouped_dataset `{Yahoo} (tickers : list string)
    (groups : list (string * RawFrame)) (log : list event) :
  yf_download tickers = DlGrouped groups ->
  download_empty groups = false ->
  Forall (fun t => dict_get t groups <> None) tickers ->
  exists data_dict,
    fetch_stock_data tickers log = (Ok (Some data_dict), log) /\
    keys data_dict = first_occurrences tickers /\
    forall t g, In t tickers -> dict_get t groups = Some g ->
                dict_get t data_dict = Some (dropna g).
Proof.
  intros Hdl Hne Hall. rewrite fetch_stock_data_run, Hdl, Hne.
  destruct (fetch_loop_run groups tickers [] log)
    as [[acc [-> [_ ->]]] | [t [Hin [Hnone _]]]].
  - eexists. split; [reflexivity |]. split.
    + now rewrite fold_dict_set_keys.
    + intros t g Hin Hg. apply fold_dict_set_get; [exact Hg | now left].
  - exfalso. rewrite Forall_forall in Hall. now apply (Hall t Hin).
Qed.

Lemma fetch_grouped_dataset_witness :
  exists data_dict,
    @fetch_stock_data yahoo_close_only ["MSFT"; "AAPL"; "MSFT"] []
    = (Ok (Some data_dict), []) /\
    keys data_dict = ["MSFT"; "AAPL"].
Proof.
  destruct (@fetch_grouped_dataset yahoo_close_only ["MSFT"; "AAPL"; "MSFT"]
              [("AAPL", mkRaw ["Close"] [(1, [Some 10%Q]); (2, [Some 11%Q]); (3, [Some 12%Q])]);
               ("MSFT", mkRaw ["Close"] [(1, [Some 20%Q]); (2, [Some 19%Q]); (3, [Some 21%Q])])]
              [])
    as [data_dict [Hrun [Hkeys _]]].
  - reflexivity.
  - reflexivity.
  - repeat constructor; discriminate.
  - exists data_dict. split; [exact Hrun | exact Hkeys].
Defined.

(** X3.  The fetch is all or nothing: when the grouped download lacks one
    of the requested tickers, no dataset is returned at all; the
    [KeyError] of a missing ticker is shown as the error. *)
Theorem fetch_missing_ticker `{Yahoo} (tickers : list string)
    (groups : list (string * RawFrame)) (log : list event) (t : string) :
  yf_download tickers = DlGrouped groups ->
  download_empty groups = false ->
  In t tickers -> dict_get t groups = None ->
  exists missing,
    In missing tickers /\ dict_get missing groups = None /\
    fetch_stock_data tickers log
    = (Ok None, log ++ [StError (fetch_error tickers (KeyError missing))]).
Proof.
  intros Hdl Hne Hin Hnone. rewrite fetch_stock_data_run, Hdl, Hne.
  destruct (fetch_loop_run groups tickers [] log)
    as [[acc [_ [Hall _]]] | [missing [Hm [Hmnone ->]]]].
  - exfalso. rewrite Forall_forall in Hall. now apply (Hall t Hin).
  - exists missing. split; [exact Hm |]. split; [exact Hmnone | reflexivity].
Qed.

Lemma fetch_missing_ticker_witness :
  @fetch_stock_data yahoo_close_only ["AAPL"; "TSLA"] []
  = (Ok None, [StError "Error fetching data for tickers: ['AAPL', 'TSLA']: 'TSLA'"]).
Proof.
  destruct (@fetch_missing_ticker yahoo_close_only ["AAPL"; "TSLA"]
              [("AAPL", mkRaw ["Close"] [(1, [Some 10%Q]); (2, [Some 11%Q]); (3, [Some 12%Q])]);
               ("MSFT", mkRaw ["Close"] [(1, [Some 20%Q]); (2, [Some 19%Q]); (3, [Some 21%Q])])]
              [] "TSLA")
    as [missing [Hin [Hnone Hrun]]].
  - reflexivity.
  - reflexivity.
  - right. now left.
  - reflexivity.
  - destruct Hin as [<- | [<- | []]]; [discriminate Hnone | exact Hrun].
Defined.

(** ** Alignment, continued *)

Lemma NoDup_keys_filter {V} (f : string * V -> bool) (l : list (string * V)) :
  NoDup (keys l) -> NoDup (keys (filter f l)).
Proof.
  unfold keys. induction l as [|x l IH]; simpl; [constructor |].
  intros Hnd. inversion Hnd as [|? ? Hnotin Hnd']; subst.
  destruct (f x); simpl; [| now apply IH].
  constructor; [| now apply IH].
  intros Hin. apply Hnotin. apply in_map_iff in Hin as [y [Hy Hin]].
  apply filter_In in Hin as [Hin _]. apply in_map_iff. now exists y.
Qed.

Lemma keys_trimmed (mask : date -> bool) (d : TickerDataset) :
  keys (map (fun item => (fst item, select_rows mask (snd item))) d) = keys d.
Proof. unfold keys. rewrite map_map. reflexivity. Qed.

Lemma drop_empty_nonempty (d : TickerDataset) :
  Forall (fun item => df_empty (snd item) = false) (drop_empty d).
Proof.
  apply Forall_forall. intros item Hin. apply filter_In in Hin as [_ Hne].
  now apply negb_true_iff.
Qed.

(** X4.  The alignment either shows one alignment error and returns the
    empty dictionary, or it shows nothing and returns a dictionary that is
    not empty, holds no empty series, and has distinct tickers when the
    input has. *)
Theorem alignment_outcome (data_dict : TickerDataset) (option : string)
    (custom_start_date custom_end_date : Datatypes.option date) (log : list event) :
  (exists msg,
      align_stock_data data_dict option custom_start_date custom_end_date log
      = (Ok [], log ++ [StError ("Alignment error: " ++ msg)%string])) \/
  (exists out,
      align_stock_data data_dict option custom_start_date custom_end_date log = (Ok out, log) /\
      out <> [] /\
      Forall (fun item => df_empty (snd item) = false) out /\
      (NoDup (keys data_dict) -> NoDup (keys out))).
Proof.
  remember (align_stock_data data_dict option custom_start_date custom_end_date log)
    as res eqn:Hres.
  unfold align_stock_data, try_except, bind in Hres.
  destruct (trim_stock_data_spec data_dict option custom_start_date custom_end_date log)
    as [[_ [_ Htrim]] | [mask [Htrim _]]]; rewrite Htrim in Hres.
  - left. eexists. rewrite Hres. reflexivity.
  - destruct (drop_empty (map (fun item => (fst item, select_rows mask (snd item))) data_dict))
      as [|item rest] eqn:Hd.
    + left. eexists. rewrite Hres. reflexivity.
    + right. exists (item :: rest). split; [rewrite Hres; reflexivity |].
      split; [discriminate |]. rewrite <- Hd. split; [apply drop_empty_nonempty |].
      intros Hnd. unfold drop_empty. apply NoDup_keys_filter. now rewrite keys_trimmed.
Qed.

(** ** The script: nothing to analyze *)

Lemma tickers_nil (text : string) :
  Forall (fun piece => strip piece = "") (split "," text) -> tickers text = [].
Proof.
  intros Hall. unfold tickers.
  replace (filter (fun t => truthy (strip t)) (split "," text)) with (@nil string);
    [reflexivity |].
  symmetry. induction Hall as [|p ps Hp _ IH]; simpl; [reflexivity |].
  now rewrite Hp.
Qed.

(** X5.  An input made of blanks and commas only names no ticker: the run
    ends at once and shows nothing, whatever the collaborators would
    answer. *)
Theorem blank_input_shows_nothing `{Yahoo} `{NumLib} (text align_option : string)
    (custom_start_date custom_end_date : date) :
  Forall (fun piece => strip piece = "") (split "," text) ->
  run (app text align_option custom_start_date custom_end_date) = (Ok tt, []).
Proof.
  intros Hblank. unfold app, run. now rewrite (tickers_nil text Hblank).
Qed.

Lemma blank_input_shows_nothing_witness :
  run (@app yahoo_offline sample_numlib " , ,," EARLIEST_COMMON 0 0) = (Ok tt, []).
Proof.
  apply (@blank_input_shows_nothing yahoo_offline sample_numlib " , ,," EARLIEST_COMMON 0 0).
  repeat constructor.
Defined.

(** X6.  A failed acquisition ends the run: when the download raises, or
    comes back empty, the only thing shown is the error of the
    acquisition, and the run ends normally. *)
Theorem acquisition_failure_halts `{Yahoo} `{NumLib} (text align_option : string)
    (custom_start_date custom_end_date : date) :
  tickers text <> [] ->
  match yf_download (tickers text) with
  | DlRaises e =>
      run (app text align_option custom_start_date custom_end_date)
      = (Ok tt, [StError (fetch_error (tickers text) e)])
  | DlFlat data =>
      raw_empty data = true ->
      run (app text align_option custom_start_date custom_end_date)
      = (Ok tt, [StError (no_data_error (tickers text))])
  | DlGrouped groups =>
      download_empty groups = true ->
      run (app text align_option custom_start_date custom_end_date)
      = (Ok tt, [StError (no_data_error (tickers text))])
  end.
Proof.
  intros Hne.
  assert (Hrun : forall log,
             fetch_stock_data (tickers text) [] = (Ok None, log) ->
             run (app text align_option custom_start_date custom_end_date) = (Ok tt, log)).
  { intros log Hfetch. unfold app, run. destruct (tickers text) as [|t ts]; [congruence |].
    unfold bind at 1. now rewrite Hfetch. }
  destruct (yf_download (tickers text)) as [e | data | groups] eqn:Hdl.
  - apply Hrun. now rewrite fetch_stock_data_run, Hdl.
  - intros Hempty. apply Hrun. now rewrite fetch_stock_data_run, Hdl, Hempty.
  - intros Hempty. apply Hrun. now rewrite fetch_stock_data_run, Hdl, Hempty.
Qed.

Lemma acquisition_failure_halts_witness :
  run (@app yahoo_offline sample_numlib "aapl" ALL_AVAILABLE 0 0)
  = (Ok tt, [StError "Error fetching data for tickers: ['AAPL']: connection timed out"]).
Proof.
  apply (@acquisition_failure_halts yahoo_offline sample_numlib "aapl" ALL_AVAILABLE 0 0).
  discriminate.
Defined.

(** ** Statistics of one ticker, continued *)

(** The record of the [try] block when it is not empty. *)
Lemma statistics_body_populated `{NumLib} (data : DataFrame) (price_column : string)
    (log : list event) (record : StatsRecord) :
  fst (statistics_body data price_column log) = Ok record ->
  record <> [] ->
  exists start_date end_date cumulative final_value prices,
    index_min data = Some start_date /\
    index_max data = Some end_date /\
    column "Cumulative Return" data = Some cumulative /\
    hd_error (rev (values cumulative)) = Some final_value /\
    column price_column data = Some prices /\
    record =
      [ ("Start Date", VDate start_date);
        ("End Date", VDate end_date);
        ("Years", VNum (round4 (inject_Z (end_date - start_date) / DAYS_PER_YEAR)));
        ("CAGR (%)",
         VNum (round4 ((fpow (final_value + 1)
                             (1 / (inject_Z (end_date - start_date) / DAYS_PER_YEAR)) - 1)
                       * 100)));
        ("Max Drawdown (%)", VNum (round4 (max_drawdown (values prices) * 100)));
        ("Volatility (%)",
         VNum (round4 (std (values (dropna_series (pct_change prices))) * sqrt252 * 100)));
        ("Skewness", VNum (round4 (skew (values (dropna_series (pct_change prices))))));
        ("Excess Kurtosis",
         VNum (round4 (kurtosis (values (dropna_series (pct_change prices))))));
        ("Cumulative Return (%)", VNum (round4 (final_value * 100))) ]%Q.
Proof.
  unfold statistics_body.
  destruct (df_len data <? 2)%nat; [intros [= <-]; congruence |].
  unfold bind, lift_opt, ret, raise.
  destruct (index_min data) as [start_date|]; [| discriminate].
  destruct (index_max data) as [end_date|]; [| discriminate].
  destruct (column "Cumulative Return" data) as [cumulative|]; [| discriminate].
  destruct (hd_error (rev (values cumulative))) as [final_value|] eqn:Hfinal; [| discriminate].
  destruct (Qeq_bool (inject_Z (end_date - start_date) / DAYS_PER_YEAR) 0); [discriminate |].
  destruct (column price_column data) as [prices|]; [| discriminate].
  destruct (List.length (dropna_series (pct_change prices)) <? 2)%nat;
    [intros [= <-]; congruence |].
  intros [= <-] _.
  exists start_date, end_date, cumulative, final_value, prices.
  repeat (split; [reflexivity |]). split; [exact Hfinal |]. split; reflexivity.
Qed.

Lemma column_length (name : string) (data : DataFrame) (s : Series) :
  column name data = Some s -> List.length s = df_len data.
Proof.
  unfold column, df_len. destruct (position name (columns data)); [| discriminate].
  intros [= <-]. apply length_map.
Qed.

Lemma last_of_nonempty {A} (l : list A) :
  l <> [] -> exists x, hd_error (rev l) = Some x.
Proof.
  intros Hne. destruct (rev l) as [|x r] eqn:Hr; [| now exists x].
  apply (f_equal (@rev A)) in Hr. rewrite rev_involutive in Hr. now subst l.
Qed.

Lemma index_bounds_of_rows (data : DataFrame) :
  (1 <= df_len data)%nat ->
  exists s e, index_min data = Some s /\ index_max data = Some e /\ s <= e.
Proof.
  unfold df_len, index_min, index_max, index. destruct (rows data) as [|r rs]; simpl; [lia |].
  intros _. eexists; eexists. split; [reflexivity |]. split; [reflexivity |].
  destruct (fold_left_min_spec (map fst rs) (fst r)) as [_ Hmin].
  destruct (fold_left_max_spec (map fst rs) (fst r)) as [_ Hmax].
  specialize (Hmin (fst r) (or_introl eq_refl)).
  specialize (Hmax (fst r) (or_introl eq_refl)). lia.
Qed.

Lemma years_nonzero (s e : date) :
  e <> s -> Qeq_bool (inject_Z (e - s) / DAYS_PER_YEAR) 0 = false.
Proof.
  intros Hne. destruct (Qeq_bool (inject_Z (e - s) / DAYS_PER_YEAR) 0) eqn:Hz; [| reflexivity].
  exfalso. apply Qeq_bool_eq in Hz.
  unfold Qeq, Qdiv, DAYS_PER_YEAR in Hz. simpl in Hz. lia.
Qed.

(** X7.  A series of at least 2 rows whose first and last dates coincide
    spans 0 years: the division [1 / years] raises, the exception is
    caught, and the result is the empty record with the message of the
    [ZeroDivisionError]. *)
Theorem statistics_zero_span `{NumLib} (data : DataFrame) (price_column : string)
    (log : list event) :
  (2 <= df_len data)%nat ->
  index_min data = index_max data ->
  column "Cumulative Return" data <> None ->
  calculate_statistics data price_column log
  = (Ok [], log ++ [StError "Error calculating statistics: float division by zero"]).
Proof.
  intros Hlen Hspan Hcol. rewrite calculate_statistics_run. unfold statistics_body.
  destruct (Nat.ltb_spec (df_len data) 2); [lia |].
  destruct (index_bounds_of_rows data) as [s [e [Hs [He _]]]]; [lia |].
  rewrite Hs, He in Hspan. injection Hspan as ->.
  unfold bind, lift_opt, ret, raise. rewrite Hs, He.
  destruct (column "Cumulative Return" data) as [cumulative|] eqn:Hc; [| congruence].
  destruct (last_of_nonempty (values cumulative)) as [final_value ->].
  { unfold values. pose proof (column_length _ _ _ Hc) as Hl.
    destruct cumulative; [simpl in Hl; lia | discriminate]. }
  rewrite Z.sub_diag. reflexivity.
Qed.

Lemma statistics_zero_span_witness :
  @calculate_statistics sample_numlib
    (mkDF ["Close"; "Cumulative Return"] [(7, [10%Q; 0%Q]); (7, [11%Q; (1 # 10)%Q])])
    "Close" []
  = (Ok [], [StError "Error calculating statistics: float division by zero"]).
Proof.
  apply (@statistics_zero_span sample_numlib
           (mkDF ["Close"; "Cumulative Return"] [(7, [10%Q; 0%Q]); (7, [11%Q; (1 # 10)%Q])])
           "Close" []).
  - unfold df_len. simpl. lia.
  - reflexivity.
  - discriminate.
Defined.

(** X8.  A column that is missing is a caught [KeyError].  On a series of
    at least 2 rows the result is the empty record with the name of the
    column as the message: ['Cumulative Return'] when the frame was not
    annotated, and otherwise, for a span that is not 0, the price column
    asked for. *)
Theorem statistics_missing_column `{NumLib} (data : DataFrame) (price_column : string)
    (log : list event) :
  (2 <= df_len data)%nat ->
  (column "Cumulative Return" data = None ->
   calculate_statistics data price_column log
   = (Ok [], log ++ [StError "Error calculating statistics: 'Cumulative Return'"])) /\
  (column "Cumulative Return" data <> None ->
   index_min data <> index_max data ->
   column price_column data = None ->
   calculate_statistics data price_column log
   = (Ok [], log ++ [StError ("Error calculating statistics: '" ++ price_column ++ "'")%string])).
Proof.
  intros Hlen.
  destruct (index_bounds_of_rows data) as [s [e [Hs [He Hse]]]]; [lia |].
  split.
  - intros Hc. rewrite calculate_statistics_run. unfold statistics_body.
    destruct (Nat.ltb_spec (df_len data) 2); [lia |].
    unfold bind, lift_opt, ret, raise. now rewrite Hs, He, Hc.
  - intros Hc Hspan Hp. rewrite calculate_statistics_run. unfold statistics_body.
    destruct (Nat.ltb_spec (df_len data) 2); [lia |].
    unfold bind, lift_opt, ret, raise. rewrite Hs, He.
    destruct (column "Cumulative Return" data) as [cumulative|] eqn:Hcum; [| congruence].
    destruct (last_of_nonempty (values cumulative)) as [final_value ->].
    { unfold values. pose proof (column_length _ _ _ Hcum) as Hl.
      destruct cumulative; [simpl in Hl; lia | discriminate]. }
    rewrite years_nonzero; [now rewrite Hp |].
    intros ->. apply Hspan. now rewrite Hs, He.
Qed.

Lemma statistics_missing_column_witness :
  @calculate_statistics sample_numlib
    (mkDF ["Close"] [(1, [10%Q]); (2, [11%Q])]) "Close" []
  = (Ok [], [StError "Error calculating statistics: 'Cumulative Return'"]).
Proof.
  apply (@statistics_missing_column sample_numlib
           (mkDF ["Close"] [(1, [10%Q]); (2, [11%Q])]) "Close" []).
  - unfold df_len. simpl. lia.
  - reflexivity.
Defined.

Lemma returns_length_from (prev : Q) (s : Series) :
  ~ (prev == 0)%Q -> Forall (fun p => ~ (p == 0)%Q) (values s) ->
  List.length (dropna_series (pct_change_from prev s)) = List.length s.
Proof.
  revert prev; induction s as [|[d p] s IH]; intros prev Hprev Hall; [reflexivity |].
  inversion Hall as [|? ? Hp Hrest]; subst. simpl.
  destruct (Qeq_bool prev 0) eqn:Hz; [apply Qeq_bool_eq in Hz; contradiction |].
  simpl. now rewrite IH.
Qed.

Lemma returns_length (s : Series) :
  Forall (fun p => ~ (p == 0)%Q) (values s) ->
  List.length (dropna_series (pct_change s)) = pred (List.length s).
Proof.
  destruct s as [|[d p] s]; [reflexivity |].
  intros Hall. inversion Hall as [|? ? Hp Hrest]; subst. simpl.
  now apply returns_length_from.
Qed.

(** Past the two guards and the three lookups the record is built, and
    nothing is shown. *)
Lemma statistics_record_populated `{NumLib} (data : DataFrame) (price_column : string)
    (prices : Series) (log : list event) :
  (3 <= df_len data)%nat ->
  index_min data <> index_max data ->
  column "Cumulative Return" data <> None ->
  column price_column data = Some prices ->
  Forall (fun p => ~ (p == 0)%Q) (values prices) ->
  exists record,
    calculate_statistics data price_column log = (Ok record, log) /\
    populated record.
Proof.
  intros Hlen Hspan Hcum Hprices Hnz.
  rewrite calculate_statistics_run. unfold statistics_body.
  destruct (Nat.ltb_spec (df_len data) 2); [lia |].
  destruct (index_bounds_of_rows data) as [s [e [Hs [He _]]]]; [lia |].
  unfold bind, lift_opt, ret, raise. rewrite Hs, He.
  destruct (column "Cumulative Return" data) as [cumulative|] eqn:Hc; [| congruence].
  destruct (last_of_nonempty (values cumulative)) as [final_value ->].
  { unfold values. pose proof (column_length _ _ _ Hc) as Hl.
    destruct cumulative; [simpl in Hl; lia | discriminate]. }
  rewrite years_nonzero, Hprices.
  2:{ intros ->. apply Hspan. now rewrite Hs, He. }
  rewrite (returns_length prices Hnz), (column_length _ _ _ Hprices).
  destruct (Nat.ltb_spec (pred (df_len data)) 2); [lia |].
  eexists. split; [reflexivity |]. split; [reflexivity |]. eexists. reflexivity.
Qed.

(** X9.  The two guards are the only silent ways out: a series of at
    least 3 rows whose first and last dates differ, with its cumulative
    return column and a price column without a zero, gets the record of
    the nine fields, and nothing is shown. *)
Theorem statistics_populated `{NumLib} (data : DataFrame) (price_column : string)
    (prices : Series) (log : list event) :
  (3 <= df_len data)%nat ->
  index_min data <> index_max data ->
  column "Cumulative Return" data <> None ->
  column price_column data = Some prices ->
  Forall (fun p => ~ (p == 0)%Q) (values prices) ->
  exists record,
    calculate_statistics data price_column log = (Ok record, log) /\
    keys record = STAT_FIELDS.
Proof.
  intros Hlen Hspan Hcum Hprices Hnz.
  destruct (statistics_record_populated data price_column prices log
              Hlen Hspan Hcum Hprices Hnz) as [record [Hrun [Hkeys _]]].
  now exists record.
Qed.

Lemma statistics_populated_witness :
  exists record,
    @calculate_statistics sample_numlib
      (mkDF ["Close"; "Cumulative Return"]
            [(1, [10%Q; 0%Q]); (2, [11%Q; (1 # 10)%Q]); (3, [12%Q; (2 # 10)%Q])])
      "Close" []
    = (Ok record, []) /\
    keys record = STAT_FIELDS.
Proof.
  apply (@statistics_populated sample_numlib
           (mkDF ["Close"; "Cumulative Return"]
                 [(1, [10%Q; 0%Q]); (2, [11%Q; (1 # 10)%Q]); (3, [12%Q; (2 # 10)%Q])])
           "Close" [(1, 10%Q); (2, 11%Q); (3, 12%Q)] []).
  - unfold df_len. simpl. lia.
  - discriminate.
  - discriminate.
  - reflexivity.
  - repeat constructor; discriminate.
Defined.

(** ** Rounding to four decimals, over the rationals *)

Lemma round_half_even_bounds (x : Q) (lo hi : Z) :
  (inject_Z lo <= x <= inject_Z hi)%Q -> lo <= round_half_even x <= hi.
Proof.
  intros [Hlo Hhi]. pose proof (Qfloor_le x) as Hf1. pose proof (Qlt_floor x) as Hf2.
  assert (Hfl : lo <= Qfloor x).
  { apply Z.lt_succ_r. rewrite Zlt_Qlt. unfold Z.succ.
    eapply Qle_lt_trans; [exact Hlo | exact Hf2]. }
  assert (Hfh : Qfloor x <= hi).
  { rewrite Zle_Qle. eapply Qle_trans; [exact Hf1 | exact Hhi]. }
  unfold round_half_even.
  destruct (x - inject_Z (Qfloor x) ?= 1 # 2)%Q eqn:Hcmp; [| lia |].
  - apply Qeq_alt in Hcmp.
    assert (Hlt : Qfloor x < hi).
    { rewrite Zlt_Qlt. qlra. }
    destruct (Z.even (Qfloor x)); lia.
  - apply Qgt_alt in Hcmp.
    assert (Hlt : Qfloor x < hi).
    { rewrite Zlt_Qlt. qlra. }
    lia.
Qed.

Lemma round4_bounds (x : Q) (lo hi : Z) :
  (inject_Z lo <= x <= inject_Z hi)%Q ->
  (inject_Z lo <= round4 x <= inject_Z hi)%Q.
Proof.
  intros [Hlo Hhi]. unfold round4.
  destruct (round_half_even_bounds (x * 10000) (lo * 10000) (hi * 10000)) as [Hl Hh].
  { rewrite !inject_Z_mult. change (inject_Z 10000) with 10000%Q. split; qlra. }
  rewrite Zle_Qle in Hl, Hh. rewrite inject_Z_mult in Hl, Hh.
  change (inject_Z 10000) with 10000%Q in Hl, Hh.
  split.
  - apply Qle_shift_div_l; [reflexivity | exact Hl].
  - apply Qle_shift_div_r; [reflexivity | exact Hh].
Qed.

Lemma drawdowns_from_lower (l : list Q) (m : Q) :
  (0 < m)%Q -> Forall (fun p => (0 < p)%Q) l ->
  Forall (fun x => (-1 <= x)%Q) (drawdowns_from m l).
Proof.
  revert m; induction l as [|p l IH]; intros m Hm Hall; [constructor |].
  inversion Hall as [|? ? Hp Hrest]; subst. rewrite drawdowns_from_cons.
  assert (HM : (0 < Qmax m p)%Q) by (eapply Qlt_le_trans; [exact Hm | apply Q.le_max_l]).
  constructor; [| now apply IH].
  apply Qle_shift_div_l; [exact HM |]. qlra.
Qed.

Lemma max_drawdown_range (prices : list Q) :
  prices <> [] -> Forall (fun p => (0 < p)%Q) prices ->
  (-1 <= max_drawdown prices <= 0)%Q.
Proof.
  intros Hne Hpos. destruct prices as [|p l]; [congruence |].
  inversion Hpos as [|? ? Hp Hl]; subst.
  unfold max_drawdown, drawdowns, cummax. simpl combine. simpl map.
  fold (drawdowns_from p l). unfold series_min.
  set (d0 := ((p - p) / p)%Q).
  assert (Hd0 : (d0 == 0)%Q) by (apply drawdown_zero_iff; [exact Hp | reflexivity]).
  destruct (fold_left_Qmin_le (drawdowns_from p l) d0) as [Hle0 _].
  split; [| now rewrite <- Hd0].
  destruct (fold_left_Qmin_attained (drawdowns_from p l) d0) as [Heq | Hex].
  - rewrite Heq, Hd0. discriminate.
  - apply Exists_exists in Hex as [x [Hx Heq]]. rewrite Heq.
    pose proof (drawdowns_from_lower l p Hp Hl) as Hlow.
    rewrite Forall_forall in Hlow. now apply Hlow.
Qed.

(** X10.  In every record that is not empty, computed from strictly
    positive prices, the ["Max Drawdown (%)"] field is a number between
    -100 and 0. *)
Theorem drawdown_field_bounds `{NumLib} (data : DataFrame) (price_column : string)
    (prices : Series) (record : StatsRecord) (log log' : list event) :
  calculate_statistics data price_column log = (Ok record, log') ->
  record <> [] ->
  column price_column data = Some prices ->
  Forall (fun p => (0 < p)%Q) (values prices) ->
  exists q,
    dict_get "Max Drawdown (%)" record = Some (VNum q) /\ (-100 <= q <= 0)%Q.
Proof.
  intros Hrun Hne Hprices Hpos. rewrite calculate_statistics_run in Hrun.
  destruct (statistics_body data price_column log) as [[r | e] l] eqn:Hbody;
    [| injection Hrun as <- _; congruence].
  injection Hrun as -> _.
  destruct (statistics_body_populated data price_column log record)
    as [s [e [cum [fv [prices' [_ [_ [_ [_ [Hp' ->]]]]]]]]]];
    [now rewrite Hbody | exact Hne |].
  rewrite Hprices in Hp'. injection Hp' as <-.
  eexists. split; [reflexivity |].
  assert (Hrows : values prices <> []).
  { destruct (statistics_body_cases data price_column log) as [_ Hcases].
    destruct (Hcases _ (f_equal fst Hbody)) as [Hnil | [_ [Hlen _]]]; [discriminate |].
    pose proof (column_length _ _ _ Hprices) as Hl. unfold values.
    destruct prices; [simpl in Hl; lia | discriminate]. }
  pose proof (max_drawdown_range (values prices) Hrows Hpos) as [Hlo Hhi].
  apply (round4_bounds (max_drawdown (values prices) * 100) (-100) 0).
  change (inject_Z (-100)) with (-100)%Q. change (inject_Z 0) with 0%Q. split; qlra.
Qed.

Lemma drawdown_field_bounds_witness :
  exists record q,
    @calculate_statistics sample_numlib
      (mkDF ["Close"; "Cumulative Return"]
            [(1, [20%Q; 0%Q]); (2, [15%Q; (-1 # 4)%Q]); (3, [18%Q; (-1 # 10)%Q])])
      "Close" []
    = (Ok record, []) /\
    dict_get "Max Drawdown (%)" record = Some (VNum q) /\ (-100 <= q <= 0)%Q.
Proof.
  assert (Hrun : exists record,
             @calculate_statistics sample_numlib
               (mkDF ["Close"; "Cumulative Return"]
                     [(1, [20%Q; 0%Q]); (2, [15%Q; (-1 # 4)%Q]); (3, [18%Q; (-1 # 10)%Q])])
               "Close" []
             = (Ok record, []) /\ record <> []).
  { eexists. split; [vm_compute; reflexivity | discriminate]. }
  destruct Hrun as [record [Hrun Hne]].
  destruct (@drawdown_field_bounds sample_numlib _ "Close"
              [(1, 20%Q); (2, 15%Q); (3, 18%Q)] record [] [] Hrun Hne) as [q Hq].
  - reflexivity.
  - repeat constructor.
  - exists record, q. split; [exact Hrun | exact Hq].
Defined.

(** ** Ranking *)

Lemma insert_desc_perm (x : string * Q) (l : list (string * Q)) :
  Permutation (insert_desc x l) (x :: l).
Proof.
  induction l as [|y l IH]; simpl; [reflexivity |].
  destruct (Qle_bool (snd y) (snd x)); [reflexivity |].
  rewrite IH. apply perm_swap.
Qed.

Lemma sort_desc_perm (l : list (string * Q)) : Permutation (sort_desc l) l.
Proof.
  induction l as [|x l IH]; simpl; [reflexivity |].
  rewrite insert_desc_perm. now constructor.
Qed.

Lemma insert_desc_sorted (x : string * Q) (l : list (string * Q)) :
  StronglySorted (fun a b => (snd b <= snd a)%Q) l ->
  StronglySorted (fun a b => (snd b <= snd a)%Q) (insert_desc x l).
Proof.
  induction 1 as [|y l Hsorted IH Hall]; simpl; [repeat constructor |].
  destruct (Qle_bool (snd y) (snd x)) eqn:Hle.
  - apply Qle_bool_imp_le in Hle. constructor; [now constructor |].
    constructor; [exact Hle |].
    eapply Forall_impl; [| exact Hall]. intros z Hz. simpl in *. qlra.
  - assert (Hlt : (snd x < snd y)%Q).
    { apply Qnot_le_lt. intros Hc. apply Qle_bool_iff in Hc. congruence. }
    constructor; [exact IH |].
    apply (Permutation_Forall (Permutation_sym (insert_desc_perm x l))).
    constructor; [qlra | exact Hall].
Qed.

Lemma sort_desc_sorted (l : list (string * Q)) :
  StronglySorted (fun a b => (snd b <= snd a)%Q) (sort_desc l).
Proof.
  induction l as [|x l IH]; simpl; [constructor | now apply insert_desc_sorted].
Qed.

(** Insertion keeps the order among items of equal key: the new item comes
    before the older items with its key. *)
Lemma insert_desc_filter (q : Q) (x : string * Q) (l : list (string * Q)) :
  filter (fun y => Qeq_bool (snd y) q) (insert_desc x l)
  = filter (fun y => Qeq_bool (snd y) q) (x :: l).
Proof.
  induction l as [|y l IH]; [reflexivity |].
  cbn [insert_desc]. destruct (Qle_bool (snd y) (snd x)) eqn:Hle; [reflexivity |].
  assert (Hlt : (snd x < snd y)%Q).
  { apply Qnot_le_lt. intros Hc. apply Qle_bool_iff in Hc. congruence. }
  cbn [filter] in *. rewrite IH.
  destruct (Qeq_bool (snd x) q) eqn:Hx; [| reflexivity].
  destruct (Qeq_bool (snd y) q) eqn:Hy; [| reflexivity].
  apply Qeq_bool_eq in Hx, Hy. exfalso. qlra.
Qed.

Lemma sort_desc_filter (q : Q) (l : list (string * Q)) :
  filter (fun y => Qeq_bool (snd y) q) (sort_desc l)
  = filter (fun y => Qeq_bool (snd y) q) l.
Proof.
  induction l as [|x l IH]; [reflexivity |].
  cbn [sort_desc]. rewrite insert_desc_filter. cbn [filter]. now rewrite IH.
Qed.

(** The key function of the ranking on one ticker. *)
Lemma rank_key_run (stats_dict : list (string * StatsRecord)) (x : string)
    (log : list event) :
  (record <- dict_item x stats_dict ;;
   v <- dict_item "Cumulative Return (%)" record ;;
   q <- as_number v ;;
   ret (x, q)) log
  = match dict_get x stats_dict with
    | None => (Raise (KeyError x), log)
    | Some record =>
        match dict_get RETURN_FIELD record with
        | None => (Raise (KeyError RETURN_FIELD), log)
        | Some (VNum q) => (Ok (x, q), log)
        | Some (VDate _) => (Raise (OtherError "TypeError"), log)
        end
    end.
Proof.
  unfold bind, dict_item, lift_opt, ret, raise, RETURN_FIELD.
  destruct (dict_get x stats_dict) as [record|]; [| reflexivity].
  destruct (dict_get "Cumulative Return (%)" record) as [[d | q]|]; reflexivity.
Qed.

Lemma rank_keys_ok (stats_dict : list (string * StatsRecord)) (l : list string)
    (log : list event) :
  Forall (fun t => return_key stats_dict t <> None) l ->
  exists keyed,
    map_m (fun x =>
             record <- dict_item x stats_dict ;;
             v <- dict_item "Cumulative Return (%)" record ;;
             q <- as_number v ;;
             ret (x, q)) l log = (Ok keyed, log) /\
    map fst keyed = l /\
    Forall (fun tk => return_key stats_dict (fst tk) = Some (snd tk)) keyed.
Proof.
  induction 1 as [|t l Ht _ [keyed [Hrun [Hfst Hkeys]]]].
  - exists []. repeat split. constructor.
  - rewrite map_m_cons_run, rank_key_run. unfold return_key in Ht.
    destruct (dict_get t stats_dict) as [record|] eqn:Hrec; [| congruence].
    destruct (dict_get RETURN_FIELD record) as [[d | q]|] eqn:Hfield; try congruence.
    rewrite Hrun.
    exists ((t, q) :: keyed). split; [reflexivity |]. split; [simpl; now rewrite Hfst |].
    constructor; [| exact Hkeys]. unfold return_key. simpl. now rewrite Hrec, Hfield.
Qed.

Lemma ranks_before_of_keyed (stats_dict : list (string * StatsRecord))
    (l : list (string * Q)) :
  Forall (fun tk => return_key stats_dict (fst tk) = Some (snd tk)) l ->
  StronglySorted (fun a b => (snd b <= snd a)%Q) l ->
  StronglySorted (ranks_before stats_dict) (map fst l).
Proof.
  intros Hkeys Hsorted. induction Hsorted as [|x l _ IH Hall]; simpl; [constructor |].
  inversion Hkeys as [|? ? Hx Hrest]; subst.
  constructor; [now apply IH |].
  apply Forall_map, Forall_forall. intros y Hy.
  rewrite Forall_forall in Hall, Hrest.
  exists (snd x), (snd y). split; [exact Hx |]. split; [now apply Hrest | now apply Hall].
Qed.

Lemma filter_keyed (stats_dict : list (string * StatsRecord)) (q : Q)
    (l : list (string * Q)) :
  Forall (fun tk => return_key stats_dict (fst tk) = Some (snd tk)) l ->
  filter (has_return stats_dict q) (map fst l)
  = map fst (filter (fun y => Qeq_bool (snd y) q) l).
Proof.
  induction 1 as [|x l Hx _ IH]; [reflexivity |].
  simpl. unfold has_return at 1. rewrite Hx, IH.
  now destruct (Qeq_bool (snd x) q).
Qed.

(** X11.  When every ticker of the statistics has a numeric cumulative
    return, the ranking returns silently a permutation of the tickers, in
    descending order of that number, and stable: tickers with the same
    number keep the order they have in the dictionary. *)
Theorem ranking_sorted_stable (stats_dict : list (string * StatsRecord))
    (log : list event) :
  Forall (fun t => return_key stats_dict t <> None) (keys stats_dict) ->
  exists ranked,
    sorted_by_return stats_dict log = (Ok ranked, log) /\
    Permutation ranked (keys stats_dict) /\
    StronglySorted (ranks_before stats_dict) ranked /\
    forall q, filter (has_return stats_dict q) ranked
              = filter (has_return stats_dict q) (keys stats_dict).
Proof.
  intros Hall. unfold sorted_by_return.
  destruct (rank_keys_ok stats_dict (keys stats_dict) log Hall)
    as [keyed [Hrun [Hfst Hkeys]]].
  unfold bind at 1. rewrite Hrun. unfold ret.
  exists (map fst (sort_desc keyed)). split; [reflexivity |].
  assert (Hsorted_keys : Forall (fun tk => return_key stats_dict (fst tk) = Some (snd tk))
                                (sort_desc keyed)).
  { apply (Permutation_Forall (Permutation_sym (sort_desc_perm keyed))). exact Hkeys. }
  split; [| split].
  - rewrite <- Hfst. apply Permutation_map, sort_desc_perm.
  - apply ranks_before_of_keyed; [exact Hsorted_keys | apply sort_desc_sorted].
  - intros q. rewrite <- Hfst.
    rewrite (filter_keyed stats_dict q _ Hsorted_keys), (filter_keyed stats_dict q _ Hkeys).
    now rewrite sort_desc_filter.
Qed.

Lemma ranking_sorted_stable_witness :
  sorted_by_return sample_stats [] = (Ok ["B"; "A"; "C"], []).
Proof.
  destruct (ranking_sorted_stable sample_stats []) as [ranked [Hrun _]].
  - repeat constructor; discriminate.
  - rewrite Hrun. vm_compute in Hrun. now injection Hrun as <-.
Defined.

Lemma rank_keys_raise (stats_dict : list (string * StatsRecord)) (l : list string)
    (log : list event) :
  Forall (fun t => exists record,
              dict_get t stats_dict = Some record /\
              forall d, dict_get RETURN_FIELD record <> Some (VDate d)) l ->
  (exists t, In t l /\ return_key stats_dict t = None) ->
  map_m (fun x =>
           record <- dict_item x stats_dict ;;
           v <- dict_item "Cumulative Return (%)" record ;;
           q <- as_number v ;;
           ret (x, q)) l log = (Raise (KeyError RETURN_FIELD), log).
Proof.
  induction 1 as [|x l [record [Hrec Hnum]] Hrest IH]; intros [t [Hin Hnone]]; [destruct Hin |].
  rewrite map_m_cons_run, rank_key_run, Hrec.
  destruct (dict_get RETURN_FIELD record) as [[d | q]|] eqn:Hfield;
    [exfalso; now apply (Hnum d) | | reflexivity].
  destruct Hin as [-> | Hin].
  - unfold return_key in Hnone. rewrite Hrec, Hfield in Hnone. discriminate.
  - rewrite IH; [reflexivity | now exists t].
Qed.

Lemma dict_get_of_key {V} (t : string) (d : list (string * V)) :
  In t (keys d) -> exists v, dict_get t d = Some v /\ In (t, v) d.
Proof.
  intros Hin. destruct (In_position t (keys d) Hin) as [i Hi].
  destruct (position_keys_dict_get t d i Hi) as [v [_ Hget]].
  exists v. split; [exact Hget | now apply dict_get_In].
Qed.

(** X12.  The ranking has no guard for an empty record: when the records
    hold numbers under ["Cumulative Return (%)"] but the record of some
    ticker lacks that field, the ranking raises the [KeyError] of the
    field, and shows nothing. *)
Theorem ranking_key_error (stats_dict : list (string * StatsRecord)) (log : list event)
    (ticker : string) (record : StatsRecord) :
  Forall (fun item => forall d, dict_get RETURN_FIELD (snd item) <> Some (VDate d)) stats_dict ->
  dict_get ticker stats_dict = Some record ->
  dict_get RETURN_FIELD record = None ->
  sorted_by_return stats_dict log = (Raise (KeyError "Cumulative Return (%)"), log).
Proof.
  intros Hnum Hget Hfield. unfold sorted_by_return. unfold bind at 1.
  rewrite (rank_keys_raise stats_dict (keys stats_dict) log); [reflexivity | |].
  - apply Forall_forall. intros t Ht.
    destruct (dict_get_of_key t stats_dict Ht) as [r [Hr Hin]].
    exists r. split; [exact Hr |].
    rewrite Forall_forall in Hnum. exact (Hnum (t, r) Hin).
  - exists ticker. split.
    + apply dict_get_In in Hget. unfold keys. apply in_map_iff. now exists (ticker, record).
    + unfold return_key. now rewrite Hget, Hfield.
Qed.

Lemma ranking_key_error_witness :
  sorted_by_return [("A", [(RETURN_FIELD, VNum 5)]); ("C", [])] []
  = (Raise (KeyError "Cumulative Return (%)"), []).
Proof.
  apply (ranking_key_error [("A", [(RETURN_FIELD, VNum 5)]); ("C", [])] [] "C" []).
  - repeat constructor; simpl; intros d; discriminate.
  - reflexivity.
  - reflexivity.
Defined.

(** ** Correlation, continued *)

Lemma position_mem (c : string) (cols : list string) :
  position c cols <> None <-> mem c cols = true.
Proof.
  split.
  - induction cols as [|x cols IH]; simpl; [congruence |].
    destruct (String.eqb c x); simpl; [reflexivity |].
    destruct (position c cols); [intros _; now apply IH | congruence].
  - intros Hmem. destruct (mem_position c cols Hmem) as [i ->]. discriminate.
Qed.

Lemma daily_returns_frame_keys (data_dict : TickerDataset) (t : string) :
  In t (keys (daily_returns_frame data_dict)) <-> has_adj_close data_dict t.
Proof.
  unfold keys, daily_returns_frame, has_adj_close. rewrite in_map_iff. split.
  - intros [[t' s] [Heq Hin]]. simpl in Heq. subst t'.
    apply in_flat_map in Hin as [[t' data] [Hd Hs]]. simpl in Hs.
    destruct (column "Adj Close" data) as [prices|] eqn:Hcol; [| destruct Hs].
    destruct Hs as [[= <- _] | []]. exists data. split; [exact Hd |].
    apply position_mem. unfold column in Hcol.
    destruct (position "Adj Close" (columns data)); [discriminate | discriminate].
  - intros [data [Hd Hmem]]. destruct (mem_position _ _ Hmem) as [i Hi].
    eexists (t, _). split; [reflexivity |].
    apply in_flat_map. exists (t, data). split; [exact Hd |].
    simpl. unfold column. rewrite Hi. now left.
Qed.

Lemma dict_get_some_iff_key {V} (t : string) (d : list (string * V)) :
  dict_get t d <> None <-> In t (keys d).
Proof.
  split.
  - destruct (dict_get t d) as [v|] eqn:Hget; [intros _ | congruence].
    apply dict_get_In in Hget. unfold keys. apply in_map_iff. now exists (t, v).
  - intros Hin. destruct (dict_get_of_key t d Hin) as [v [-> _]]. discriminate.
Qed.

(** X13.  The correlation table comes back exactly when every ranked
    ticker has a series with an ['Adj Close'] column.  When one has not,
    the call raises a [KeyError] and shows nothing: a ticker that only has
    ['Close'] is ranked but cannot be correlated. *)
Theorem correlation_table_defined (data_dict : TickerDataset)
    (sorted_tickers : list string) (log : list event) :
  (Forall (has_adj_close data_dict) sorted_tickers ->
   exists m, calculate_correlation_table data_dict sorted_tickers log = (Ok m, log)) /\
  (~ Forall (has_adj_close data_dict) sorted_tickers ->
   exists labels,
     calculate_correlation_table data_dict sorted_tickers log
     = (Raise (KeyError labels), log)).
Proof.
  destruct (calculate_correlation_table_spec data_dict sorted_tickers log)
    as [[m [Hrun [_ [_ [_ [_ Hentry]]]]]] | [r [Hin [Hnone Hrun]]]].
  - split; [intros _; now exists m |].
    intros Hnot. exfalso. apply Hnot. apply Forall_forall. intros r Hr.
    destruct (Hentry r r Hr Hr) as [sr [_ [Hget _]]].
    apply daily_returns_frame_keys, dict_get_some_iff_key. congruence.
  - assert (Hmiss : ~ has_adj_close data_dict r).
    { intros Hhas. apply daily_returns_frame_keys, dict_get_some_iff_key in Hhas. congruence. }
    split.
    + intros Hall. exfalso. apply Hmiss. rewrite Forall_forall in Hall. now apply Hall.
    + intros _. now exists r.
Qed.

Section DoubleRounding.
Local Open Scope R_scope.

Lemma Rround4_idem (x : R) : Rround4 (Rround4 x) = Rround4 x.
Proof.
  unfold Rround4 at 1.
  replace (Rround4 x * 10000) with (IZR (Rround_half_even (x * 10000)))
    by (unfold Rround4; field).
  now rewrite Rround_half_even_IZR.
Qed.

End DoubleRounding.

Lemma matrix_round_idem (m : Matrix) : matrix_round (matrix_round m) = matrix_round m.
Proof.
  unfold matrix_round. simpl. f_equal. rewrite map_map. apply map_ext. intros row.
  rewrite map_map. apply map_ext. intros [x|]; simpl; [| reflexivity].
  now rewrite Rround4_idem.
Qed.

(** X14.  Rounding twice is rounding once: the table that the script
    rounds again before it shows it (line 227) is the table that
    [calculate_correlation_table] returned. *)
Theorem correlation_table_rounded_once (data_dict : TickerDataset)
    (sorted_tickers : list string) (m : Matrix) (log log' : list event) :
  calculate_correlation_table data_dict sorted_tickers log = (Ok m, log') ->
  matrix_round m = m.
Proof.
  unfold calculate_correlation_table, bind.
  destruct (loc (corr (daily_returns_frame data_dict)) sorted_tickers sorted_tickers log)
    as [[m0 | e] l]; [| discriminate].
  unfold ret. intros [= <- _]. apply matrix_round_idem.
Qed.

Lemma correlation_table_rounded_once_witness :
  exists m,
    calculate_correlation_table flat_and_rising ["UP"; "FLAT"] [] = (Ok m, []) /\
    matrix_round m = m.
Proof.
  destruct (calculate_correlation_table_spec flat_and_rising ["UP"; "FLAT"] [])
    as [[m [Hrun _]] | [r [Hin [Hnone _]]]].
  - exists m. split; [exact Hrun |].
    exact (correlation_table_rounded_once flat_and_rising ["UP"; "FLAT"] m [] [] Hrun).
  - exfalso. destruct Hin as [<- | [<- | []]]; vm_compute in Hnone; discriminate.
Defined.

(** ** Descriptions *)

Lemma ticker_info_fold `{Yahoo} (tickers : list string) (acc : list (string * string)) :
  keys (fold_left (fun info ticker => dict_set ticker (description ticker) info) tickers acc)
  = fold_left (fun a t => if mem t a then a else a ++ [t]) tickers (keys acc) /\
  forall t,
    In t tickers \/ dict_get t acc = Some (description t) ->
    dict_get t (fold_left (fun info ticker => dict_set ticker (description ticker) info)
                          tickers acc)
    = Some (description t).
Proof.
  revert acc; induction tickers as [|t0 ts IH]; intros acc; simpl.
  - split; [reflexivity |]. intros t [[] | Hacc]. exact Hacc.
  - destruct (IH (dict_set t0 (description t0) acc)) as [Hkeys Hget]. split.
    + now rewrite Hkeys, keys_dict_set.
    + intros t Hcase. apply Hget. destruct (String.eqb_spec t t0) as [-> | Hne].
      * right. apply dict_get_set_same.
      * destruct Hcase as [[Heq | Hin] | Hacc]; [congruence | now left |].
        right. now rewrite dict_get_set_other.
Qed.

(** X15.  [fetch_ticker_info] cannot fail: every ticker asked for gets a
    description: the long name, or "No description available" when the
    provider has none, or the text of the exception of the provider.  The
    keys are the tickers asked for, each once, in the order asked. *)
Theorem ticker_info_total `{Yahoo} (tickers : list string) :
  keys (fetch_ticker_info tickers) = first_occurrences tickers /\
  forall t, In t tickers -> dict_get t (fetch_ticker_info tickers) = Some (description t).
Proof.
  destruct (ticker_info_fold tickers []) as [Hkeys Hget].
  split; [exact Hkeys |]. intros t Hin. apply Hget. now left.
Qed.

(** ** The chart *)

Lemma min_from_somes (l : list (Datatypes.option date)) (c : date) :
  min_from (Some c) l = Some (fold_left Z.min (somes l) c).
Proof.
  revert c; induction l as [|[y|] l IH]; intros c; simpl; [reflexivity | | apply IH].
  unfold ts_lt, ts_gt. destruct (Z.ltb_spec y c).
  - rewrite IH. now rewrite Z.min_r by lia.
  - rewrite IH. now rewrite Z.min_l by lia.
Qed.

Lemma index_max_some (data : DataFrame) (m : date) :
  index_max data = Some m -> In m (index data) /\ forall d, In d (index data) -> d <= m.
Proof.
  unfold index_max. destruct (index data) as [|d ds]; [discriminate |].
  intros [= <-]. apply fold_left_max_spec.
Qed.

Lemma index_of_rows (data : DataFrame) :
  rows data <> [] ->
  exists lo hi, index_min data = Some lo /\ index_max data = Some hi.
Proof.
  unfold index_min, index_max, index. destruct (rows data); [congruence |].
  intros _. simpl. now eexists; eexists.
Qed.

Lemma somes_all {A B} (f : A -> Datatypes.option B) (g : A -> B) (l : list A) :
  Forall (fun a => f a = Some (g a)) l -> somes (map f l) = map g l.
Proof.
  induction 1 as [|a l Ha _ IH]; simpl; [reflexivity |]. now rewrite Ha, IH.
Qed.

(** The span that the chart computes over a dataset of series with rows. *)
Lemma chart_span (data_dict : TickerDataset) (log : list event) :
  data_dict <> [] ->
  Forall (fun item => rows (snd item) <> []) data_dict ->
  exists lo hi,
    py_max (map (fun item => index_max (snd item)) data_dict) log = (Ok (Some hi), log) /\
    py_min (map (fun item => index_min (snd item)) data_dict) log = (Ok (Some lo), log) /\
    spans data_dict lo hi.
Proof.
  intros Hne Hrows.
  assert (Hbounds : Forall (fun item : string * DataFrame =>
                              exists lo hi, index_min (snd item) = Some lo /\
                                            index_max (snd item) = Some hi) data_dict).
  { eapply Forall_impl; [| exact Hrows]. intros item. apply index_of_rows. }
  destruct data_dict as [|item rest]; [congruence |].
  inversion Hbounds as [|? ? [lo0 [hi0 [Hlo0 Hhi0]]] Hrest]; subst.
  unfold py_max, py_min, ret. cbn [map]. rewrite Hlo0, Hhi0, max_from_somes, min_from_somes.
  eexists; eexists. split; [reflexivity |]. split; [reflexivity |].
  set (maxs := somes (map (fun it : string * DataFrame => index_max (snd it)) rest)).
  set (mins := somes (map (fun it : string * DataFrame => index_min (snd it)) rest)).
  destruct (fold_left_max_spec maxs hi0) as [Hmax_in Hmax_ub].
  destruct (fold_left_min_spec mins lo0) as [Hmin_in Hmin_lb].
  assert (Hof_max : forall m, In m (hi0 :: maxs) ->
                              exists it, In it (item :: rest) /\ index_max (snd it) = Some m).
  { intros m [<- | Hm]; [exists item; split; [now left | exact Hhi0] |].
    apply in_somes, in_map_iff in Hm as [it [Hit Hin]]. exists it. split; [now right | exact Hit]. }
  assert (Hof_min : forall m, In m (lo0 :: mins) ->
                              exists it, In it (item :: rest) /\ index_min (snd it) = Some m).
  { intros m [<- | Hm]; [exists item; split; [now left | exact Hlo0] |].
    apply in_somes, in_map_iff in Hm as [it [Hit Hin]]. exists it. split; [now right | exact Hit]. }
  unfold spans, all_dates. split; [| split].
  - destruct (Hof_min _ Hmin_in) as [it [Hit Hm]].
    apply in_flat_map. exists it. split; [exact Hit | now apply index_min_some].
  - destruct (Hof_max _ Hmax_in) as [it [Hit Hm]].
    apply in_flat_map. exists it. split; [exact Hit | now apply index_max_some].
  - intros d Hd. apply in_flat_map in Hd as [it [Hit Hd]].
    rewrite Forall_forall in Hbounds.
    destruct (Hbounds it Hit) as [lo [hi [Hlo Hhi]]].
    destruct (index_min_some _ _ Hlo) as [_ Hlb]. destruct (index_max_some _ _ Hhi) as [_ Hub].
    specialize (Hlb d Hd). specialize (Hub d Hd).
    assert (Hlo_in : In lo (lo0 :: mins)).
    { destruct Hit as [<- | Hit]; [left; congruence |].
      right. apply in_somes, in_map_iff. now exists it. }
    assert (Hhi_in : In hi (hi0 :: maxs)).
    { destruct Hit as [<- | Hit]; [left; congruence |].
      right. apply in_somes, in_map_iff. now exists it. }
    specialize (Hmin_lb lo Hlo_in). specialize (Hmax_ub hi Hhi_in). lia.
Qed.

Lemma trace_run (data_dict : TickerDataset) (stats_dict : list (string * StatsRecord))
    (ticker : string) (log : list event) :
  (data <- dict_item ticker data_dict ;;
   y <- lift_opt (column "Cumulative Return" data) (KeyError "Cumulative Return") ;;
   record <- dict_item ticker stats_dict ;;
   total <- dict_item "Cumulative Return (%)" record ;;
   ret (ticker, total, y)) log
  = match dict_get ticker data_dict with
    | None => (Raise (KeyError ticker), log)
    | Some data =>
        match column "Cumulative Return" data with
        | None => (Raise (KeyError "Cumulative Return"), log)
        | Some y =>
            match dict_get ticker stats_dict with
            | None => (Raise (KeyError ticker), log)
            | Some record =>
                match dict_get RETURN_FIELD record with
                | None => (Raise (KeyError RETURN_FIELD), log)
                | Some total => (Ok (ticker, total, y), log)
                end
            end
        end
    end.
Proof.
  unfold bind, dict_item, lift_opt, ret, raise, RETURN_FIELD.
  destruct (dict_get ticker data_dict) as [data|]; [| reflexivity].
  destruct (column "Cumulative Return" data) as [y|]; [| reflexivity].
  destruct (dict_get ticker stats_dict) as [record|]; [| reflexivity].
  destruct (dict_get "Cumulative Return (%)" record); reflexivity.
Qed.

Lemma chart_traces_run (data_dict : TickerDataset) (stats_dict : list (string * StatsRecord))
    (sorted_tickers : list string) (log : list event) :
  Forall (chartable data_dict stats_dict) sorted_tickers ->
  exists traces,
    map_m (fun ticker =>
             data <- dict_item ticker data_dict ;;
             y <- lift_opt (column "Cumulative Return" data) (KeyError "Cumulative Return") ;;
             record <- dict_item ticker stats_dict ;;
             total <- dict_item "Cumulative Return (%)" record ;;
             ret (ticker, total, y)) sorted_tickers log = (Ok traces, log) /\
    Forall2 (is_trace data_dict stats_dict) sorted_tickers traces.
Proof.
  induction 1 as [|t ts [data [y [record [total [Hd [Hy [Hr Ht]]]]]]] _ [traces [Hrun Hall]]].
  - exists []. split; [reflexivity | constructor].
  - rewrite map_m_cons_run, trace_run, Hd, Hy, Hr, Ht, Hrun.
    exists ((t, total, y) :: traces). split; [reflexivity |].
    constructor; [| exact Hall]. exists data, record. now repeat split.
Qed.

(** X16.  The chart.  For a dataset of series with rows, and ranked
    tickers that each have a frame with cumulative returns and a record
    with a total, exactly one chart is shown: one trace per ranked ticker,
    in the rank order, made of the name, the total and the cumulative
    returns of that ticker; the axis has 2 decimals when the whole dataset
    spans less than 30 days, and none otherwise. *)
Theorem chart_of_ranked_tickers (data_dict : TickerDataset)
    (stats_dict : list (string * StatsRecord)) (sorted_tickers : list string)
    (log : list event) :
  data_dict <> [] ->
  Forall (fun item => rows (snd item) <> []) data_dict ->
  Forall (chartable data_dict stats_dict) sorted_tickers ->
  exists lo hi traces,
    spans data_dict lo hi /\
    Forall2 (is_trace data_dict stats_dict) sorted_tickers traces /\
    plot_cumulative_returns data_dict stats_dict sorted_tickers log
    = (Ok tt, log ++ [StPlotlyChart (if hi - lo <? 30 then ".2%" else ".0%") traces]).
Proof.
  intros Hne Hrows Hchart.
  destruct (chart_span data_dict log Hne Hrows) as [lo [hi [Hmax [Hmin Hspan]]]].
  destruct (chart_traces_run data_dict stats_dict sorted_tickers log Hchart)
    as [traces [Hrun Htraces]].
  exists lo, hi, traces. split; [exact Hspan |]. split; [exact Htraces |].
  unfold plot_cumulative_returns. unfold bind at 1. rewrite Hmax.
  unfold bind at 1. rewrite Hmin. unfold bind at 1. rewrite Hrun. reflexivity.
Qed.

Lemma chart_of_ranked_tickers_witness :
  exists traces,
    plot_cumulative_returns
      [("A", mkDF ["Close"; "Cumulative Return"] [(1, [10%Q; 0%Q]); (40, [12%Q; (1 # 5)%Q])])]
      [("A", [(RETURN_FIELD, VNum 20)])] ["A"] []
    = (Ok tt, [StPlotlyChart ".0%" traces]).
Proof.
  destruct (chart_of_ranked_tickers
              [("A", mkDF ["Close"; "Cumulative Return"]
                          [(1, [10%Q; 0%Q]); (40, [12%Q; (1 # 5)%Q])])]
              [("A", [(RETURN_FIELD, VNum 20)])] ["A"] [])
    as [lo [hi [traces [Hspan [_ Hrun]]]]].
  - discriminate.
  - repeat constructor; discriminate.
  - repeat constructor. eexists; eexists; eexists; eexists. repeat split; reflexivity.
  - exists traces. rewrite Hrun. simpl app.
    destruct Hspan as [Hlo [Hhi Hall]]. simpl in Hlo, Hhi.
    assert (Hspan := conj (Hall 1 (or_introl eq_refl)) (Hall 40 (or_intror (or_introl eq_refl)))).
    destruct (Z.ltb_spec (hi - lo) 30); [lia | reflexivity].
Defined.

(** ** Writing and reading a column *)

Lemma position_lt (name : string) (cols : list string) (i : nat) :
  position name cols = Some i -> (i < List.length cols)%nat.
Proof.
  revert i; induction cols as [|c cols IH]; intros i; simpl; [discriminate |].
  destruct (String.eqb name c); [intros [= <-]; lia |].
  destruct (position name cols) as [j|]; [| discriminate].
  intros [= <-]. specialize (IH j eq_refl). lia.
Qed.

Lemma position_inj (a b : string) (cols : list string) (i : nat) :
  position a cols = Some i -> position b cols = Some i -> a = b.
Proof.
  intros Ha Hb. apply position_nth_error in Ha, Hb. congruence.
Qed.

Lemma position_app_new (name : string) (cols : list string) :
  position name cols = None -> position name (cols ++ [name]) = Some (List.length cols).
Proof.
  induction cols as [|c cols IH]; simpl; [now rewrite String.eqb_refl |].
  destruct (String.eqb name c); [discriminate |].
  destruct (position name cols); [discriminate |].
  intros _. now rewrite IH.
Qed.

Lemma position_app_old (name other : string) (cols : list string) :
  other <> name -> position other (cols ++ [name]) = position other cols.
Proof.
  intros Hne. induction cols as [|c cols IH]; simpl.
  - destruct (String.eqb_spec other name); [congruence | reflexivity].
  - destruct (String.eqb other c); [reflexivity | now rewrite IH].
Qed.

Lemma nth_replace_same {A} (i : nat) (a d : A) (l : list A) :
  (i < List.length l)%nat -> nth i (replace_nth i a l) d = a.
Proof.
  revert i; induction l as [|x l IH]; intros i Hi; simpl in *; [lia |].
  destruct i; simpl; [reflexivity | apply IH; lia].
Qed.

Lemma nth_replace_other {A} (i j : nat) (a d : A) (l : list A) :
  i <> j -> nth j (replace_nth i a l) d = nth j l d.
Proof.
  revert i j; induction l as [|x l IH]; intros i j Hne; simpl; [now destruct i |].
  destruct i, j; simpl; try reflexivity; try congruence. apply IH. congruence.
Qed.

Lemma map_combine_fst {A B C} (f : A -> C) (l : list A) (vals : list B) :
  List.length vals = List.length l ->
  map (fun rv => f (fst rv)) (combine l vals) = map f l.
Proof.
  revert vals; induction l as [|x l IH]; intros vals Hlen; [reflexivity |].
  destruct vals as [|v vals]; [discriminate |]. simpl. f_equal. apply IH.
  simpl in Hlen. lia.
Qed.

Lemma map_combine_snd {A B} (l : list (date * A)) (vals : list B) :
  map (fun rv => (fst (fst rv), snd rv)) (combine l vals) = combine (map fst l) vals.
Proof.
  revert vals; induction l as [|x l IH]; intros vals; [reflexivity |].
  destruct vals as [|v vals]; [reflexivity |]. simpl. now rewrite IH.
Qed.

Lemma map_combine_ext {A B C} (f g : A * B -> C) (l : list A) (vals : list B) :
  (forall a b, In a l -> f (a, b) = g (a, b)) ->
  map f (combine l vals) = map g (combine l vals).
Proof.
  intros Hext. apply map_ext_in. intros [a b] Hin. apply Hext.
  now apply in_combine_l in Hin.
Qed.

(** The column written is the column read back. *)
Lemma column_set_same (name : string) (vals : list Q) (data : DataFrame) :
  wf_frame data ->
  column name (set_column name vals data) = Some (combine (index data) vals).
Proof.
  intros Hwf. unfold wf_frame in Hwf. rewrite Forall_forall in Hwf.
  unfold set_column, index.
  destruct (position name (columns data)) as [i|] eqn:Hpos; unfold column; simpl.
  - rewrite Hpos. f_equal. rewrite map_map. rewrite <- map_combine_snd.
    apply map_combine_ext. intros r v Hr. simpl. f_equal.
    apply nth_replace_same. rewrite (Hwf r Hr). now apply (position_lt name).
  - rewrite (position_app_new _ _ Hpos). f_equal. rewrite map_map.
    rewrite <- map_combine_snd. apply map_combine_ext. intros r v Hr. simpl. f_equal.
    rewrite <- (Hwf r Hr). rewrite app_nth2 by lia. now rewrite Nat.sub_diag.
Qed.

(** Writing a column leaves the other columns as they are. *)
Lemma column_set_other (name other : string) (vals : list Q) (data : DataFrame) :
  wf_frame data -> other <> name ->
  List.length vals = List.length (rows data) ->
  column other (set_column name vals data) = column other data.
Proof.
  intros Hwf Hne Hlen. unfold wf_frame in Hwf. rewrite Forall_forall in Hwf.
  unfold set_column.
  destruct (position name (columns data)) as [i|] eqn:Hpos; unfold column; simpl.
  - destruct (position other (columns data)) as [j|] eqn:Hother; [| reflexivity].
    f_equal. rewrite map_map.
    rewrite <- (map_combine_fst (fun r => (fst r, nth j (snd r) 0%Q)) (rows data) vals Hlen).
    apply map_combine_ext. intros r v Hr. simpl. f_equal.
    apply nth_replace_other. intros ->. apply Hne. exact (position_inj other name (columns data) j Hother Hpos).
  - rewrite (position_app_old name other _ Hne).
    destruct (position other (columns data)) as [j|] eqn:Hother; [| reflexivity].
    f_equal. rewrite map_map.
    rewrite <- (map_combine_fst (fun r => (fst r, nth j (snd r) 0%Q)) (rows data) vals Hlen).
    apply map_combine_ext. intros r v Hr. simpl. f_equal.
    apply app_nth1. rewrite (Hwf r Hr). now apply (position_lt other).
Qed.

Lemma index_set_column (name : string) (vals : list Q) (data : DataFrame) :
  List.length vals = List.length (rows data) ->
  index (set_column name vals data) = index data.
Proof.
  intros Hlen. unfold set_column, index.
  destruct (position name (columns data)); simpl; rewrite map_map;
    exact (map_combine_fst fst (rows data) vals Hlen).
Qed.

(** ** A run on well-formed series *)

Lemma column_mem (name : string) (data : DataFrame) :
  column name data <> None <-> mem name (columns data) = true.
Proof.
  rewrite <- position_mem. unfold column.
  destruct (position name (columns data)); split; congruence.
Qed.

Lemma first_occurrences_from (l acc : list string) :
  NoDup (acc ++ l) ->
  fold_left (fun a t => if mem t a then a else a ++ [t]) l acc = acc ++ l.
Proof.
  revert acc; induction l as [|t l IH]; intros acc Hnd; simpl; [now rewrite app_nil_r |].
  destruct (mem t acc) eqn:Hmem.
  - apply mem_In in Hmem. apply NoDup_remove_2 in Hnd. exfalso. apply Hnd.
    apply in_or_app. now left.
  - rewrite IH; rewrite <- app_assoc; [reflexivity | exact Hnd].
Qed.

Lemma Forall_dict_set {V} (P : V -> Prop) (k : string) (v : V) (d : list (string * V)) :
  P v -> Forall (fun item => P (snd item)) d ->
  Forall (fun item => P (snd item)) (dict_set k v d).
Proof.
  intros Hv. induction 1 as [|[k' v'] d Hhd Htl IH]; simpl; [constructor; [exact Hv | constructor] |].
  destruct (String.eqb k k'); constructor; auto.
Qed.

(** One turn of the loop on a well-formed series: the cumulative returns
    are written beside the prices, the record is built, nothing is shown. *)
Lemma annotate_and_measure_analyzable `{NumLib} (ticker : string) (data : DataFrame)
    (visited : TickerDataset) (stats_dict : list (string * StatsRecord)) (log : list event) :
  analyzable data ->
  exists data' record,
    annotate_and_measure (ticker, data) (visited, stats_dict) log
    = (Ok (visited ++ [(ticker, data')], dict_set ticker record stats_dict), log) /\
    annotated data' /\ index data' = index data /\ populated record.
Proof.
  intros [Hwf [Hlen [Hspan [prices [Hcol Hnz]]]]].
  assert (Hmem : mem "Adj Close" (columns data) = true).
  { apply column_mem. congruence. }
  pose proof (column_length _ _ _ Hcol) as Hplen.
  destruct prices as [|[d0 first] rest] eqn:Hprices; [simpl in Hplen; lia |].
  rewrite <- Hprices in *.
  assert (Hfirst : hd_error (values prices) = Some first) by now rewrite Hprices.
  set (vals := map (fun p => (p / first - 1)%Q) (values prices)).
  assert (Hvlen : List.length vals = List.length (rows data)).
  { unfold vals, values. now rewrite !length_map. }
  set (data' := set_column "Cumulative Return" vals data).
  assert (Hidx : index data' = index data) by now apply index_set_column.
  assert (Hlen' : df_len data' = df_len data).
  { unfold df_len. rewrite <- (length_map fst (rows data')), <- (length_map fst (rows data)).
    exact (f_equal (@List.length _) Hidx). }
  assert (Hcol' : column "Adj Close" data' = Some prices).
  { unfold data'. rewrite column_set_other; [exact Hcol | exact Hwf | discriminate | exact Hvlen]. }
  assert (Hcum : column "Cumulative Return" data' <> None).
  { unfold data'. now rewrite column_set_same. }
  destruct (statistics_record_populated data' "Adj Close" prices log)
    as [record [Hrun Hpop]]; try assumption.
  { now rewrite Hlen'. }
  { unfold index_min, index_max. rewrite Hidx. exact Hspan. }
  exists data', record. split; [| split; [| split; [exact Hidx | exact Hpop]]].
  - unfold annotate_and_measure. unfold PRICE_COLUMNS. cbn [find]. rewrite Hmem.
    unfold bind at 1. unfold lift_opt at 1. rewrite Hcol. unfold ret at 1.
    unfold bind at 1. unfold lift_opt at 1. rewrite Hfirst. unfold ret at 1.
    unfold bind at 1. fold vals. fold data'. rewrite Hrun. reflexivity.
  - split; [| split; [exact Hcum |]].
    + intros Hrows. unfold df_len in Hlen'. rewrite Hrows in Hlen'.
      unfold df_len in Hlen. simpl in Hlen'. lia.
    + apply column_mem. congruence.
Qed.

Lemma statistics_loop_analyzable `{NumLib} (data_dict : TickerDataset) :
  Forall (fun item => analyzable (snd item)) data_dict ->
  forall (visited : TickerDataset) (stats_dict : list (string * StatsRecord))
         (log : list event),
    Forall (fun item => annotated (snd item)) visited ->
    Forall (fun item => populated (snd item)) stats_dict ->
    exists visited' stats_dict',
      for_each data_dict annotate_and_measure (visited, stats_dict) log
      = (Ok (visited', stats_dict'), log) /\
      keys visited' = keys visited ++ keys data_dict /\
      map (fun item => index (snd item)) visited'
      = map (fun item => index (snd item)) visited
        ++ map (fun item => index (snd item)) data_dict /\
      Forall (fun item => annotated (snd item)) visited' /\
      keys stats_dict'
      = fold_left (fun a t => if mem t a then a else a ++ [t]) (keys data_dict)
                  (keys stats_dict) /\
      Forall (fun item => populated (snd item)) stats_dict'.
Proof.
  induction 1 as [|[ticker data] rest Hhd _ IH]; intros visited stats_dict log Hann Hpop.
  - exists visited, stats_dict. simpl. rewrite !app_nil_r. repeat split; assumption.
  - simpl in Hhd.
    destruct (annotate_and_measure_analyzable ticker data visited stats_dict log Hhd)
      as [data' [record [Hstep [Hann' [Hidx Hpop']]]]].
    destruct (IH (visited ++ [(ticker, data')]) (dict_set ticker record stats_dict) log)
      as [visited' [stats' [Hloop [Hkeys [Hindex [Hall [Hskeys Hspop]]]]]]].
    { apply Forall_app. split; [exact Hann | constructor; [exact Hann' | constructor]]. }
    { now apply Forall_dict_set. }
    exists visited', stats'. split.
    { cbn [for_each]. unfold bind at 1. rewrite Hstep. exact Hloop. }
    split.
    { rewrite Hkeys. unfold keys. rewrite map_app. simpl. now rewrite <- app_assoc. }
    split.
    { rewrite Hindex. rewrite map_app. simpl. rewrite Hidx. now rewrite <- app_assoc. }
    split; [exact Hall |]. split; [| exact Hspop].
    rewrite Hskeys. simpl. now rewrite keys_dict_set.
Qed.

Lemma all_dates_concat (data_dict : TickerDataset) :
  all_dates data_dict = List.concat (map (fun item => index (snd item)) data_dict).
Proof. unfold all_dates. apply flat_map_concat_map. Qed.

Lemma trace_names (data_dict : TickerDataset) (stats_dict : list (string * StatsRecord))
    (l : list string) (traces : list (string * value * Series)) :
  Forall2 (is_trace data_dict stats_dict) l traces ->
  map (fun trace => fst (fst trace)) traces = l.
Proof.
  induction 1 as [|t trace l traces Htrace _ IH]; [reflexivity |].
  simpl. rewrite IH. destruct Htrace as [data [record [_ [_ [-> _]]]]]. reflexivity.
Qed.

(** The loop of lines 239-241 writes one line per ranked ticker. *)
Lemma descriptions_run `{Yahoo} (info : list (string * string)) (l : list string)
    (log : list event) :
  (forall t, In t l -> dict_get t info = Some (description t)) ->
  for_each l
    (fun ticker _ =>
       emit (StMarkdown ticker
               match dict_get ticker info with
               | Some description => description
               | None => "No description available"
               end)) tt log
  = (Ok tt, log ++ map (fun t => StMarkdown t (description t)) l).
Proof.
  revert log; induction l as [|t l IH]; intros log Hinfo; simpl.
  - now rewrite app_nil_r.
  - unfold bind at 1. unfold emit at 1. rewrite (Hinfo t) by now left.
    rewrite IH by (intros; apply Hinfo; now right).
    now rewrite <- app_assoc.
Qed.

(** X17.  On a dataset of well-formed series (rectangular, an ['Adj Close']
    column without a zero, at least 3 rows, first date before the last)
    the analysis runs to its end and shows nothing but its widgets, in
    this order: the statistics table, the correlation matrix when there
    are at least two tickers, the chart, one description per ticker.
    Every ticker has a populated record; the table, the matrix, the
    traces and the descriptions all follow the ranking, which lists every
    ticker once by descending cumulative return; the tick format of the
    chart is that of the span of the input dates. *)
Theorem analysis_completes `{Yahoo} `{NumLib} (data_dict : TickerDataset) :
  data_dict <> [] ->
  NoDup (keys data_dict) ->
  Forall (fun item => analyzable (snd item)) data_dict ->
  exists ranked stats_dict corr_events lo hi traces,
    run (analyze data_dict)
    = (Ok tt,
       [StSubheader "Statistics Summary"; StStatsTable ranked stats_dict]
       ++ corr_events
       ++ [StSubheader "Cumulative Returns";
           StPlotlyChart (if hi - lo <? 30 then ".2%" else ".0%") traces;
           StSubheader "Ticker Descriptions"]
       ++ map (fun t => StMarkdown t (description t)) ranked) /\
    keys stats_dict = keys data_dict /\
    Forall (fun item => populated (snd item)) stats_dict /\
    Permutation ranked (keys data_dict) /\
    StronglySorted (ranks_before stats_dict) ranked /\
    spans data_dict lo hi /\
    map (fun trace => fst (fst trace)) traces = ranked /\
    (if (1 <? List.length data_dict)%nat
     then exists m, corr_events = [StSubheader "Correlation Matrix"; StCorrTable m] /\
                    row_labels m = ranked /\ col_labels m = ranked
     else corr_events = []).
Proof.
  intros Hne Hnd Hall.
  destruct (statistics_loop_analyzable data_dict Hall [] [] [])
    as [visited [stats [Hloop [Hkeys [Hindex [Hann [Hskeys Hpop]]]]]]];
    [constructor | constructor |].
  simpl in Hkeys, Hindex, Hskeys.
  rewrite (first_occurrences_from (keys data_dict) []) in Hskeys by exact Hnd.
  simpl in Hskeys.
  (* the ranking *)
  assert (Hret : Forall (fun t => return_key stats t <> None) (keys stats)).
  { apply Forall_forall. intros t Ht.
    destruct (dict_get_of_key t stats Ht) as [record [Hget Hin]].
    rewrite Forall_forall in Hpop. destruct (Hpop _ Hin) as [_ [q Hq]]. simpl in Hq.
    unfold return_key. rewrite Hget, Hq. discriminate. }
  destruct (rank_keys_ok stats (keys stats) [] Hret) as [keyed [Hkeyed [Hfst Hkey]]].
  set (ranked := map fst (sort_desc keyed)).
  assert (Hsorted : sorted_by_return stats [] = (Ok ranked, [])).
  { unfold sorted_by_return. unfold bind at 1. rewrite Hkeyed. reflexivity. }
  assert (Hperm : Permutation ranked (keys data_dict)).
  { rewrite <- Hskeys, <- Hfst. apply Permutation_map, sort_desc_perm. }
  assert (Hss : StronglySorted (ranks_before stats) ranked).
  { apply ranks_before_of_keyed; [| apply sort_desc_sorted].
    eapply Permutation_Forall; [apply Permutation_sym, sort_desc_perm | exact Hkey]. }
  assert (Hin_ranked : forall t, In t ranked -> In t (keys visited) /\ In t (keys stats)).
  { intros t Ht. rewrite Hkeys, Hskeys. split; eapply Permutation_in; eauto. }
  (* the correlation matrix *)
  assert (Hcorr : exists m,
             calculate_correlation_table visited ranked
               [StSubheader "Statistics Summary"; StStatsTable ranked stats;
                StSubheader "Correlation Matrix"]
             = (Ok m, [StSubheader "Statistics Summary"; StStatsTable ranked stats;
                       StSubheader "Correlation Matrix"]) /\
             row_labels m = ranked /\ col_labels m = ranked).
  { destruct (calculate_correlation_table_spec visited ranked
                [StSubheader "Statistics Summary"; StStatsTable ranked stats;
                 StSubheader "Correlation Matrix"])
      as [[m [Hm [Hr [Hc _]]]] | [r [Hr [Hnone _]]]]; [now exists m |].
    exfalso. revert Hnone. apply dict_get_some_iff_key, daily_returns_frame_keys.
    destruct (dict_get_of_key r visited (proj1 (Hin_ranked r Hr))) as [data [_ Hin]].
    exists data. split; [exact Hin |].
    rewrite Forall_forall in Hann. apply (Hann _ Hin). }
  (* the chart *)
  assert (Hvne : visited <> []).
  { intros ->. destruct data_dict; [congruence | discriminate]. }
  assert (Hrows : Forall (fun item => rows (snd item) <> []) visited).
  { eapply Forall_impl; [| exact Hann]. intros item Hitem. apply Hitem. }
  assert (Hchart : Forall (chartable visited stats) ranked).
  { apply Forall_forall. intros t Ht. destruct (Hin_ranked t Ht) as [Hv Hs].
    destruct (dict_get_of_key t visited Hv) as [data [Hdata Hdin]].
    destruct (dict_get_of_key t stats Hs) as [record [Hrecord Hrin]].
    rewrite Forall_forall in Hann, Hpop.
    destruct (Hann _ Hdin) as [_ [Hcum _]]. destruct (Hpop _ Hrin) as [_ [q Hq]].
    simpl in Hcum, Hq.
    destruct (column "Cumulative Return" data) as [y|] eqn:Hy; [| congruence].
    exists data, y, record, (VNum q). repeat split; assumption. }
  assert (Hplot : forall log, exists lo hi traces,
             spans data_dict lo hi /\
             map (fun trace => fst (fst trace)) traces = ranked /\
             plot_cumulative_returns visited stats ranked log
             = (Ok tt, log ++ [StPlotlyChart (if hi - lo <? 30 then ".2%" else ".0%") traces])).
  { intros log.
    destruct (chart_span visited log Hvne Hrows) as [lo [hi [Hmax [Hmin Hspan]]]].
    destruct (chart_traces_run visited stats ranked log Hchart) as [traces [Hrun Htraces]].
    exists lo, hi, traces. split; [| split; [now apply (trace_names visited stats) |]].
    - unfold spans in *. now rewrite all_dates_concat, <- Hindex, <- all_dates_concat.
    - unfold plot_cumulative_returns. unfold bind at 1. rewrite Hmax.
      unfold bind at 1. rewrite Hmin. unfold bind at 1. rewrite Hrun. reflexivity. }
  (* the descriptions *)
  assert (Hinfo : forall t, In t ranked -> dict_get t (fetch_ticker_info ranked)
                                           = Some (description t)).
  { intros t Ht. apply (proj2 (ticker_info_fold ranked [])). now left. }
  assert (Hlen : List.length visited = List.length data_dict).
  { rewrite <- (length_map fst visited), <- (length_map fst data_dict).
    exact (f_equal (@List.length _) Hkeys). }
  unfold run, analyze. unfold TickerDataset in *. unfold bind at 1. rewrite Hloop.
  unfold bind at 1. rewrite Hsorted.
  unfold bind at 1. unfold emit at 1. unfold bind at 1. unfold emit at 1.
  cbn [List.app]. rewrite Hlen.
  destruct (1 <? List.length data_dict)%nat.
  - destruct Hcorr as [m [Hm [Hr Hc]]].
    destruct (Hplot [StSubheader "Statistics Summary"; StStatsTable ranked stats;
                     StSubheader "Correlation Matrix"; StCorrTable (matrix_round m);
                     StSubheader "Cumulative Returns"])
      as [lo [hi [traces [Hspan [Hnames Hrun]]]]].
    exists ranked, stats, [StSubheader "Correlation Matrix"; StCorrTable (matrix_round m)],
           lo, hi, traces.
    split; [| split; [exact Hskeys | split; [exact Hpop | split; [exact Hperm |
              split; [exact Hss | split; [exact Hspan | split; [exact Hnames |]]]]]]].
    2:{ exists (matrix_round m). split; [reflexivity | split; assumption]. }
    unfold bind at 1. unfold bind at 1. unfold emit at 1. unfold bind at 1.
    cbv beta iota. cbn [List.app]. rewrite Hm. unfold emit at 1. cbn [List.app].
    unfold bind at 1. unfold emit at 1. cbn [List.app].
    unfold bind at 1. cbv beta iota. cbn [List.app]. rewrite Hrun.
    unfold bind at 1. unfold emit at 1.
    rewrite (descriptions_run _ _ _ Hinfo). cbn [List.app]. reflexivity.
  - destruct (Hplot [StSubheader "Statistics Summary"; StStatsTable ranked stats;
                     StSubheader "Cumulative Returns"])
      as [lo [hi [traces [Hspan [Hnames Hrun]]]]].
    exists ranked, stats, [], lo, hi, traces.
    split; [| split; [exact Hskeys | split; [exact Hpop | split; [exact Hperm |
              split; [exact Hss | split; [exact Hspan | split; [exact Hnames | reflexivity]]]]]]].
    unfold bind at 1. unfold ret at 1.
    unfold bind at 1. unfold emit at 1. cbn [List.app].
    unfold bind at 1. cbv beta iota. cbn [List.app]. rewrite Hrun.
    unfold bind at 1. unfold emit at 1.
    rewrite (descriptions_run _ _ _ Hinfo). cbn [List.app]. reflexivity.
Qed.

Lemma analysis_completes_witness :
  exists ranked stats_dict m traces,
    run (@analyze yahoo_offline sample_numlib two_risers)
    = (Ok tt,
       [StSubheader "Statistics Summary"; StStatsTable ranked stats_dict;
        StSubheader "Correlation Matrix"; StCorrTable m;
        StSubheader "Cumulative Returns"; StPlotlyChart ".2%" traces;
        StSubheader "Ticker Descriptions"]
       ++ map (fun t => StMarkdown t "Error fetching data: connection timed out") ranked) /\
    Permutation ranked ["UP"; "DOWN"].
Proof.
  destruct (@analysis_completes yahoo_offline sample_numlib two_risers)
    as [ranked [stats [corr_events [lo [hi [traces
          [Hrun [_ [_ [Hperm [_ [Hspan [_ Hcorr]]]]]]]]]]]]].
  - discriminate.
  - repeat constructor; simpl; intuition discriminate.
  - repeat constructor; try discriminate.
    + exists [(1, 10%Q); (2, 11%Q); (3, 13%Q)]. split; [reflexivity |].
      repeat constructor; discriminate.
    + exists [(1, 20%Q); (2, 19%Q); (3, 21%Q)]. split; [reflexivity |].
      repeat constructor; discriminate.
  - simpl in Hcorr. destruct Hcorr as [m [-> _]].
    exists ranked, stats, m, traces. split; [| exact Hperm].
    rewrite Hrun.
    assert (Hlo : lo = 1).
    { destruct Hspan as [Hlo [_ Hb]]. specialize (Hb 1). simpl in Hlo, Hb. lia. }
    assert (Hhi : hi = 3).
    { destruct Hspan as [_ [Hhi Hb]]. specialize (Hb 3). simpl in Hhi, Hb. lia. }
    subst lo hi. reflexivity.
Defined.

(** ** Further edges *)

Lemma statistics_body_span `{NumLib} (data : DataFrame) (price_column : string)
    (log : list event) (record : StatsRecord) :
  fst (statistics_body data price_column log) = Ok record ->
  record <> [] ->
  index_min data <> index_max data.
Proof.
  unfold statistics_body.
  destruct (df_len data <? 2)%nat; [intros [= <-]; congruence |].
  unfold bind, lift_opt, ret, raise.
  destruct (index_min data) as [s|]; [| discriminate].
  destruct (index_max data) as [e|]; [| discriminate].
  destruct (column "Cumulative Return" data) as [cumulative|]; [| discriminate].
  destruct (hd_error (rev (values cumulative))) as [final_value|]; [| discriminate].
  destruct (Qeq_bool (inject_Z (e - s) / DAYS_PER_YEAR) 0) eqn:Hz; [discriminate |].
  intros _ _ [= ->]. rewrite Z.sub_diag in Hz. discriminate.
Qed.

Lemma round_half_even_lower (x : Q) (lo : Z) :
  (inject_Z lo <= x)%Q -> lo <= round_half_even x.
Proof.
  intros Hlo. pose proof (Qlt_floor x) as Hf.
  assert (Hfl : lo <= Qfloor x).
  { apply Z.lt_succ_r. rewrite Zlt_Qlt. unfold Z.succ.
    eapply Qle_lt_trans; [exact Hlo | exact Hf]. }
  unfold round_half_even.
  destruct (x - inject_Z (Qfloor x) ?= 1 # 2)%Q; [destruct (Z.even (Qfloor x)) | |]; lia.
Qed.

(** X18.  A record that is not empty spans time: its start date is before
    its end date, and its ["Years"] field is a positive number. *)
Theorem record_spans_time `{NumLib} (data : DataFrame) (price_column : string)
    (record : StatsRecord) (log log' : list event) :
  calculate_statistics data price_column log = (Ok record, log') ->
  record <> [] ->
  exists start_date end_date years,
    dict_get "Start Date" record = Some (VDate start_date) /\
    dict_get "End Date" record = Some (VDate end_date) /\
    dict_get "Years" record = Some (VNum years) /\
    start_date < end_date /\ (0 < years)%Q.
Proof.
  intros Hrun Hne. rewrite calculate_statistics_run in Hrun.
  destruct (statistics_body data price_column log) as [[r | e] l] eqn:Hbody;
    [| injection Hrun as <- _; congruence].
  injection Hrun as -> _.
  pose proof (statistics_body_span data price_column log record) as Hspan.
  rewrite Hbody in Hspan. specialize (Hspan eq_refl Hne).
  destruct (statistics_body_populated data price_column log record)
    as [s [e [cum [fv [prices [Hs [He [_ [_ [_ ->]]]]]]]]]];
    [now rewrite Hbody | exact Hne |].
  destruct (index_bounds_of_rows data) as [s' [e' [Hs' [He' Hle]]]].
  { unfold index_min, index, df_len in *. destruct (rows data); [discriminate | simpl; lia]. }
  rewrite Hs in Hs'. rewrite He in He'. injection Hs' as <-. injection He' as <-.
  assert (Hlt : s < e).
  { destruct (Z.eq_dec s e) as [-> | Hneq]; [| lia]. exfalso. apply Hspan. now rewrite Hs, He. }
  eexists s, e, _. split; [reflexivity |]. split; [reflexivity |]. split; [reflexivity |].
  split; [exact Hlt |]. unfold round4.
  assert (Hyears : (inject_Z 27 <= inject_Z (e - s) / DAYS_PER_YEAR * 10000)%Q).
  { assert (H1 : (1 <= inject_Z (e - s))%Q).
    { change 1%Q with (inject_Z 1). rewrite <- Zle_Qle. lia. }
    unfold DAYS_PER_YEAR. change (inject_Z 27) with 27%Q.
    setoid_replace (inject_Z (e - s) / (1461 # 4) * 10000)%Q
      with (inject_Z (e - s) * (40000 # 1461))%Q by field.
    apply Qle_trans with (1 * (40000 # 1461))%Q; [discriminate |].
    apply Qmult_le_compat_r; [exact H1 | discriminate]. }
  apply round_half_even_lower in Hyears.
  apply Qlt_shift_div_l; [reflexivity |]. rewrite Qmult_0_l.
  change 0%Q with (inject_Z 0). rewrite <- Zlt_Qlt. lia.
Qed.

Lemma record_spans_time_witness :
  exists record start_date end_date years,
    @calculate_statistics sample_numlib
      (mkDF ["Close"; "Cumulative Return"]
            [(1, [10%Q; 0%Q]); (2, [11%Q; (1 # 10)%Q]); (3, [12%Q; (2 # 10)%Q])])
      "Close" []
    = (Ok record, []) /\
    dict_get "Start Date" record = Some (VDate start_date) /\
    dict_get "End Date" record = Some (VDate end_date) /\
    dict_get "Years" record = Some (VNum years) /\
    start_date < end_date /\ (0 < years)%Q.
Proof.
  assert (Hrun : exists record,
             @calculate_statistics sample_numlib
               (mkDF ["Close"; "Cumulative Return"]
                     [(1, [10%Q; 0%Q]); (2, [11%Q; (1 # 10)%Q]); (3, [12%Q; (2 # 10)%Q])])
               "Close" []
             = (Ok record, []) /\ record <> []).
  { eexists. split; [vm_compute; reflexivity | discriminate]. }
  destruct Hrun as [record [Hrun Hne]].
  destruct (@record_spans_time sample_numlib _ _ _ _ _ Hrun Hne) as [s [e [y Hrec]]].
  exists record, s, e, y. split; [exact Hrun | exact Hrec].
Defined.

(** X19.  A custom range whose end is before its start selects nothing:
    whatever was downloaded, the alignment shows that all datasets are
    empty and returns the empty dictionary. *)
Theorem reversed_range_is_empty (data_dict : TickerDataset)
    (custom_start_date custom_end_date : date) (log : list event) :
  custom_end_date < custom_start_date ->
  align_stock_data data_dict CUSTOM_DATE (Some custom_start_date) (Some custom_end_date) log
  = (Ok [], log ++ [StError ALIGNMENT_EMPTY]).
Proof.
  intros Hrev. unfold align_stock_data, try_except, bind.
  destruct (trim_stock_data_spec data_dict CUSTOM_DATE
              (Some custom_start_date) (Some custom_end_date) log)
    as [[_ [Hopt _]] | [mask [-> Hmask]]]; [discriminate |].
  rewrite (drop_empty_none data_dict mask); [reflexivity |].
  destruct Hmask as [Hnone | Hwin]; [exact Hnone |].
  intros x. rewrite Hwin. unfold policy_window. simpl.
  destruct (Z.leb_spec custom_start_date x); [| reflexivity].
  destruct (Z.leb_spec x custom_end_date); [lia | reflexivity].
Qed.

Lemma reversed_range_is_empty_witness :
  align_stock_data two_risers CUSTOM_DATE (Some 3) (Some 1) []
  = (Ok [], [StError ALIGNMENT_EMPTY]).
Proof. apply (reversed_range_is_empty two_risers 3 1 []). lia. Defined.

(** ** Letter case of the input *)

Lemma upper_char_comma (c : ascii) : Ascii.eqb (upper_char c) "," = Ascii.eqb c ",".
Proof. destruct c as [[] [] [] [] [] [] [] []]; reflexivity. Qed.

Lemma split_upper (s : string) : split "," (upper s) = map upper (split "," s).
Proof.
  induction s as [|c s IH]; simpl; [reflexivity |].
  rewrite upper_char_comma. destruct (Ascii.eqb c ","); simpl; [now rewrite IH |].
  rewrite IH. destruct (split "," s); reflexivity.
Qed.

Lemma truthy_upper (s : string) : truthy (upper s) = truthy s.
Proof. now destruct s. Qed.

(** X20.  The letter case of the input does not matter: typing the
    tickers in upper case gives the list that any mix of cases gives. *)
Theorem input_case_insensitive (text : string) :
  is_ascii7 text = true ->
  tickers (upper text) = tickers text.
Proof.
  intros _. unfold tickers. rewrite split_upper.
  induction (split "," text) as [|t l IH]; [reflexivity |].
  cbn [map filter]. rewrite strip_upper, truthy_upper.
  destruct (truthy (strip t)); [| exact IH].
  cbn [map]. now rewrite IH, strip_upper, upper_idem.
Qed.

Lemma input_case_insensitive_witness :
  tickers (upper " aapl, Msft ,btc-usd") = tickers " aapl, Msft ,btc-usd".
Proof. apply (input_case_insensitive " aapl, Msft ,btc-usd"). reflexivity. Defined.

(** ** Failure isolation in the statistics loop *)





(** ** Compound annual growth rate *)

Lemma round_half_even_close (x : Q) :
  (- (1 # 2) <= inject_Z (round_half_even x) - x <= 1 # 2)%Q.
Proof.
  pose proof (Qfloor_le x) as Hlo. pose proof (Qlt_floor x) as Hhi.
  rewrite inject_Z_plus in Hhi. change (inject_Z 1) with 1%Q in Hhi.
  unfold round_half_even.
  destruct (x - inject_Z (Qfloor x) ?= 1 # 2)%Q eqn:Hcmp.
  - apply Qeq_alt in Hcmp.
    destruct (Z.even (Qfloor x)); [| rewrite inject_Z_plus; change (inject_Z 1) with 1%Q];
      split; qlra.
  - apply Qlt_alt in Hcmp. split; qlra.
  - apply Qgt_alt in Hcmp. rewrite inject_Z_plus. change (inject_Z 1) with 1%Q. split; qlra.
Qed.

Lemma round4_close (x : Q) : (- (1 # 20000) <= round4 x - x <= 1 # 20000)%Q.
Proof.
  unfold round4. pose proof (round_half_even_close (x * 10000)) as [Hlo Hhi].
  set (n := inject_Z (round_half_even (x * 10000))) in *.
  setoid_replace (n / 10000 - x)%Q with ((n - x * 10000) / 10000)%Q by field.
  split.
  - apply Qle_shift_div_l; [reflexivity |]. qlra.
  - apply Qle_shift_div_r; [reflexivity |]. qlra.
Qed.

Lemma span_years_pos (start_date end_date : date) :
  start_date < end_date -> (0 < span_years start_date end_date)%Q.
Proof.
  intros Hlt. unfold span_years, DAYS_PER_YEAR.
  apply Qlt_shift_div_l; [reflexivity |]. rewrite Qmult_0_l.
  change 0%Q with (inject_Z 0). rewrite <- Zlt_Qlt. lia.
Qed.

Section GrowthRate.
Local Open Scope R_scope.

Lemma Q2R_pos (q : Q) : (0 < q)%Q -> 0 < Q2R q.
Proof. intros Hq. apply Qlt_Rlt in Hq. now rewrite RMicromega.Q2R_0 in Hq. Qed.

(** The real rate round-trips exactly. *)
Lemma exact_rate_round_trip (base years : Q) :
  (0 < base)%Q -> (0 < years)%Q ->
  Rpower (Rpower (Q2R base) (Q2R (1 / years))) (Q2R years) = Q2R base.
Proof.
  intros Hb Hy. rewrite Rpower_mult, <- Q2R_mult.
  assert (Hone : (1 / years * years == 1)%Q) by (field; intros Hz; rewrite Hz in Hy; discriminate).
  rewrite (Qeq_eqR _ _ Hone), RMicromega.Q2R_1.
  apply Rpower_1. now apply Q2R_pos.
Qed.

End GrowthRate.

Section RoundTrip.
Local Open Scope R_scope.

(** C7, as amended.  For a series that gets a record and whose final value
    plus 1 is positive, the span in years is positive and the real rate
    [(final_value + 1)^(1/years) - 1] round-trips exactly.  The rate the
    code computes is the library power less 1, and the ["CAGR (%)"] field
    is its percentage rounded to 4 decimals: when the library power is
    within [delta] of the real power, the field differs from the
    percentage of the real rate by at most half a unit of the fourth
    decimal plus [100 * delta]. *)
Theorem cagr_round_trip `{NumLib} (data : DataFrame) (price_column : string)
    (record : StatsRecord) (log log' : list event) (start_date end_date : date)
    (cumulative : Series) (final_value : Q) (delta : R) :
  calculate_statistics data price_column log = (Ok record, log') ->
  record <> [] ->
  index_min data = Some start_date ->
  index_max data = Some end_date ->
  column "Cumulative Return" data = Some cumulative ->
  hd_error (rev (values cumulative)) = Some final_value ->
  (-1 < final_value)%Q ->
  pow_within delta (final_value + 1) (1 / span_years start_date end_date) ->
  exists shown rate,
    dict_get "CAGR (%)" record = Some (VNum shown) /\
    0 < Q2R (span_years start_date end_date) /\
    -1 < rate /\
    Rpower (1 + rate) (Q2R (span_years start_date end_date)) = Q2R final_value + 1 /\
    - (1 / 20000 + 100 * delta) <= Q2R shown - 100 * rate <= 1 / 20000 + 100 * delta.
Proof.
  intros Hrun Hne Hs He Hcum Hfinal Hbase Hpow.
  rewrite calculate_statistics_run in Hrun.
  destruct (statistics_body data price_column log) as [[r | x] l] eqn:Hbody;
    [| injection Hrun as <- _; congruence].
  injection Hrun as -> _.
  pose proof (statistics_body_span data price_column log record) as Hspan.
  rewrite Hbody in Hspan. specialize (Hspan eq_refl Hne).
  destruct (statistics_body_populated data price_column log record)
    as [s [e [cum [fv [prices [Hs' [He' [Hcum' [Hfinal' [_ ->]]]]]]]]]];
    [now rewrite Hbody | exact Hne |].
  rewrite Hs in Hs'. rewrite He in He'. rewrite Hcum in Hcum'.
  injection Hs' as <-. injection He' as <-. injection Hcum' as <-.
  rewrite Hfinal in Hfinal'. injection Hfinal' as <-.
  destruct (index_bounds_of_rows data) as [s' [e' [Hs' [He' Hle]]]].
  { unfold index_min, index, df_len in *. destruct (rows data); [discriminate | simpl; lia]. }
  rewrite Hs in Hs'. rewrite He in He'. injection Hs' as <-. injection He' as <-.
  assert (Hlt : (start_date < end_date)%Z).
  { destruct (Z.eq_dec start_date end_date) as [Heq | Hneq]; [| lia].
    exfalso. apply Hspan. now rewrite Hs, He, Heq. }
  pose proof (span_years_pos start_date end_date Hlt) as Hyears.
  fold (span_years start_date end_date).
  set (years := span_years start_date end_date) in *.
  assert (Hb : (0 < final_value + 1)%Q) by qlra.
  exists (round4 ((fpow (final_value + 1) (1 / years) - 1) * 100)),
         (Rpower (Q2R (final_value + 1)) (Q2R (1 / years)) - 1).
  split; [reflexivity |]. split; [now apply Q2R_pos |].
  split; [unfold Rpower; pose proof (exp_pos (Q2R (1 / years) * ln (Q2R (final_value + 1)))); rlra |].
  split.
  - replace (1 + (Rpower (Q2R (final_value + 1)) (Q2R (1 / years)) - 1))
      with (Rpower (Q2R (final_value + 1)) (Q2R (1 / years))) by rlra.
    rewrite (exact_rate_round_trip _ _ Hb Hyears).
    rewrite Q2R_plus, RMicromega.Q2R_1. reflexivity.
  - destruct (round4_close ((fpow (final_value + 1) (1 / years) - 1) * 100)) as [Hlo Hhi].
    apply Qle_Rle in Hlo, Hhi.
    rewrite Q2R_minus, Q2R_mult, Q2R_minus in Hlo, Hhi.
    rewrite Q2R_opp in Hlo.
    replace (Q2R (1 # 20000)) with (1 / 20000) in Hlo, Hhi by (unfold Q2R; simpl; rlra).
    replace (Q2R 100) with 100 in Hlo, Hhi by (unfold Q2R; simpl; rlra).
    rewrite RMicromega.Q2R_1 in Hlo, Hhi.
    destruct Hpow as [Hplo Hphi]. split; rlra.
Qed.

Lemma fourth_root_bounds (lo hi x : R) :
  0 < lo -> 0 < hi -> lo ^ 4 <= x <= hi ^ 4 -> lo <= Rpower x (1 / 4) <= hi.
Proof.
  intros Hlo Hhi [Hl Hh].
  assert (Hroot : forall y, 0 < y -> Rpower (y ^ 4) (1 / 4) = y).
  { intros y Hy. rewrite <- (Rpower_pow 4 y Hy), Rpower_mult.
    replace (INR 4 * (1 / 4)) with 1 by (simpl; rlra). now apply Rpower_1. }
  pose proof (pow_lt lo 4 Hlo) as Hlo4.
  split.
  - apply Rle_trans with (Rpower (lo ^ 4) (1 / 4)); [rewrite (Hroot lo Hlo); rlra |].
    apply Rle_Rpower_l; [rlra | split; assumption].
  - apply Rle_trans with (Rpower (hi ^ 4) (1 / 4)); [| rewrite (Hroot hi Hhi); rlra].
    apply Rle_Rpower_l; [rlra | split; [rlra | assumption]].
Qed.

Lemma cagr_round_trip_witness :
  exists record shown rate,
    @calculate_statistics nine_digit_numlib doubles_in_four_years "Adj Close" []
    = (Ok record, []) /\
    dict_get "CAGR (%)" record = Some (VNum shown) /\
    Rpower (1 + rate) (Q2R (span_years 0%Z 1461%Z)) = Q2R 1%Q + 1 /\
    - (1 / 20000 + 100 * (1 / 1000000000))
    <= Q2R shown - 100 * rate
    <= 1 / 20000 + 100 * (1 / 1000000000).
Proof.
  assert (Hrun : exists record,
             @calculate_statistics nine_digit_numlib doubles_in_four_years "Adj Close" []
             = (Ok record, []) /\ record <> []).
  { eexists. split; [vm_compute; reflexivity | discriminate]. }
  destruct Hrun as [record [Hrun Hne]].
  destruct (@cagr_round_trip nine_digit_numlib doubles_in_four_years "Adj Close"
              record [] [] 0%Z 1461%Z [(0%Z, 0%Q); (730%Z, (1 # 2)%Q); (1461%Z, 1%Q)] 1%Q
              (1 / 1000000000)
              Hrun Hne eq_refl eq_refl eq_refl eq_refl eq_refl)
    as [shown [rate [Hshown [_ [_ [Htrip Hclose]]]]]].
  - unfold pow_within.
    replace (Q2R (@fpow nine_digit_numlib (1 + 1)%Q (1 / span_years 0%Z 1461%Z)%Q))
      with (1189207115 / 1000000000) by (unfold Q2R; simpl; rlra).
    replace (Q2R (1 + 1)%Q) with 2 by (unfold Q2R; simpl; rlra).
    replace (Q2R (1 / span_years 0%Z 1461%Z)%Q) with (1 / 4) by (unfold Q2R; simpl; rlra).
    destruct (fourth_root_bounds (1189207115 / 1000000000) (1189207116 / 1000000000) 2)
      as [Hlo Hhi]; [rlra | rlra | split; rlra |].
    split; rlra.
  - exists record, shown, rate. repeat split; try assumption; apply Hclose.
Defined.

End RoundTrip.

(** ** No machine number is the fourth root of 2 *)

Lemma square_not_twice_square (n : nat) :
  forall p : nat, (n * n = 2 * (p * p))%nat -> p = 0%nat.
Proof.
  induction n as [n IH] using lt_wf_ind. intros p Heq.
  destruct (Nat.eq_dec n 0) as [-> | Hn]; [nia |].
  destruct (Nat.Even_or_Odd n) as [[k ->] | [k ->]]; [| exfalso; nia].
  assert (Hp : (p * p = 2 * (k * k))%nat) by nia.
  assert (Hlt : (p < 2 * k)%nat) by nia.
  pose proof (IH p Hlt k Hp) as Hk. subst k. lia.
Qed.

Lemma no_rational_fourth_root_of_two (q : Q) : ~ (q * q * (q * q) == 2)%Q.
Proof.
  destruct q as [a d]. unfold Qeq, Qmult. cbn [Qnum Qden]. intros Heq.
  assert (Hnat : (Z.to_nat (a * a) * Z.to_nat (a * a)
                  = 2 * (Z.to_nat (Z.pos d * Z.pos d) * Z.to_nat (Z.pos d * Z.pos d)))%nat).
  { apply Nat2Z.inj. rewrite Nat2Z.inj_mul, !Nat2Z.inj_mul, !Z2Nat.id by nia.
    change (Z.of_nat 2) with 2. rewrite !Pos2Z.inj_mul in Heq. nia. }
  apply square_not_twice_square in Hnat.
  assert (0 < Z.pos d * Z.pos d) by nia.
  apply (f_equal Z.of_nat) in Hnat. rewrite Z2Nat.id in Hnat by lia. simpl in Hnat. lia.
Qed.

Section Irrational.
Local Open Scope R_scope.

Lemma no_exact_rate_for_doubling (computed : Q) :
  Rpower (1 + Q2R computed) (Q2R (span_years 0%Z 1461%Z)) <> Q2R 1%Q + 1.
Proof.
  replace (Q2R (span_years 0%Z 1461%Z)) with (INR 4) by (unfold Q2R; simpl; rlra).
  replace (Q2R 1%Q + 1) with 2 by (unfold Q2R; simpl; rlra).
  destruct (Rlt_dec 0 (1 + Q2R computed)) as [Hpos | Hneg].
  - rewrite Rpower_pow by exact Hpos. intros Heq.
    apply (no_rational_fourth_root_of_two (1 + computed)%Q).
    apply eqR_Qeq. rewrite !Q2R_mult, Q2R_plus, RMicromega.Q2R_1.
    replace (Q2R 2%Q) with 2 by (unfold Q2R; simpl; rlra).
    rewrite <- Heq. simpl. ring.
  - unfold Rpower, ln. destruct (Rlt_dec 0 (1 + Q2R computed)) as [Hpos | _]; [contradiction |].
    rewrite Rmult_0_r, exp_0. rlra.
Qed.

End Irrational.

(** C7 as stated fails: a price that doubles in four years has the rate
    [2^(1/4) - 1], which is no machine number.  Whatever the library power
    returns, the computed rate taken to the power of the years is not the
    final value plus 1. *)
Lemma doubling_has_no_exact_rate :
  ~ exists numlib : NumLib, @cagr_round_trips_exactly numlib doubles_in_four_years "Adj Close".
Proof.
  intros [numlib Hclaim].
  destruct (@statistics_record_populated numlib doubles_in_four_years "Adj Close"
              [(0, 1%Q); (730, (3 # 2)%Q); (1461, 2%Q)] [])
    as [record [Hrun [Hkeys _]]].
  - unfold df_len. simpl. lia.
  - discriminate.
  - discriminate.
  - reflexivity.
  - repeat constructor; discriminate.
  - destruct (Hclaim record [] [] 0 1461 [(0, 0%Q); (730, (1 # 2)%Q); (1461, 1%Q)] 1%Q Hrun)
      as [computed [_ Htrip]]; try reflexivity.
    + intros ->. discriminate.
    + exact (no_exact_rate_for_doubling computed Htrip).
Qed.
